(** * xs: a compact byte string with small-string optimisation and
      copy-on-write sharing (homework3/quiz3/xs.c)

    A shallow embedding of [xs.c] and the properties of its operations.

    The C object [xs] is a 16-byte union.  Its three members alias the same
    bytes, and the code depends on that aliasing (the last byte is at once
    the terminator of a 15-byte inline string, the [space_left] counter and
    the flag bits of a heap string).  The embedding therefore keeps the
    sixteen bytes and reads every member out of them, with the layout the
    source is written for (x86-64 System V, little endian, bit-fields
    allocated from the least significant bit):

    - [data[16]]                      bytes 0..15
    - [filler[15]]                    bytes 0..14
    - [space_left : 4]                byte 15, bits 0..3
    - [is_ptr : 1]                    byte 15, bit 4
    - [is_large_string : 1]           byte 15, bit 5
    - [flag2], [flag3]                byte 15, bits 6 and 7
    - [ptr]                           bytes 0..7
    - [size : 54]                     bits 0..53 of the word at bytes 8..15
    - [capacity : 6]                  bits 54..59 of that word, that is the
                                      two top bits of byte 14 and the four
                                      low bits of byte 15.

    The heap is a flat byte-addressed memory with a table of live blocks;
    [malloc] is a bump allocator that fails (returns NULL) when the request
    does not fit below [top].  Every access through a pointer is checked
    against the live blocks (or the 16 bytes of the cell); an access
    outside them is a fault, and the operation returns [Err].

    Bytes are integers in 0..255; a C string argument is the list of the
    bytes at the pointer.  [__builtin_clz(0)], whose result the compiler
    leaves undefined, is a parameter [clz0] of the operations; none of
    their results depends on it. *)

From Stdlib Require Import ZArith Lia String Ascii.
From stdpp Require Import base option list gmap.

Local Open Scope Z_scope.

(** ** Pointers and outcomes *)

(** A [char *] of the program points into the 16-byte cell at hand (at an
    offset) or into the heap (at an address). *)
Inductive cptr :=
  | InCell (off : Z)
  | InHeap (addr : Z).

Inductive fault :=
  | BadAccess (p : cptr)   (* load or store outside the cell and every live block *)
  | BadFree (addr : Z).    (* free of something malloc did not return *)

Inductive result (A : Type) :=
  | Ok (a : A)
  | Err (e : fault).
Arguments Ok {A} a.
Arguments Err {A} e.

#[global] Instance result_ret : MRet result := fun A a => Ok a.
#[global] Instance result_bind : MBind result :=
  fun A B f m => match m with Ok a => f a | Err e => Err e end.

Definition is_ok {A} (r : result A) : bool :=
  match r with Ok _ => true | Err _ => false end.

(** ** Constants of the source *)

Definition MAX_STR_LEN_BITS : Z := 54.
Definition MAX_STR_LEN : Z := 2 ^ MAX_STR_LEN_BITS - 1.
Definition STACK_SIZE : Z := 15.
Definition LARGE_STRING_LEN : Z := 256.

(** ** Little-endian integers in bytes *)

Fixpoint le_encode (n : nat) (v : Z) : list Z :=
  match n with
  | O => []
  | S n' => v mod 256 :: le_encode n' (v / 256)
  end.

Definition le_decode (l : list Z) : Z :=
  foldr (fun b acc => b + 256 * acc) 0 l.

(** A 32-bit pattern read as a C [int]. *)
Definition to_int (v : Z) : Z :=
  let w := v mod 2 ^ 32 in if w <? 2 ^ 31 then w else w - 2 ^ 32.

(** ** The heap *)

Record heap := Heap {
  mem : gmap Z Z;          (* address -> byte; a byte never written reads 0 *)
  live : list (Z * Z);     (* (base, size) of every block malloc'ed and not freed *)
  brk : Z;                 (* next address malloc hands out *)
  top : Z                  (* end of the address space available to malloc *)
}.

Definition in_block (a n : Z) (b : Z * Z) : bool :=
  (b.1 <=? a) && (a + n <=? b.1 + b.2).

Definition in_live (h : heap) (a n : Z) : bool :=
  existsb (in_block a n) (live h).

Definition mem_get (h : heap) (a : Z) : Z := default 0 (mem h !! a).

Definition mem_set (h : heap) (a v : Z) : heap :=
  Heap (<[a := v]> (mem h)) (live h) (brk h) (top h).

(** [malloc]: the new block's address, or 0 (NULL) when it does not fit. *)
Definition malloc (h : heap) (n : Z) : heap * Z :=
  if brk h + n <=? top h
  then (Heap (mem h) ((brk h, n) :: live h) (brk h + n) (top h), brk h)
  else (h, 0).

Definition is_base (p : Z) (b : Z * Z) : bool := b.1 =? p.

(** [free]: NULL is ignored; anything else must be the base of a live block. *)
Definition free (h : heap) (p : Z) : result heap :=
  if p =? 0 then Ok h
  else if existsb (is_base p) (live h)
       then Ok (Heap (mem h) (filter (fun b => negb (is_base p b)) (live h))
                     (brk h) (top h))
       else Err (BadFree p).

(** The [int] at address [a] (the reference count of a large string). *)
Definition read_int (h : heap) (a : Z) : result Z :=
  if in_live h a 4
  then Ok (to_int (le_decode (map (fun k => mem_get h (a + k)) [0; 1; 2; 3])))
  else Err (BadAccess (InHeap a)).

Definition write_int (h : heap) (a v : Z) : result heap :=
  if in_live h a 4
  then Ok (foldl (fun h' kb => mem_set h' (a + kb.1) kb.2) h
                 (zip [0; 1; 2; 3] (le_encode 4 v)))
  else Err (BadAccess (InHeap a)).

(** ** The 16-byte cell *)

Record xs := Xs {
  filler : list Z;   (* bytes 0..14 *)
  tag : Z            (* byte 15: space_left, is_ptr, is_large_string, flag2, flag3 *)
}.

Definition is_byte (b : Z) : Prop := 0 <= b < 256.

(** The cell has sixteen bytes. *)
Definition xs_wf (x : xs) : Prop :=
  length (filler x) = 15%nat /\ Forall is_byte (filler x) /\ is_byte (tag x).

Definition byte14 (x : xs) : Z := nth 14 (filler x) 0.

(** Members of the second struct (bit-fields of byte 15). *)
Definition space_left (x : xs) : Z := tag x mod 16.
Definition xs_is_ptr (x : xs) : bool := (tag x / 16) mod 2 =? 1.
Definition xs_is_large_string (x : xs) : bool := (tag x / 32) mod 2 =? 1.

Definition bit (b : bool) : Z := if b then 1 else 0.

Definition set_space_left (x : xs) (v : Z) : xs :=
  Xs (filler x) (tag x - tag x mod 16 + v mod 16).
Definition set_is_ptr (x : xs) (b : bool) : xs :=
  Xs (filler x) (tag x - ((tag x / 16) mod 2) * 16 + bit b * 16).
Definition set_is_large_string (x : xs) (b : bool) : xs :=
  Xs (filler x) (tag x - ((tag x / 32) mod 2) * 32 + bit b * 32).

(** Members of the third struct. *)
Definition xs_ptr (x : xs) : Z := le_decode (take 8 (filler x)).
Definition size_field (x : xs) : Z :=
  le_decode (take 6 (drop 8 (filler x))) + 2 ^ 48 * (byte14 x mod 64).
Definition capacity_field (x : xs) : Z :=
  (byte14 x / 64) mod 4 + 4 * (tag x mod 16).

Definition set_ptr (x : xs) (p : Z) : xs :=
  Xs (le_encode 8 p ++ drop 8 (filler x)) (tag x).
Definition set_size_field (x : xs) (s : Z) : xs :=
  Xs (take 8 (filler x) ++ le_encode 6 s
        ++ [((byte14 x / 64) mod 4) * 64 + (s / 2 ^ 48) mod 64])
     (tag x).
Definition set_capacity_field (x : xs) (c : Z) : xs :=
  Xs (take 14 (filler x) ++ [byte14 x mod 64 + 64 * (c mod 4)])
     (tag x - tag x mod 16 + (c / 4) mod 16).

(** The first member, [data[16]]. *)
Definition cell_get (x : xs) (i : Z) : Z :=
  if i <? 15 then nth (Z.to_nat i) (filler x) 0 else tag x.
Definition cell_set (x : xs) (i v : Z) : xs :=
  if i <? 15 then Xs (<[Z.to_nat i := v]> (filler x)) (tag x)
  else Xs (filler x) v.

(** ** Accessors of the source *)

Definition xs_size (x : xs) : Z :=
  if xs_is_ptr x then size_field x else STACK_SIZE - space_left x.

Definition xs_set_size (x : xs) (s : Z) : xs :=
  if negb (xs_is_ptr x) then set_space_left x (STACK_SIZE - s)
  else set_size_field x s.

Definition padd (p : cptr) (k : Z) : cptr :=
  match p with
  | InCell o => InCell (o + k)
  | InHeap a => InHeap (a + k)
  end.

Definition xs_data (x : xs) : cptr :=
  if negb (xs_is_ptr x) then InCell 0
  else if xs_is_large_string x then InHeap (xs_ptr x + 4)
  else InHeap (xs_ptr x).

Definition xs_capacity (x : xs) : Z :=
  if xs_is_ptr x then 2 ^ capacity_field x - 1 else 15.

Definition xs_set_refcnt (h : heap) (x : xs) (val : Z) : result heap :=
  write_int h (xs_ptr x) val.

Definition xs_inc_refcnt (h : heap) (x : xs) : result heap :=
  if xs_is_large_string x
  then v ← read_int h (xs_ptr x); write_int h (xs_ptr x) (v + 1)
  else Ok h.

Definition xs_dec_refcnt (h : heap) (x : xs) : result (heap * Z) :=
  if negb (xs_is_large_string x) then Ok (h, 0)
  else v ← read_int h (xs_ptr x);
       h' ← write_int h (xs_ptr x) (v - 1);
       Ok (h', to_int (v - 1)).

Definition xs_get_refcnt (h : heap) (x : xs) : result Z :=
  if negb (xs_is_large_string x) then Ok 0
  else read_int h (xs_ptr x).

Definition xs_literal_empty : xs := Xs (replicate 15 0) 15.

Definition xs_newempty (x : xs) : xs := xs_literal_empty.

Definition xs_free (h : heap) (x : xs) : result (heap * xs) :=
  if xs_is_ptr x then
    '(h1, c) ← xs_dec_refcnt h x;
    h2 ← (if c <=? 0 then free h1 (xs_ptr x) else Ok h1);
    Ok (h2, xs_newempty x)
  else Ok (h, xs_newempty x).

(** ** Loads and stores through a [char *] *)

Definition ok_range (h : heap) (p : cptr) (n : Z) : bool :=
  match p with
  | InCell o => (0 <=? o) && (o + n <=? 16)
  | InHeap a => in_live h a n
  end.

Definition get1 (h : heap) (x : xs) (p : cptr) : Z :=
  match p with
  | InCell o => cell_get x o
  | InHeap a => mem_get h a
  end.

Definition set1 (s : heap * xs) (p : cptr) (v : Z) : heap * xs :=
  match p with
  | InCell o => (s.1, cell_set s.2 o v)
  | InHeap a => (mem_set s.1 a v, s.2)
  end.

Fixpoint load_bytes (h : heap) (x : xs) (p : cptr) (n : nat) : list Z :=
  match n with
  | O => []
  | S n' => get1 h x p :: load_bytes h x (padd p 1) n'
  end.

Fixpoint store_bytes (s : heap * xs) (p : cptr) (bs : list Z) : heap * xs :=
  match bs with
  | [] => s
  | b :: bs' => store_bytes (set1 s p b) (padd p 1) bs'
  end.

(** One byte, [p[0]]. *)
Definition load1 (h : heap) (x : xs) (p : cptr) : result Z :=
  if ok_range h p 1 then Ok (get1 h x p) else Err (BadAccess p).

Definition store1 (h : heap) (x : xs) (p : cptr) (v : Z) : result (heap * xs) :=
  if ok_range h p 1 then Ok (set1 (h, x) p v) else Err (BadAccess p).

(** [n] bytes at [p]; a transfer of zero bytes touches nothing. *)
Definition load (h : heap) (x : xs) (p : cptr) (n : Z) : result (list Z) :=
  if (n =? 0) || ok_range h p n
  then Ok (load_bytes h x p (Z.to_nat n))
  else Err (BadAccess p).

Definition store (h : heap) (x : xs) (p : cptr) (bs : list Z)
  : result (heap * xs) :=
  if (Z.of_nat (length bs) =? 0) || ok_range h p (Z.of_nat (length bs))
  then Ok (store_bytes (h, x) p bs)
  else Err (BadAccess p).

(** [memcpy(dst, src, n)] and [memmove(dst, src, n)]: [dst] points into
    the cell [xd] or the heap, [src] into the cell [xsrc] or the heap.  All
    source bytes are read before the first is written. *)
Definition memcpy (h : heap) (xd : xs) (dst : cptr) (xsrc : xs) (src : cptr)
    (n : Z) : result (heap * xs) :=
  bs ← load h xsrc src n; store h xd dst bs.

Definition memmove := memcpy.

(** A C string argument: the bytes at the pointer; [strlen] stops at the
    first zero byte (or at the end of the list, where the terminator is). *)
Fixpoint strlen (p : list Z) : Z :=
  match p with
  | [] => 0
  | b :: p' => if b =? 0 then 0 else 1 + strlen p'
  end.

(** [!p[0]] *)
Definition cstr_is_empty (p : list Z) : bool :=
  match p with
  | [] => true
  | b :: _ => b =? 0
  end.

(** The first [n] bytes at a C string argument. *)
Definition cstr_bytes (p : list Z) (n : Z) : list Z :=
  take (Z.to_nat n) (p ++ replicate (Z.to_nat n) 0).

(** The bytes a value shows: [xs_size] bytes at [xs_data]. *)
Definition xs_content (h : heap) (x : xs) : result (list Z) :=
  load h x (xs_data x) (xs_size x).

(** A string literal as bytes. *)
Definition lit (s : string) : list Z :=
  map (fun c => Z.of_nat (nat_of_ascii c)) (list_ascii_of_string s).

(** ** The bit mask of [xs_trim] *)

(** [mask[(uint8_t) i >> 3] |= 1 << ((uint8_t) i & 7)] *)
Definition set_bit (mask : list Z) (i : Z) : list Z :=
  let c := i mod 256 in
  let k := Z.to_nat (Z.shiftr c 3) in
  <[k := Z.lor (nth k mask 0) (Z.shiftl 1 (Z.land c 7))]> mask.

(** [mask[(uint8_t) i >> 3] & 1 << ((uint8_t) i & 7)] *)
Definition check_bit (mask : list Z) (i : Z) : bool :=
  let c := i mod 256 in
  negb (Z.land (nth (Z.to_nat (Z.shiftr c 3)) mask 0)
               (Z.shiftl 1 (Z.land c 7)) =? 0).

Definition build_mask (trimset : list Z) : list Z :=
  foldl set_bit (replicate 32 0) (cstr_bytes trimset (strlen trimset)).

(** [for (i = 0; i < slen; i++) if (!check_bit(dataptr[i])) break;]
    with [n] the iterations that remain. *)
Fixpoint scan_fwd (h : heap) (x : xs) (mask : list Z) (p : cptr) (i : Z)
    (n : nat) : result Z :=
  match n with
  | O => Ok i
  | S n' =>
      b ← load1 h x (padd p i);
      if negb (check_bit mask b) then Ok i
      else scan_fwd h x mask p (i + 1) n'
  end.

(** [for (; slen > 0; slen--) if (!check_bit(dataptr[slen - 1])) break;] *)
Fixpoint scan_bwd (h : heap) (x : xs) (mask : list Z) (p : cptr)
    (slen : nat) : result Z :=
  match slen with
  | O => Ok 0
  | S n' =>
      b ← load1 h x (padd p (Z.of_nat n'));
      if negb (check_bit mask b) then Ok (Z.of_nat slen)
      else scan_bwd h x mask p n'
  end.

(** ** The operations *)

Section Code.

(** [__builtin_clz(0)] has no defined result; [clz0] stands for whatever
    the platform returns there. *)
Variable clz0 : Z.

Definition builtin_clz (n : Z) : Z :=
  if n =? 0 then clz0 else 31 - Z.log2 n.

(** [ilog2] takes a [uint32_t]: the argument is reduced modulo 2^32. *)
Definition ilog2 (n : Z) : Z := 32 - builtin_clz (n mod 2 ^ 32) - 1.

Definition xs_allocate (h : heap) (x : xs) (len : Z) : result (heap * xs) :=
  let x := set_capacity_field x (ilog2 len + 1) in
  '(h, x) ← xs_free h x;
  if len >=? LARGE_STRING_LEN then
    let x := set_is_large_string x true in
    let '(h, p) := malloc h ((2 ^ capacity_field x + 4) mod 2 ^ 64) in
    let x := set_ptr x p in
    let x := set_is_ptr x true in
    h ← xs_set_refcnt h x 1;
    Ok (h, x)
  else if len >? STACK_SIZE then
    let '(h, p) := malloc h (2 ^ capacity_field x) in
    let x := set_ptr x p in
    let x := set_is_ptr x true in
    Ok (h, x)
  else Ok (h, x).

Definition xs_new (h : heap) (x : xs) (p : list Z) : result (heap * xs) :=
  let len := strlen p in
  '(h, x) ← xs_allocate h x len;
  '(h, x) ← store h x (xs_data x) (cstr_bytes p (len + 1));
  Ok (h, xs_set_size x len).

(** [xs_tmp(lit)]: the static assertion on [sizeof(lit)] is checked when
    the program is compiled; [None] is a program that does not compile. *)
Definition xs_tmp (h : heap) (lit : list Z) : option (result (heap * xs)) :=
  if Z.of_nat (length lit) + 1 <=? MAX_STR_LEN
  then Some (xs_new h xs_literal_empty lit)
  else None.

Definition xs_grow (h : heap) (x : xs) (len : Z) : result (heap * xs) :=
  if len <=? xs_capacity x then Ok (h, x)
  else
    (* [buf] is the copy of the cell made before it is overwritten *)
    let buf := x in
    let backup := if xs_is_ptr x then xs_data x else InCell 0 in
    let f := if xs_is_ptr x then xs_ptr x else 0 in
    let x := if xs_is_ptr x then set_is_ptr x false else x in
    '(h, x) ← xs_allocate h x len;
    '(h, x) ← memcpy h x (xs_data x) buf backup (xs_size x);
    h ← (if f =? 0 then Ok h else free h f);
    Ok (h, x).

(** [xs_cpy(dest, src)] for two distinct cells; [src]'s cell is not written. *)
Definition xs_cpy (h : heap) (dest src : xs) : result (heap * xs) :=
  '(h, _) ← xs_free h dest;
  let dest := src in
  let len := xs_size src in
  if len >=? LARGE_STRING_LEN then
    h ← xs_inc_refcnt h src;
    Ok (h, dest)
  else if len >? STACK_SIZE then
    let dest := set_is_ptr dest false in
    '(h, dest) ← xs_allocate h dest len;
    '(h, dest) ← memcpy h dest (xs_data dest) src (xs_data src) (len + 1);
    Ok (h, dest)
  else Ok (h, dest).

Definition xs_cow_lazy_copy (h : heap) (x : xs) : result (heap * xs * bool) :=
  c ← xs_get_refcnt h x;
  if c <=? 1 then Ok (h, x, false)
  else
    let data := xs_data x in
    '(h, _) ← xs_dec_refcnt h x;
    let x := set_is_ptr x false in
    '(h, x) ← xs_allocate h x (xs_size x);
    '(h, x) ← memcpy h x (xs_data x) x data (size_field x + 1);
    Ok (h, x, true).

(** [xs_concat(string, prefix, suffix)] for three distinct cells. *)
Definition xs_concat (h : heap) (string prefix suffix : xs)
  : result (heap * xs) :=
  let pres := xs_size prefix in
  let sufs := xs_size suffix in
  let size := xs_size string in
  let capacity := xs_capacity string in
  '(h, string, _) ← xs_cow_lazy_copy h string;
  let pre := xs_data prefix in
  let suf := xs_data suffix in
  let data := xs_data string in
  if size + pres + sufs <=? capacity then
    '(h, string) ← memmove h string (padd data pres) string data size;
    '(h, string) ← memcpy h string data prefix pre pres;
    '(h, string) ← memcpy h string (padd data (pres + size)) suffix suf (sufs + 1);
    if xs_is_ptr string
    then Ok (h, set_size_field string (size + pres + sufs))
    else Ok (h, set_space_left string (15 - (size + pres + sufs)))
  else
    let tmps := xs_literal_empty in
    '(h, tmps) ← xs_grow h tmps (size + pres + sufs);
    let tmpdata := xs_data tmps in
    '(h, tmps) ← memcpy h tmps (padd tmpdata pres) string data size;
    '(h, tmps) ← memcpy h tmps tmpdata prefix pre pres;
    '(h, tmps) ← memcpy h tmps (padd tmpdata (pres + size)) suffix suf (sufs + 1);
    '(h, _) ← xs_free h string;
    Ok (h, set_size_field tmps (size + pres + sufs)).

Definition xs_trim (h : heap) (x : xs) (trimset : list Z)
  : result (heap * xs) :=
  if cstr_is_empty trimset then Ok (h, x)
  else
    '(h, x, _) ← xs_cow_lazy_copy h x;
    let orig := xs_data x in
    let mask := build_mask trimset in
    let slen := xs_size x in
    i ← scan_fwd h x mask orig 0 (Z.to_nat slen);
    slen ← scan_bwd h x mask orig (Z.to_nat slen);
    let dataptr := padd orig i in
    let slen := (slen - i) mod 2 ^ 64 in
    '(h, x) ← memmove h x orig x dataptr slen;
    b ← load1 h x (padd orig slen);
    '(h, x) ← (if b =? 0 then Ok (h, x) else store1 h x (padd orig slen) 0);
    Ok (h, xs_set_size x slen).

End Code.

(** ** Derived descriptions used in the statements *)

(** The cell [xs_allocate] builds around a block at [p]: the empty literal
    with the pointer stored, [is_ptr] set and [is_large_string] as given. *)
Definition fresh_cell (p : Z) (large : bool) : xs :=
  set_is_ptr
    (set_ptr (if large then set_is_large_string xs_literal_empty true
              else xs_literal_empty) p) true.

(** Every live block lies inside the 64-bit address space. *)
Definition heap_ok (h : heap) : Prop :=
  Forall (fun b => b.1 + b.2 < 2 ^ 64) (live h).

(** The copy-on-write check finds nothing to copy. *)
Definition unshared (h : heap) (x : xs) : Prop :=
  exists c, xs_get_refcnt h x = Ok c /\ c <= 1.

(** An inline value carries no [is_large_string] flag. *)
Definition flags_ok (x : xs) : Prop :=
  xs_is_ptr x = false -> xs_is_large_string x = false.

(** A pointer that, when it points into the cell, stays inside its 16 bytes. *)
Definition valid_ptr (p : cptr) : Prop :=
  match p with
  | InCell o => 0 <= o < 16
  | InHeap _ => True
  end.

#[global] Instance cptr_eq_dec : EqDecision cptr.
Proof. solve_decision. Defined.

(** The byte at [p] in a state (heap and cell). *)
Definition get_at (s : heap * xs) (p : cptr) : Z := get1 s.1 s.2 p.

(** The state a run of [xs_trim] leaves behind, seen from the next call:
    [xs_size] bytes in range at [xs_data], a zero after them, and, when
    there are any, a first and a last byte outside the set of [mask]. *)
Definition trimmed_state (h : heap) (x : xs) (mask : list Z) : Prop :=
  let n := xs_size x in
  let orig := xs_data x in
  length (filler x) = 15%nat
  /\ 0 <= n < 2 ^ 54
  /\ (n = 0 \/ ok_range h orig n = true)
  /\ ok_range h (padd orig n) 1 = true
  /\ get1 h x (padd orig n) = 0
  /\ (0 < n ->
      check_bit mask (get1 h x orig) = false
      /\ check_bit mask (get1 h x (padd orig (n - 1))) = false).

(** ** Vocabulary of the further properties *)

(** Every live block ends at or below the address [malloc] hands out
    next. *)
Definition blocks_below_brk (h : heap) : Prop :=
  Forall (fun b => b.1 + b.2 <= brk h) (live h).

(** No live block holds address 0, the [NULL] that [malloc] returns when
    it has no room. *)
Definition null_unmapped (h : heap) : Prop :=
  Forall (fun b => 0 < b.1) (live h).

(** The bytes of a C string argument before its terminator. *)
Definition cstr_content (p : list Z) : list Z := take (Z.to_nat (strlen p)) p.

(** [b], as a [uint8_t], is one of the bytes of the trim set. *)
Definition in_set (trimset : list Z) (b : Z) : bool :=
  existsb (fun c => c mod 256 =? b mod 256) (cstr_content trimset).

(** A list without its leading elements that satisfy [f]. *)
Fixpoint lstrip (f : Z -> bool) (l : list Z) : list Z :=
  match l with
  | [] => []
  | b :: l' => if f b then lstrip f l' else l
  end.

(** A list without its trailing elements that satisfy [f]. *)
Definition rstrip (f : Z -> bool) (l : list Z) : list Z :=
  reverse (lstrip f (reverse l)).

Definition strip (f : Z -> bool) (l : list Z) : list Z :=
  rstrip f (lstrip f l).

(** ** Initial heaps and sample values *)

(** An address space of 2^62 bytes: room for the 2^60-byte blocks that
    [xs_allocate] asks for. *)
Definition heap0 : heap := Heap ∅ [] 4096 (2 ^ 62).

(** An address space of 2^47 bytes. *)
Definition heap47 : heap := Heap ∅ [] 4096 (2 ^ 47).

(** An address space too small for any block [xs_allocate] asks for. *)
Definition heap32 : heap := Heap ∅ [] 4096 (2 ^ 32).

(** A heap with one block for a large string, its count set to [c], and
    the cell that points at it. *)
Definition heap_counted (c : Z) : heap :=
  Heap (<[4096 := c]> ∅) [(4096, 2 ^ 60 + 4)] (4096 + (2 ^ 60 + 4)) (2 ^ 62).

Definition large_cell : xs := fresh_cell 4096 true.

(** A heap with one block for a medium string that holds the bytes [bs],
    and the cell of length [n] that points at it. *)
Definition heap_medium (bs : list Z) : heap :=
  (store_bytes (Heap ∅ [(4096, 2 ^ 60)] (4096 + 2 ^ 60) (2 ^ 62),
                xs_literal_empty) (InHeap 4096) bs).1.

Definition medium_cell (n : Z) : xs := xs_set_size (fresh_cell 4096 false) n.

(** [n] spaces followed by the literal [s]. *)
Definition padded (n : nat) (s : string) : list Z := replicate n 32 ++ lit s.

(** A string of [n] bytes ['a']. *)
Definition many (n : Z) : list Z := replicate (Z.to_nat n) 97.

(** Two values sharing one buffer: [x] built from [p], [y] copied from it. *)
Definition shared_pair (clz0 : Z) (p : list Z) : result (heap * xs * xs) :=
  '(h, x) ← xs_new clz0 heap0 xs_literal_empty p;
  '(h, y) ← xs_cpy clz0 h xs_literal_empty x;
  Ok (h, x, y).

(** A value built from [p] and then trimmed. *)
Definition trimmed (clz0 : Z) (p trimset : list Z) : result (heap * xs) :=
  '(h, x) ← xs_new clz0 heap0 xs_literal_empty p;
  xs_trim clz0 h x trimset.

(** The run of [main]: the literal is trimmed, then wrapped in brackets.
    Observed: content and length after [xs_trim] and after [xs_concat]. *)
Definition main_run (clz0 : Z) : option (result (list Z * Z * list Z * Z)) :=
  r ← xs_tmp clz0 heap47 (10 :: lit " foobarbar " ++ [10; 10; 10]);
  rp ← xs_tmp clz0 heap47 (lit "(((");
  rs ← xs_tmp clz0 heap47 (lit ")))");
  Some ('(h, string) ← r;
        '(h, string) ← xs_trim clz0 h string [10; 32];
        c1 ← xs_content h string;
        '(_, prefix) ← rp;
        '(_, suffix) ← rs;
        '(h, string') ← xs_concat clz0 h string prefix suffix;
        c2 ← xs_content h string';
        Ok (c1, xs_size string, c2, xs_size string')).

(** *** Observed runs *)

(** What is left of a result once the heap is dropped. *)
Definition cell_of (r : result (heap * xs)) : result xs :=
  '(_, x) ← r; Ok x.

(** A 300-byte value is copied, then the copy is concatenated with an empty
    prefix and an empty suffix.  Observed: the count and the length and
    content of the copy before the call, the copy after the copy-on-write
    step alone (with its length), and the outcome of [xs_concat]. *)
Definition shared_concat (clz0 : Z)
  : result (Z * Z * list Z * result (xs * Z * bool) * result xs) :=
  '(h, x, y) ← shared_pair clz0 (many 300);
  c ← xs_get_refcnt h y;
  cy ← xs_content h y;
  Ok (c, xs_size y, cy,
      ('(_, y', b) ← xs_cow_lazy_copy clz0 h y; Ok (y', xs_size y', b)),
      cell_of (xs_concat clz0 h y xs_literal_empty xs_literal_empty)).

(** The 10-byte inline value "0123456789" is concatenated with the prefix
    "abc" and the suffix "def" (16 bytes in all), in the heap [h].
    Observed: content and length of the result. *)
Definition concat_to_16 (clz0 : Z) (h : heap) : result (list Z * Z) :=
  '(h, t) ← xs_new clz0 h xs_literal_empty (lit "0123456789");
  '(h, p) ← xs_new clz0 h xs_literal_empty (lit "abc");
  '(h, s) ← xs_new clz0 h xs_literal_empty (lit "def");
  '(h, t') ← xs_concat clz0 h t p s;
  c ← xs_content h t';
  Ok (c, xs_size t').

(** A large value is trimmed with the set " " and then copied.  Observed:
    the flag and length of the source, its count before and after the copy,
    whether the copy's pointer field equals the source's, the number of live
    blocks, and the content of source and copy. *)
Definition copy_of_trimmed (clz0 : Z) (p : list Z)
  : result (bool * Z * Z * Z * bool * nat * list Z * list Z) :=
  '(h, x) ← trimmed clz0 p (lit " ");
  c0 ← xs_get_refcnt h x;
  '(h', y) ← xs_cpy clz0 h xs_literal_empty x;
  c1 ← xs_get_refcnt h' x;
  cx ← xs_content h' x;
  cy ← xs_content h' y;
  Ok (xs_is_large_string x, xs_size x, c0, c1, xs_ptr y =? xs_ptr x,
      length (live h'), cx, cy).

(** A 300-byte value is copied and the copy is trimmed with the set "b".
    Observed: the capacity of the copy before and after, its length and
    content after, and the content of the other value after. *)
Definition shared_trim (clz0 : Z)
  : result (Z * Z * Z * list Z * list Z) :=
  '(h, x, y) ← shared_pair clz0 (many 300);
  '(h', y') ← xs_trim clz0 h y (lit "b");
  cy ← xs_content h' y';
  cx ← xs_content h' x;
  Ok (xs_capacity y, xs_capacity y', xs_size y', cy, cx).

(** The copy [y] of a 16-byte medium value is used as the suffix of a
    15-byte inline value [t], with an empty prefix.  Observed: length and
    capacity of [y] and of [t] before, and of [t] after. *)
Definition concat_copy_suffix (clz0 : Z)
  : result (Z * Z * Z * Z * Z * Z) :=
  '(h, x) ← xs_new clz0 heap0 xs_literal_empty (lit "0000000000000000");
  '(h, y) ← xs_cpy clz0 h xs_literal_empty x;
  '(h, t) ← xs_new clz0 h xs_literal_empty (lit "aaaaaaaaaaaaaaa");
  '(h', t') ← xs_concat clz0 h t xs_literal_empty y;
  Ok (xs_size y, xs_capacity y, xs_size t, xs_capacity t,
      xs_size t', xs_capacity t').

(* ================================================================= *)
(** * Lemmas *)

(** ** Algebra of the bit-fields *)

Ltac list15 x :=
  let f := fresh "f" in
  let t := fresh "t" in
  let Hl := fresh "Hl" in
  let Hb := fresh "Hb" in
  let Ht := fresh "Ht" in
  destruct x as [f t];
  match goal with H : xs_wf _ |- _ => destruct H as (Hl & Hb & Ht) end;
  cbn [filler tag] in *;
  do 15 (destruct f as [|? f]; [discriminate Hl|]);
  (destruct f; [|discriminate Hl]).

Ltac divmod := Z.div_mod_to_equations; lia.

Ltac eqb_bool :=
  match goal with
  | |- (?a =? ?b) = true => apply Z.eqb_eq
  | |- (?a =? ?b) = false => apply Z.eqb_neq
  | |- (?a =? ?b) = (?c =? ?d) =>
      destruct (Z.eqb_spec c d); [apply Z.eqb_eq | apply Z.eqb_neq]
  end.

Lemma is_ptr_set_is_ptr x b : xs_is_ptr (set_is_ptr x b) = b.
Proof.
  unfold xs_is_ptr, set_is_ptr, bit; cbn [tag].
  destruct b; eqb_bool; divmod.
Qed.

Lemma is_large_set_is_ptr x b :
  xs_is_large_string (set_is_ptr x b) = xs_is_large_string x.
Proof.
  unfold xs_is_large_string, set_is_ptr, bit; cbn [tag].
  destruct b; eqb_bool; divmod.
Qed.

Lemma space_left_set_is_ptr x b : space_left (set_is_ptr x b) = space_left x.
Proof.
  unfold space_left, set_is_ptr, bit; cbn [tag]. destruct b; divmod.
Qed.

Lemma is_ptr_set_space_left x v : xs_is_ptr (set_space_left x v) = xs_is_ptr x.
Proof.
  unfold xs_is_ptr, set_space_left; cbn [tag]. eqb_bool; divmod.
Qed.

Lemma is_large_set_space_left x v :
  xs_is_large_string (set_space_left x v) = xs_is_large_string x.
Proof.
  unfold xs_is_large_string, set_space_left; cbn [tag]. eqb_bool; divmod.
Qed.

Lemma space_left_set_space_left x v : space_left (set_space_left x v) = v mod 16.
Proof. unfold space_left, set_space_left; cbn [tag]. divmod. Qed.

Lemma is_ptr_set_capacity_field x c :
  xs_is_ptr (set_capacity_field x c) = xs_is_ptr x.
Proof.
  unfold xs_is_ptr, set_capacity_field; cbn [tag]. eqb_bool; divmod.
Qed.

Lemma is_large_set_capacity_field x c :
  xs_is_large_string (set_capacity_field x c) = xs_is_large_string x.
Proof.
  unfold xs_is_large_string, set_capacity_field; cbn [tag]. eqb_bool; divmod.
Qed.

Lemma is_ptr_set_size_field x s : xs_is_ptr (set_size_field x s) = xs_is_ptr x.
Proof. reflexivity. Qed.

Lemma is_large_set_size_field x s :
  xs_is_large_string (set_size_field x s) = xs_is_large_string x.
Proof. reflexivity. Qed.

Ltac len15 x H :=
  let f := fresh "f" in
  let t := fresh "t" in
  destruct x as [f t]; cbn [filler tag] in *;
  do 15 (destruct f as [|? f]; [discriminate H|]);
  (destruct f; [|discriminate H]).

Lemma xs_ptr_set_size_field x s :
  length (filler x) = 15%nat -> xs_ptr (set_size_field x s) = xs_ptr x.
Proof. intros H. len15 x H. reflexivity. Qed.

Lemma capacity_field_set_size_field x s :
  length (filler x) = 15%nat ->
  capacity_field (set_size_field x s) = capacity_field x.
Proof.
  intros H. len15 x H. unfold capacity_field, set_size_field, byte14.
  cbn -[Z.pow Z.div Z.modulo Z.mul Z.add]. divmod.
Qed.

Lemma size_field_set_size_field x s :
  length (filler x) = 15%nat -> size_field (set_size_field x s) = s mod 2 ^ 54.
Proof.
  intros H. len15 x H. unfold size_field, set_size_field, byte14.
  cbn -[Z.pow Z.div Z.modulo]. divmod.
Qed.

Lemma length_filler_set_size_field x s :
  length (filler x) = 15%nat -> length (filler (set_size_field x s)) = 15%nat.
Proof. intros H. len15 x H. reflexivity. Qed.

Lemma size_field_bound x : xs_wf x -> 0 <= size_field x < 2 ^ 54.
Proof.
  intros H. list15 x. unfold size_field, byte14.
  repeat match goal with
         | H : Forall _ (_ :: _) |- _ =>
             apply Forall_cons in H; destruct H as [? H]
         end.
  unfold is_byte in *. cbn -[Z.pow Z.div Z.modulo]. divmod.
Qed.

Lemma xs_ptr_nonneg x : xs_wf x -> 0 <= xs_ptr x.
Proof.
  intros H. list15 x. unfold xs_ptr.
  repeat match goal with
         | H : Forall _ (_ :: _) |- _ =>
             apply Forall_cons in H; destruct H as [? H]
         end.
  unfold is_byte in *. cbn -[Z.pow Z.div Z.modulo]. lia.
Qed.

Lemma space_left_range x : 0 <= space_left x < 16.
Proof. unfold space_left. divmod. Qed.

Lemma xs_size_inline_range x : xs_is_ptr x = false -> 0 <= xs_size x <= 15.
Proof.
  intros H. unfold xs_size, STACK_SIZE. rewrite H.
  pose proof (space_left_range x). lia.
Qed.

Lemma xs_size_range x : xs_wf x -> 0 <= xs_size x < 2 ^ 54.
Proof.
  intros H. destruct (xs_is_ptr x) eqn:E.
  - unfold xs_size. rewrite E. now apply size_field_bound.
  - pose proof (xs_size_inline_range x E). lia.
Qed.

Lemma xs_wf_set_size_field x s : xs_wf x -> xs_wf (set_size_field x s).
Proof.
  intros H. list15 x. unfold xs_wf, set_size_field, byte14.
  cbn -[Z.pow Z.div Z.modulo Z.mul Z.add].
  repeat match goal with
         | H : Forall _ (_ :: _) |- _ =>
             apply Forall_cons in H; destruct H as [? H]
         end.
  split; [reflexivity|]. split; [|assumption].
  repeat (apply Forall_cons; split); try assumption; try apply Forall_nil_2;
    unfold is_byte; divmod.
Qed.

Lemma xs_wf_set_space_left x v : xs_wf x -> xs_wf (set_space_left x v).
Proof.
  intros (Hl & Hb & Ht). unfold xs_wf, set_space_left; cbn [filler tag].
  repeat split; try assumption; unfold is_byte in *; divmod.
Qed.

Lemma xs_wf_literal_empty : xs_wf xs_literal_empty.
Proof.
  unfold xs_wf, xs_literal_empty; cbn.
  split; [reflexivity|]. split; [|unfold is_byte; lia].
  repeat (apply Forall_cons; split; [unfold is_byte; lia|]). apply Forall_nil_2.
Qed.

(** ** [xs_free] and [xs_allocate] *)

Lemma xs_free_cell h x h' x' :
  xs_free h x = Ok (h', x') -> x' = xs_literal_empty.
Proof.
  unfold xs_free. destruct (xs_is_ptr x).
  - destruct (xs_dec_refcnt h x) as [[h1 c]|]; cbn; [|discriminate].
    destruct (if c <=? 0 then free h1 (xs_ptr x) else Ok h1); cbn;
      intros [= _ <-]; reflexivity.
  - intros [= _ <-]; reflexivity.
Qed.

Lemma xs_free_not_ptr h x :
  xs_is_ptr x = false -> xs_free h x = Ok (h, xs_literal_empty).
Proof. intros H. unfold xs_free. rewrite H. reflexivity. Qed.

Lemma xs_ptr_fresh_cell p b : xs_ptr (fresh_cell p b) = p mod 2 ^ 64.
Proof.
  unfold xs_ptr, fresh_cell. destruct b; cbn -[Z.pow Z.div Z.modulo]; divmod.
Qed.

Lemma fresh_cell_fields p b :
  xs_is_ptr (fresh_cell p b) = true
  /\ xs_is_large_string (fresh_cell p b) = b
  /\ capacity_field (fresh_cell p b) = 60
  /\ size_field (fresh_cell p b) = 0
  /\ length (filler (fresh_cell p b)) = 15%nat.
Proof. destruct b; repeat split; reflexivity. Qed.

(** What [xs_allocate] does to a value that is not heap-backed: the
    exponent it stores is gone after the reset, and both requests ask for
    2^60 bytes. *)
Lemma xs_allocate_not_ptr clz0 h x len :
  xs_is_ptr x = false ->
  xs_allocate clz0 h x len =
    if len >=? LARGE_STRING_LEN then
      let '(h1, p) := malloc h (2 ^ 60 + 4) in
      h2 ← write_int h1 (p mod 2 ^ 64) 1; Ok (h2, fresh_cell p true)
    else if len >? STACK_SIZE then
      let '(h1, p) := malloc h (2 ^ 60) in Ok (h1, fresh_cell p false)
    else Ok (h, xs_literal_empty).
Proof.
  intros H. unfold xs_allocate.
  rewrite xs_free_not_ptr by (now rewrite is_ptr_set_capacity_field).
  cbn [mbind result_bind].
  destruct (len >=? LARGE_STRING_LEN).
  - change ((2 ^ capacity_field (set_is_large_string xs_literal_empty true) + 4)
              mod 2 ^ 64) with (2 ^ 60 + 4).
    destruct (malloc h (2 ^ 60 + 4)) as [h1 p].
    unfold xs_set_refcnt.
    change (set_is_ptr (set_ptr (set_is_large_string xs_literal_empty true) p) true)
      with (fresh_cell p true).
    rewrite xs_ptr_fresh_cell. reflexivity.
  - destruct (len >? STACK_SIZE); [|reflexivity].
    change (2 ^ capacity_field xs_literal_empty) with (2 ^ 60).
    destruct (malloc h (2 ^ 60)) as [h1 p]. reflexivity.
Qed.

(** ** C strings and the reference-count cell *)

Lemma strlen_replicate n b : b <> 0 -> strlen (replicate n b) = Z.of_nat n.
Proof.
  intros Hb. induction n as [|n IH]; [reflexivity|].
  cbn [replicate strlen]. destruct (Z.eqb_spec b 0); [contradiction|].
  rewrite IH. lia.
Qed.

Lemma strlen_many n : 0 <= n -> strlen (many n) = n.
Proof. intros H. unfold many. rewrite strlen_replicate by lia. lia. Qed.

Lemma length_cstr_bytes p n : length (cstr_bytes p n) = Z.to_nat n.
Proof.
  unfold cstr_bytes. rewrite length_take, length_app, length_replicate. lia.
Qed.

Lemma write_int_live h a v h' : write_int h a v = Ok h' -> live h' = live h.
Proof.
  unfold write_int. destruct (in_live h a 4); [|discriminate].
  intros [= <-]. reflexivity.
Qed.

Lemma write_int_ok h a v :
  in_live h a 4 = true -> exists h', write_int h a v = Ok h'.
Proof. intros H. unfold write_int. rewrite H. eauto. Qed.

Lemma in_block_head a n b sz : b <= a -> 0 <= n -> a + n <= b + sz ->
  in_block a n (b, sz) = true.
Proof.
  intros. unfold in_block; cbn. apply andb_true_iff. split; apply Z.leb_le; lia.
Qed.

(** ** The value of [__builtin_clz(0)] never matters *)

Lemma bind_ext {A B} (m : result A) (f g : A -> result B) :
  (forall a, f a = g a) -> m ≫= f = m ≫= g.
Proof. intros H. destruct m; cbn; [apply H | reflexivity]. Qed.

Lemma xs_allocate_clz c c' h x len :
  xs_is_ptr x = false -> xs_allocate c h x len = xs_allocate c' h x len.
Proof. intros H. now rewrite !xs_allocate_not_ptr. Qed.

Lemma xs_ptr_set_capacity_field x c :
  length (filler x) = 15%nat -> xs_ptr (set_capacity_field x c) = xs_ptr x.
Proof. intros H. len15 x H. reflexivity. Qed.

Lemma xs_free_set_capacity_field h x c :
  length (filler x) = 15%nat -> xs_free h (set_capacity_field x c) = xs_free h x.
Proof.
  intros H. unfold xs_free, xs_dec_refcnt.
  now rewrite is_ptr_set_capacity_field, is_large_set_capacity_field,
    xs_ptr_set_capacity_field.
Qed.

(** Also for a heap-backed value: the exponent is overwritten before it is
    read. *)
Lemma xs_allocate_clz_cell c c' h x len :
  length (filler x) = 15%nat -> xs_allocate c h x len = xs_allocate c' h x len.
Proof.
  intros H. unfold xs_allocate. now rewrite !xs_free_set_capacity_field.
Qed.

Lemma xs_new_clz c c' h x p :
  xs_is_ptr x = false -> xs_new c h x p = xs_new c' h x p.
Proof. intros H. unfold xs_new. now rewrite (xs_allocate_clz c c'). Qed.

Lemma xs_grow_clz c c' h x len : xs_grow c h x len = xs_grow c' h x len.
Proof.
  unfold xs_grow. destruct (len <=? xs_capacity x); [reflexivity|].
  destruct (xs_is_ptr x) eqn:E.
  - now rewrite (xs_allocate_clz c c') by apply is_ptr_set_is_ptr.
  - now rewrite (xs_allocate_clz c c') by exact E.
Qed.

Lemma xs_cpy_clz c c' h dest src : xs_cpy c h dest src = xs_cpy c' h dest src.
Proof.
  unfold xs_cpy. apply bind_ext. intros [h1 ?].
  destruct (xs_size src >=? LARGE_STRING_LEN); [reflexivity|].
  destruct (xs_size src >? STACK_SIZE); [|reflexivity].
  now rewrite (xs_allocate_clz c c') by apply is_ptr_set_is_ptr.
Qed.

Lemma xs_cow_lazy_copy_clz c c' h x :
  xs_cow_lazy_copy c h x = xs_cow_lazy_copy c' h x.
Proof.
  unfold xs_cow_lazy_copy. apply bind_ext. intros n.
  destruct (n <=? 1); [reflexivity|]. apply bind_ext. intros [h1 ?].
  now rewrite (xs_allocate_clz c c') by apply is_ptr_set_is_ptr.
Qed.

Lemma xs_concat_clz c c' h s p q : xs_concat c h s p q = xs_concat c' h s p q.
Proof.
  unfold xs_concat. rewrite (xs_cow_lazy_copy_clz c c').
  apply bind_ext. intros [[h1 s1] ?].
  destruct (_ <=? _); [reflexivity|].
  now rewrite (xs_grow_clz c c').
Qed.

Lemma xs_trim_clz c c' h x set : xs_trim c h x set = xs_trim c' h x set.
Proof.
  unfold xs_trim. destruct (cstr_is_empty set); [reflexivity|].
  now rewrite (xs_cow_lazy_copy_clz c c').
Qed.

Ltac clz_step c c' :=
  first [ rewrite (xs_new_clz c c') by reflexivity
        | rewrite (xs_cpy_clz c c')
        | rewrite (xs_trim_clz c c')
        | rewrite (xs_concat_clz c c')
        | rewrite (xs_cow_lazy_copy_clz c c')
        | rewrite (xs_grow_clz c c') ].

Ltac clz_irrelevant c c' :=
  repeat (repeat clz_step c c';
          try (apply bind_ext; intros ?;
               repeat match goal with
                      | p : (_ * _)%type |- _ => destruct p
                      end));
  reflexivity.

Lemma shared_pair_clz c c' p : shared_pair c p = shared_pair c' p.
Proof. unfold shared_pair. clz_irrelevant c c'. Qed.

Lemma trimmed_clz c c' p set : trimmed c p set = trimmed c' p set.
Proof. unfold trimmed. clz_irrelevant c c'. Qed.

Lemma shared_concat_clz c c' : shared_concat c = shared_concat c'.
Proof.
  unfold shared_concat. rewrite (shared_pair_clz c c'). clz_irrelevant c c'.
Qed.

Lemma copy_of_trimmed_clz c c' p : copy_of_trimmed c p = copy_of_trimmed c' p.
Proof.
  unfold copy_of_trimmed. rewrite (trimmed_clz c c'). clz_irrelevant c c'.
Qed.

Lemma shared_trim_clz c c' : shared_trim c = shared_trim c'.
Proof.
  unfold shared_trim. rewrite (shared_pair_clz c c'). clz_irrelevant c c'.
Qed.

Lemma concat_to_16_clz c c' h : concat_to_16 c h = concat_to_16 c' h.
Proof. unfold concat_to_16. clz_irrelevant c c'. Qed.

Lemma concat_copy_suffix_clz c c' : concat_copy_suffix c = concat_copy_suffix c'.
Proof. unfold concat_copy_suffix. clz_irrelevant c c'. Qed.

(** ** Frame properties of stores *)

Lemma length_filler_cell_set x o v :
  length (filler (cell_set x o v)) = length (filler x).
Proof.
  unfold cell_set. destruct (o <? 15); cbn [filler]; [|reflexivity].
  apply length_insert.
Qed.

Lemma tag_cell_set x o v : o < 15 -> tag (cell_set x o v) = tag x.
Proof.
  intros H. unfold cell_set. destruct (Z.ltb_spec o 15); [reflexivity|lia].
Qed.

Lemma store_bytes_heap_cell s a bs : (store_bytes s (InHeap a) bs).2 = s.2.
Proof.
  revert s a. induction bs as [|b bs IH]; intros s a; [reflexivity|].
  cbn [store_bytes padd]. rewrite IH. reflexivity.
Qed.

Lemma store_bytes_live s p bs : live (store_bytes s p bs).1 = live s.1.
Proof.
  revert s p. induction bs as [|b bs IH]; intros s p; [reflexivity|].
  cbn [store_bytes]. rewrite IH. destruct p; reflexivity.
Qed.

Lemma store_bytes_cell_heap s o bs : (store_bytes s (InCell o) bs).1 = s.1.
Proof.
  revert s o. induction bs as [|b bs IH]; intros s o; [reflexivity|].
  cbn [store_bytes padd]. rewrite IH. reflexivity.
Qed.

Lemma store_bytes_length_filler s p bs :
  length (filler (store_bytes s p bs).2) = length (filler s.2).
Proof.
  revert s p. induction bs as [|b bs IH]; intros s p; [reflexivity|].
  cbn [store_bytes]. rewrite IH. destruct p; cbn; [|reflexivity].
  apply length_filler_cell_set.
Qed.

Lemma store_bytes_cell_tag s o bs :
  o + Z.of_nat (length bs) <= 15 ->
  tag (store_bytes s (InCell o) bs).2 = tag s.2.
Proof.
  revert s o. induction bs as [|b bs IH]; intros s o H; [reflexivity|].
  cbn [store_bytes padd]. cbn [length] in H. rewrite IH by lia.
  cbn. apply tag_cell_set. lia.
Qed.

Lemma store_live h x p bs h' x' :
  store h x p bs = Ok (h', x') -> live h' = live h.
Proof.
  unfold store. destruct (_ || _); [|discriminate]. intros [= E].
  pose proof (store_bytes_live (h, x) p bs) as L. now rewrite E in L.
Qed.

(** ** The scans of [xs_trim] *)

Lemma scan_fwd_bounds h x mask p n : forall i0 i,
  scan_fwd h x mask p i0 n = Ok i -> i0 <= i <= i0 + Z.of_nat n.
Proof.
  induction n as [|n IH]; intros i0 i; cbn [scan_fwd].
  - intros [= <-]. lia.
  - destruct (load1 h x (padd p i0)) as [b|]; cbn; [|discriminate].
    destruct (negb (check_bit mask b)).
    + intros [= <-]. lia.
    + intros H. apply IH in H. lia.
Qed.

Lemma scan_bwd_bounds h x mask p n : forall s,
  scan_bwd h x mask p n = Ok s -> 0 <= s <= Z.of_nat n.
Proof.
  induction n as [|n IH]; intros s; cbn [scan_bwd].
  - intros [= <-]. lia.
  - destruct (load1 h x (padd p (Z.of_nat n))) as [b|]; cbn; [|discriminate].
    destruct (negb (check_bit mask b)).
    + intros [= <-]. lia.
    + intros H. apply IH in H. lia.
Qed.

(** Where the forward scan stops before the end, the byte there is valid
    and outside the set. *)
Lemma scan_fwd_stop h x mask p n : forall i0 i,
  scan_fwd h x mask p i0 n = Ok i -> i < i0 + Z.of_nat n ->
  ok_range h (padd p i) 1 = true
  /\ check_bit mask (get1 h x (padd p i)) = false.
Proof.
  induction n as [|n IH]; intros i0 i; cbn [scan_fwd].
  - intros [= <-]. lia.
  - unfold load1 at 1.
    destruct (ok_range h (padd p i0) 1) eqn:Ho; cbn; [|discriminate].
    destruct (check_bit mask (get1 h x (padd p i0))) eqn:Hc; cbn.
    + intros H Hlt. apply (IH (i0 + 1) i H). lia.
    + intros [= <-] _. auto.
Qed.

Lemma scan_bwd_stop h x mask p n : forall s,
  scan_bwd h x mask p n = Ok s -> 0 < s ->
  ok_range h (padd p (s - 1)) 1 = true
  /\ check_bit mask (get1 h x (padd p (s - 1))) = false.
Proof.
  induction n as [|n IH]; intros s; cbn [scan_bwd].
  - intros [= <-]. lia.
  - unfold load1 at 1.
    destruct (ok_range h (padd p (Z.of_nat n)) 1) eqn:Ho; cbn; [|discriminate].
    destruct (check_bit mask (get1 h x (padd p (Z.of_nat n)))) eqn:Hc; cbn.
    + apply IH.
    + intros [= <-] _.
      replace (Z.of_nat (S n) - 1) with (Z.of_nat n) by lia. auto.
Qed.

(** ** Decomposing transfers *)

Lemma load_ok h x p n bs :
  load h x p n = Ok bs ->
  bs = load_bytes h x p (Z.to_nat n) /\ (n = 0 \/ ok_range h p n = true).
Proof.
  unfold load. destruct (Z.eqb_spec n 0) as [->|Hn]; cbn.
  - intros [= <-]. auto.
  - destruct (ok_range h p n); [|discriminate]. intros [= <-]. auto.
Qed.

Lemma store_ok h x p bs h' x' :
  store h x p bs = Ok (h', x') ->
  (h', x') = store_bytes (h, x) p bs
  /\ (bs = [] \/ ok_range h p (Z.of_nat (length bs)) = true).
Proof.
  unfold store. destruct (Z.eqb_spec (Z.of_nat (length bs)) 0) as [E|Hn]; cbn.
  - intros [= <-]. split; [reflexivity|]. left. destruct bs; [reflexivity|].
    cbn in E. lia.
  - destruct (ok_range h p _); [|discriminate]. intros [= <-]. auto.
Qed.

Lemma length_load_bytes h x p n : length (load_bytes h x p n) = n.
Proof. revert p. induction n as [|n IH]; intros p; cbn; [|rewrite IH]; reflexivity. Qed.

Lemma memcpy_ok h xd dst xsrc src n h' x' :
  memcpy h xd dst xsrc src n = Ok (h', x') ->
  (n = 0 \/ ok_range h src n = true)
  /\ store h xd dst (load_bytes h xsrc src (Z.to_nat n)) = Ok (h', x').
Proof.
  unfold memcpy. destruct (load h xsrc src n) as [bs|] eqn:El; cbn; [|discriminate].
  apply load_ok in El. destruct El as [-> Hr]. auto.
Qed.

Lemma xs_cow_lazy_copy_unshared clz0 h x :
  unshared h x -> xs_cow_lazy_copy clz0 h x = Ok (h, x, false).
Proof.
  intros (c & Hc & Hle). unfold xs_cow_lazy_copy. rewrite Hc. cbn.
  destruct (Z.leb_spec c 1); [reflexivity|lia].
Qed.

(** The steps of a run of [xs_trim] that returns. *)
Lemma xs_trim_ok clz0 h x set h' x' :
  cstr_is_empty set = false ->
  xs_trim clz0 h x set = Ok (h', x') ->
  exists h0 x0 b0 i s h1 x1 bt h2 x2,
    xs_cow_lazy_copy clz0 h x = Ok (h0, x0, b0)
    /\ scan_fwd h0 x0 (build_mask set) (xs_data x0) 0 (Z.to_nat (xs_size x0)) = Ok i
    /\ scan_bwd h0 x0 (build_mask set) (xs_data x0) (Z.to_nat (xs_size x0)) = Ok s
    /\ memmove h0 x0 (xs_data x0) x0 (padd (xs_data x0) i) ((s - i) mod 2 ^ 64)
       = Ok (h1, x1)
    /\ load1 h1 x1 (padd (xs_data x0) ((s - i) mod 2 ^ 64)) = Ok bt
    /\ (if bt =? 0 then Ok (h1, x1)
        else store1 h1 x1 (padd (xs_data x0) ((s - i) mod 2 ^ 64)) 0) = Ok (h2, x2)
    /\ h' = h2 /\ x' = xs_set_size x2 ((s - i) mod 2 ^ 64).
Proof.
  intros He. unfold xs_trim. rewrite He.
  destruct (xs_cow_lazy_copy clz0 h x) as [[[h0 x0] b0]|]; cbn [mbind result_bind];
    [|discriminate].
  destruct (scan_fwd _ _ _ _ _ _) as [i|] eqn:Ei; cbn [mbind result_bind];
    [|discriminate].
  destruct (scan_bwd _ _ _ _ _) as [s|] eqn:Es; cbn [mbind result_bind];
    [|discriminate].
  destruct (memmove _ _ _ _ _ _) as [[h1 x1]|] eqn:Em; cbn [mbind result_bind];
    [|discriminate].
  destruct (load1 _ _ _) as [bt|] eqn:Eb; cbn [mbind result_bind];
    [|discriminate].
  destruct (if bt =? 0 then _ else _) as [[h2 x2]|] eqn:Et; cbn [mbind result_bind];
    [|discriminate].
  intros [= <- <-]. exists h0, x0, b0, i, s, h1, x1, bt, h2, x2.
  repeat split; assumption.
Qed.

Lemma xs_data_heap x :
  xs_is_ptr x = true ->
  xs_data x = InHeap (xs_ptr x + if xs_is_large_string x then 4 else 0).
Proof.
  intros H. unfold xs_data. rewrite H. cbn.
  destruct (xs_is_large_string x); [reflexivity|]. now rewrite Z.add_0_r.
Qed.

Lemma xs_data_inline x : xs_is_ptr x = false -> xs_data x = InCell 0.
Proof. intros H. unfold xs_data. now rewrite H. Qed.

Lemma store1_ok h x p v h' x' :
  store1 h x p v = Ok (h', x') ->
  ok_range h p 1 = true /\ (h', x') = set1 (h, x) p v.
Proof.
  unfold store1. destruct (ok_range h p 1); [|discriminate].
  intros [= <-]. auto.
Qed.

Lemma load1_ok h x p b :
  load1 h x p = Ok b -> ok_range h p 1 = true /\ b = get1 h x p.
Proof.
  unfold load1. destruct (ok_range h p 1); [|discriminate].
  intros [= <-]. auto.
Qed.

Lemma is_ptr_cell_set_zero x o :
  xs_is_ptr x = false -> xs_is_ptr (cell_set x o 0) = false.
Proof.
  intros H. unfold cell_set. destruct (o <? 15); [exact H|reflexivity].
Qed.

(** What the body of [xs_trim] (after the copy-on-write step) does to the
    cell and to the table of live blocks. *)
Lemma xs_trim_body_frame h0 x0 mask i s h1 x1 bt h2 x2 :
  let n := (s - i) mod 2 ^ 64 in
  scan_fwd h0 x0 mask (xs_data x0) 0 (Z.to_nat (xs_size x0)) = Ok i ->
  scan_bwd h0 x0 mask (xs_data x0) (Z.to_nat (xs_size x0)) = Ok s ->
  memmove h0 x0 (xs_data x0) x0 (padd (xs_data x0) i) n = Ok (h1, x1) ->
  load1 h1 x1 (padd (xs_data x0) n) = Ok bt ->
  (if bt =? 0 then Ok (h1, x1) else store1 h1 x1 (padd (xs_data x0) n) 0)
  = Ok (h2, x2) ->
  live h2 = live h0
  /\ (xs_is_ptr x0 = true -> x2 = x0)
  /\ (xs_is_ptr x0 = false ->
      h2 = h0 /\ n <= 15 /\ xs_is_ptr x2 = false
      /\ length (filler x2) = length (filler x0)).
Proof.
  intros n Hi Hs Hm Hb Ht.
  apply memcpy_ok in Hm. destruct Hm as [Hr Hst].
  pose proof (store_live _ _ _ _ _ _ Hst) as Hl1.
  apply store_ok in Hst. destruct Hst as [Hst _].
  assert (Hterm : (h2, x2) = (h1, x1)
                  \/ (h2, x2) = set1 (h1, x1) (padd (xs_data x0) n) 0).
  { destruct (bt =? 0); [left; congruence|right].
    apply store1_ok in Ht. tauto. }
  split; [|split].
  - destruct Hterm as [[= -> ->]|E]; [exact Hl1|].
    destruct (padd (xs_data x0) n); cbn in E; injection E as -> ->;
      cbn; exact Hl1.
  - intros Hp. rewrite (xs_data_heap _ Hp) in *. cbn [padd] in *.
    assert (x1 = x0).
    { pose proof (store_bytes_heap_cell (h0, x0)
                    (xs_ptr x0 + (if xs_is_large_string x0 then 4 else 0))
                    (load_bytes h0 x0
                       (InHeap (xs_ptr x0 + (if xs_is_large_string x0 then 4 else 0) + i))
                       (Z.to_nat n))) as E.
      rewrite <- Hst in E. exact E. }
    subst x1. destruct Hterm as [[= -> ->]|E]; [reflexivity|].
    cbn in E. now injection E as -> ->.
  - intros Hp. rewrite (xs_data_inline _ Hp) in *. cbn [padd] in *.
    pose proof (xs_size_inline_range x0 Hp) as Hsz.
    apply scan_fwd_bounds in Hi. apply scan_bwd_bounds in Hs.
    rewrite Z2Nat.id in Hi, Hs by lia.
    assert (Hn0 : 0 <= n) by (subst n; divmod).
    assert (Hn : n <= 15).
    { destruct Hr as [Hr|Hr]; [lia|]. cbn in Hr.
      apply andb_true_iff in Hr. destruct Hr as [_ Hr].
      apply Z.leb_le in Hr.
      destruct (Z.eq_dec i 0) as [->|]; [|lia].
      subst n. rewrite Z.sub_0_r, Z.mod_small in * by lia. lia. }
    assert (Hh : h1 = h0).
    { pose proof (store_bytes_cell_heap (h0, x0) 0
                    (load_bytes h0 x0 (InCell (0 + i)) (Z.to_nat n))) as E.
      rewrite <- Hst in E. exact E. }
    assert (Ht1 : tag x1 = tag x0).
    { pose proof (store_bytes_cell_tag (h0, x0) 0
                    (load_bytes h0 x0 (InCell (0 + i)) (Z.to_nat n))) as E.
      rewrite <- Hst in E. apply E. rewrite length_load_bytes. lia. }
    assert (Hl : length (filler x1) = length (filler x0)).
    { pose proof (store_bytes_length_filler (h0, x0) (InCell 0)
                    (load_bytes h0 x0 (InCell (0 + i)) (Z.to_nat n))) as E.
      rewrite <- Hst in E. exact E. }
    assert (Hp1 : xs_is_ptr x1 = false).
    { unfold xs_is_ptr in *. now rewrite Ht1. }
    destruct Hterm as [[= -> ->]|E]; [auto|].
    cbn in E. injection E as -> ->.
    repeat split; try assumption.
    + now apply is_ptr_cell_set_zero.
    + now rewrite length_filler_cell_set.
Qed.

(** ** Bytes after a store *)

Lemma padd_padd p a b : padd (padd p a) b = padd p (a + b).
Proof. destruct p; cbn; f_equal; lia. Qed.

Lemma padd_0 p : padd p 0 = p.
Proof. destruct p; cbn; f_equal; lia. Qed.

Lemma padd_inj p a b : padd p a = padd p b -> a = b.
Proof. destruct p; cbn; intros [= E]; lia. Qed.

Lemma cell_get_set_same x o v :
  length (filler x) = 15%nat -> 0 <= o < 16 -> cell_get (cell_set x o v) o = v.
Proof.
  intros Hl Ho. unfold cell_get, cell_set.
  destruct (Z.ltb_spec o 15); cbn [filler tag]; [|reflexivity].
  apply nth_lookup_Some with (d := 0). apply list_lookup_insert_eq. lia.
Qed.

Lemma cell_get_set_other x o j v :
  0 <= o < 16 -> 0 <= j < 16 -> o <> j ->
  cell_get (cell_set x o v) j = cell_get x j.
Proof.
  intros Ho Hj Hne. unfold cell_get, cell_set.
  destruct (Z.ltb_spec o 15), (Z.ltb_spec j 15); cbn [filler tag];
    try reflexivity; try lia.
  rewrite !nth_lookup. now rewrite list_lookup_insert_ne by lia.
Qed.

Lemma mem_get_set_same h a v : mem_get (mem_set h a v) a = v.
Proof. unfold mem_get, mem_set; cbn. now rewrite lookup_insert_eq. Qed.

Lemma mem_get_set_other h a b v : a <> b -> mem_get (mem_set h a v) b = mem_get h b.
Proof. intros H. unfold mem_get, mem_set; cbn. now rewrite lookup_insert_ne. Qed.

Lemma get_at_set1_same s p v :
  length (filler s.2) = 15%nat -> valid_ptr p -> get_at (set1 s p v) p = v.
Proof.
  intros Hl Hv. destruct p as [o|a]; unfold get_at; cbn.
  - now apply cell_get_set_same.
  - apply mem_get_set_same.
Qed.

Lemma get_at_set1_other s p q v :
  valid_ptr p -> valid_ptr q -> p <> q -> get_at (set1 s p v) q = get_at s q.
Proof.
  intros Hp Hq Hne. destruct p as [o|a], q as [j|b]; unfold get_at; cbn;
    try reflexivity.
  - apply cell_get_set_other; try assumption. congruence.
  - apply mem_get_set_other. congruence.
Qed.

Lemma length_filler_set1 s p v :
  length (filler (set1 s p v).2) = length (filler s.2).
Proof. destruct p; cbn; [apply length_filler_cell_set|reflexivity]. Qed.

(** A byte outside the stored range is not changed. *)
Lemma get_at_store_bytes_out bs : forall s p q,
  (forall k, 0 <= k < Z.of_nat (length bs) -> valid_ptr (padd p k)) ->
  valid_ptr q ->
  (forall k, 0 <= k < Z.of_nat (length bs) -> q <> padd p k) ->
  get_at (store_bytes s p bs) q = get_at s q.
Proof.
  induction bs as [|b bs IH]; intros s p q Hv Hq Hout; [reflexivity|].
  cbn [store_bytes]. cbn [length] in Hv, Hout.
  rewrite IH; try assumption.
  - apply get_at_set1_other; try assumption.
    + rewrite <- (padd_0 p). apply Hv. lia.
    + rewrite <- (padd_0 p). intros E. apply (Hout 0); [lia|]. congruence.
  - intros k Hk. rewrite padd_padd. apply Hv. lia.
  - intros k Hk. rewrite padd_padd. apply Hout. lia.
Qed.

(** A byte inside the stored range is the byte stored. *)
Lemma get_at_store_bytes_in bs : forall s p k,
  length (filler s.2) = 15%nat ->
  (forall j, 0 <= j < Z.of_nat (length bs) -> valid_ptr (padd p j)) ->
  0 <= k < Z.of_nat (length bs) ->
  get_at (store_bytes s p bs) (padd p k) = nth (Z.to_nat k) bs 0.
Proof.
  induction bs as [|b bs IH]; intros s p k Hl Hv Hk; [cbn in Hk; lia|].
  cbn [store_bytes]. cbn [length] in Hv, Hk.
  destruct (Z.eq_dec k 0) as [->|Hk0].
  - rewrite get_at_store_bytes_out.
    + rewrite padd_0. apply get_at_set1_same; [assumption|].
      rewrite <- (padd_0 p). apply Hv. lia.
    + intros j Hj. rewrite padd_padd. apply Hv. lia.
    + apply Hv. lia.
    + intros j Hj. rewrite padd_padd. intros E. apply padd_inj in E. lia.
  - replace (padd p k) with (padd (padd p 1) (k - 1))
      by (rewrite padd_padd; f_equal; lia).
    rewrite IH.
    + replace (Z.to_nat k) with (S (Z.to_nat (k - 1))) by lia. reflexivity.
    + now rewrite length_filler_set1.
    + intros j Hj. rewrite padd_padd. apply Hv. lia.
    + lia.
Qed.

Lemma nth_load_bytes h x n : forall p k,
  (k < n)%nat -> nth k (load_bytes h x p n) 0 = get1 h x (padd p (Z.of_nat k)).
Proof.
  induction n as [|n IH]; intros p k Hk; [lia|].
  cbn [load_bytes]. destruct k as [|k]; cbn [nth].
  - now rewrite padd_0.
  - rewrite IH by lia. rewrite padd_padd. do 2 f_equal. lia.
Qed.

Lemma load_bytes_ext n : forall h x h' x' p,
  (forall k, 0 <= k < Z.of_nat n ->
             get1 h x (padd p k) = get1 h' x' (padd p k)) ->
  load_bytes h x p n = load_bytes h' x' p n.
Proof.
  induction n as [|n IH]; intros h x h' x' p H; [reflexivity|].
  cbn [load_bytes]. f_equal.
  - specialize (H 0). rewrite padd_0 in H. apply H. lia.
  - apply IH. intros k Hk. rewrite padd_padd. apply H. lia.
Qed.

Lemma in_range_dec p q m :
  (exists k, 0 <= k < m /\ q = padd p k)
  \/ (forall k, 0 <= k < m -> q <> padd p k).
Proof.
  destruct p as [o|a], q as [j|b]; cbn.
  - destruct (decide (0 <= j - o < m)).
    + left. exists (j - o). split; [lia|]. f_equal. lia.
    + right. intros k Hk [= E]. lia.
  - right. intros k _. discriminate.
  - right. intros k _. discriminate.
  - destruct (decide (0 <= b - a < m)).
    + left. exists (b - a). split; [lia|]. f_equal. lia.
    + right. intros k Hk [= E]. lia.
Qed.

(** Storing back the bytes just loaded changes no byte. *)
Lemma get_at_store_loaded h x p n q :
  length (filler x) = 15%nat ->
  (forall k, 0 <= k < Z.of_nat n -> valid_ptr (padd p k)) ->
  valid_ptr q ->
  get_at (store_bytes (h, x) p (load_bytes h x p n)) q = get_at (h, x) q.
Proof.
  intros Hl Hv Hq.
  destruct (in_range_dec p q (Z.of_nat n)) as [(k & Hk & ->)|Hout].
  - rewrite get_at_store_bytes_in; rewrite ?length_load_bytes; try assumption.
    rewrite nth_load_bytes by lia. unfold get_at; cbn. do 2 f_equal. lia.
  - apply get_at_store_bytes_out; rewrite ?length_load_bytes; assumption.
Qed.

(** ** Ranges *)

Lemma ok_range_live h h' p n : live h' = live h -> ok_range h' p n = ok_range h p n.
Proof. intros H. destruct p; cbn; [reflexivity|]. unfold in_live. now rewrite H. Qed.

Lemma in_block_sub a n k m b :
  in_block a n b = true -> 0 <= k -> k + m <= n ->
  in_block (a + k) m b = true.
Proof.
  unfold in_block. rewrite !andb_true_iff, !Z.leb_le. lia.
Qed.

Lemma ok_range_sub h p n k m :
  ok_range h p n = true -> 0 <= k -> 0 <= m -> k + m <= n ->
  ok_range h (padd p k) m = true.
Proof.
  intros H Hk Hm Hle. destruct p as [o|a]; cbn in *.
  - rewrite andb_true_iff, !Z.leb_le in *. lia.
  - unfold in_live in *. rewrite existsb_exists in *.
    destruct H as (b & Hin & Hb). exists b. split; [assumption|].
    now apply in_block_sub with (n := n).
Qed.

Lemma ok_range_valid h p n k :
  ok_range h p n = true -> 0 <= k < n -> valid_ptr (padd p k).
Proof.
  intros H Hk. destruct p as [o|a]; cbn in *; [|exact I].
  rewrite andb_true_iff, !Z.leb_le in H. lia.
Qed.

Lemma in_live_bound h a n :
  heap_ok h -> in_live h a n = true -> a + n < 2 ^ 64.
Proof.
  unfold heap_ok, in_live. rewrite Forall_forall, existsb_exists.
  intros Hok (b & Hin & Hb). apply list_elem_of_In in Hin.
  specialize (Hok b Hin). unfold in_block in Hb.
  rewrite andb_true_iff, !Z.leb_le in Hb. lia.
Qed.

(** ** The cell after [xs_set_size] *)

Lemma xs_data_xs_set_size x n :
  length (filler x) = 15%nat -> xs_data (xs_set_size x n) = xs_data x.
Proof.
  intros Hl. unfold xs_set_size. destruct (xs_is_ptr x) eqn:Hp; cbn [negb].
  - unfold xs_data.
    rewrite is_ptr_set_size_field, is_large_set_size_field,
      xs_ptr_set_size_field by assumption. reflexivity.
  - unfold xs_data. rewrite is_ptr_set_space_left, Hp. reflexivity.
Qed.

Lemma xs_size_xs_set_size x n :
  length (filler x) = 15%nat -> 0 <= n ->
  (xs_is_ptr x = true -> n < 2 ^ 54) ->
  (xs_is_ptr x = false -> n <= 15) ->
  xs_size (xs_set_size x n) = n.
Proof.
  intros Hl Hn Hh Hc. unfold xs_set_size. destruct (xs_is_ptr x) eqn:Hp; cbn [negb].
  - unfold xs_size. rewrite is_ptr_set_size_field, Hp,
      size_field_set_size_field by assumption.
    apply Z.mod_small. specialize (Hh eq_refl). lia.
  - unfold xs_size, STACK_SIZE.
    rewrite is_ptr_set_space_left, Hp, space_left_set_space_left.
    specialize (Hc eq_refl). divmod.
Qed.

Lemma length_filler_xs_set_size x n :
  length (filler x) = 15%nat -> length (filler (xs_set_size x n)) = 15%nat.
Proof.
  intros Hl. unfold xs_set_size. destruct (xs_is_ptr x); cbn [negb].
  - now apply length_filler_set_size_field.
  - exact Hl.
Qed.

Lemma is_large_xs_set_size x n :
  xs_is_large_string (xs_set_size x n) = xs_is_large_string x.
Proof.
  unfold xs_set_size. destruct (xs_is_ptr x); cbn [negb].
  - reflexivity.
  - apply is_large_set_space_left.
Qed.

(** Bytes of the data before byte 15 are not touched by [xs_set_size]. *)
Lemma get1_xs_set_size h x n k :
  0 <= k -> (xs_is_ptr x = false -> k < 15) ->
  get1 h (xs_set_size x n) (padd (xs_data x) k) = get1 h x (padd (xs_data x) k).
Proof.
  intros Hk Hc. destruct (xs_is_ptr x) eqn:Hp.
  - rewrite (xs_data_heap _ Hp). reflexivity.
  - rewrite (xs_data_inline _ Hp). cbn. unfold xs_set_size. rewrite Hp. cbn [negb].
    unfold cell_get, set_space_left; cbn [filler tag].
    specialize (Hc eq_refl). destruct (Z.ltb_spec (0 + k) 15); [reflexivity|lia].
Qed.

(** A zero at the new length stays a zero, byte 15 included. *)
Lemma get1_xs_set_size_terminator h x n :
  0 <= n -> (xs_is_ptr x = false -> n <= 15) ->
  get1 h x (padd (xs_data x) n) = 0 ->
  get1 h (xs_set_size x n) (padd (xs_data x) n) = 0.
Proof.
  intros Hn Hc Hz. destruct (xs_is_ptr x) eqn:Hp.
  - rewrite (xs_data_heap _ Hp) in *. exact Hz.
  - specialize (Hc eq_refl). rewrite (xs_data_inline _ Hp) in *. cbn in *.
    unfold xs_set_size. rewrite Hp. cbn [negb].
    unfold cell_get, set_space_left, STACK_SIZE in *; cbn [filler tag].
    destruct (Z.ltb_spec (0 + n) 15); [exact Hz|].
    assert (n = 15) by lia. subst n. rewrite Hz. reflexivity.
Qed.

(** The state after storing at the data pointer. *)
Lemma store_at_data h x bs h' x' :
  (h', x') = store_bytes (h, x) (xs_data x) bs ->
  (xs_is_ptr x = false -> Z.of_nat (length bs) <= 15) ->
  tag x' = tag x
  /\ length (filler x') = length (filler x)
  /\ xs_data x' = xs_data x
  /\ xs_is_ptr x' = xs_is_ptr x
  /\ live h' = live h.
Proof.
  intros E Hc.
  pose proof (store_bytes_live (h, x) (xs_data x) bs) as Hl.
  pose proof (store_bytes_length_filler (h, x) (xs_data x) bs) as Hf.
  rewrite <- E in Hl, Hf. cbn in Hl, Hf.
  assert (Ht : tag x' = tag x).
  { destruct (xs_is_ptr x) eqn:Hp.
    - rewrite (xs_data_heap _ Hp) in E.
      pose proof (store_bytes_heap_cell (h, x)
                    (xs_ptr x + (if xs_is_large_string x then 4 else 0)) bs) as Ec.
      rewrite <- E in Ec. cbn in Ec. now subst x'.
    - rewrite (xs_data_inline _ Hp) in E.
      pose proof (store_bytes_cell_tag (h, x) 0 bs) as Ec.
      rewrite <- E in Ec. cbn in Ec. apply Ec. specialize (Hc eq_refl). lia. }
  assert (Hp' : xs_is_ptr x' = xs_is_ptr x) by (unfold xs_is_ptr; now rewrite Ht).
  repeat split; try assumption.
  destruct (xs_is_ptr x) eqn:Hp.
  - rewrite (xs_data_heap _ Hp) in E.
    pose proof (store_bytes_heap_cell (h, x)
                  (xs_ptr x + (if xs_is_large_string x then 4 else 0)) bs) as Ec.
    rewrite <- E in Ec. cbn in Ec. now subst x'.
  - now rewrite !xs_data_inline.
Qed.

(** ** [xs_trim] on a value that is already trimmed *)

Lemma range_valid h p n k :
  n = 0 \/ ok_range h p n = true -> 0 <= k < n -> valid_ptr (padd p k).
Proof. intros [->|H] Hk; [lia|]. now apply ok_range_valid with (h := h) (n := n). Qed.

Lemma xs_trim_on_trimmed_state clz0 h x trimset :
  cstr_is_empty trimset = false ->
  unshared h x ->
  trimmed_state h x (build_mask trimset) ->
  exists h' x',
    xs_trim clz0 h x trimset = Ok (h', x')
    /\ xs_size x' = xs_size x
    /\ xs_content h x = Ok (load_bytes h x (xs_data x) (Z.to_nat (xs_size x)))
    /\ xs_content h' x' = Ok (load_bytes h x (xs_data x) (Z.to_nat (xs_size x))).
Proof.
  intros He Hu Hts.
  assert (Hcell : xs_is_ptr x = false -> xs_size x <= 15).
  { intros Hp. pose proof (xs_size_inline_range x Hp). lia. }
  destruct Hts as (Hl & Hn & Hr & Hrt & Hz & Hnm).
  unfold xs_trim. rewrite He, (xs_cow_lazy_copy_unshared clz0 h x Hu).
  cbn [mbind result_bind].
  set (n := xs_size x) in *. set (orig := xs_data x) in *.
  set (mask := build_mask trimset) in *.
  assert (Hload1 : forall k, 0 <= k < n -> ok_range h (padd orig k) 1 = true).
  { intros k Hk. destruct Hr as [Hr|Hr]; [lia|].
    apply ok_range_sub with (n := n); [assumption|lia..]. }
  assert (Hf : scan_fwd h x mask orig 0 (Z.to_nat n) = Ok 0).
  { destruct (Z.to_nat n) eqn:En; [reflexivity|]. cbn [scan_fwd].
    unfold load1. rewrite Hload1 by lia. cbn [mbind result_bind].
    rewrite padd_0. rewrite (proj1 (Hnm ltac:(lia))). reflexivity. }
  assert (Hb : scan_bwd h x mask orig (Z.to_nat n) = Ok n).
  { destruct (Z.to_nat n) as [|m] eqn:En; [cbn [scan_bwd]; f_equal; lia|]. cbn [scan_bwd].
    replace (Z.of_nat m) with (n - 1) by lia.
    unfold load1. rewrite Hload1 by lia. cbn [mbind result_bind].
    rewrite (proj2 (Hnm ltac:(lia))). cbn. f_equal. lia. }
  rewrite Hf, Hb. cbn [mbind result_bind].
  rewrite Z.sub_0_r, Z.mod_small by lia. rewrite padd_0.
  assert (Hrb : (n =? 0) || ok_range h orig n = true).
  { destruct Hr as [E | E]; rewrite E; [reflexivity | apply orb_true_r]. }
  unfold memmove, memcpy, load. rewrite Hrb. cbn [mbind result_bind].
  unfold store. rewrite length_load_bytes, Z2Nat.id, Hrb by lia.
  cbn [mbind result_bind].
  destruct (store_bytes (h, x) orig (load_bytes h x orig (Z.to_nat n)))
    as [h1 x1] eqn:Es.
  symmetry in Es.
  destruct (store_at_data _ _ _ _ _ Es) as (Ht1 & Hl1 & Hd1 & Hp1 & Hlive1).
  { intros Hp. rewrite length_load_bytes, Z2Nat.id by lia. now apply Hcell. }
  fold orig in Hd1.
  assert (Hget : forall q, valid_ptr q -> get1 h1 x1 q = get1 h x q).
  { intros q Hq.
    pose proof (get_at_store_loaded h x orig (Z.to_nat n) q Hl) as G.
    rewrite <- Es in G. apply G; [|assumption].
    intros k Hk. apply (range_valid h orig n); [assumption|lia]. }
  assert (Hvn : valid_ptr (padd orig n)).
  { rewrite <- (padd_0 (padd orig n)).
    apply ok_range_valid with (h := h) (n := 1); [assumption|lia]. }
  unfold load1. rewrite (ok_range_live h h1) by assumption. rewrite Hrt.
  cbn [mbind result_bind]. rewrite (Hget _ Hvn), Hz. cbn [Z.eqb mbind result_bind].
  exists h1, (xs_set_size x1 n).
  assert (Hl1' : length (filler x1) = 15%nat) by congruence.
  assert (Hcell1 : xs_is_ptr x1 = false -> n <= 15).
  { rewrite Hp1. exact Hcell. }
  split; [reflexivity|]. split; [|split].
  - apply xs_size_xs_set_size; try assumption; lia.
  - unfold xs_content, load. fold n orig. rewrite Hrb. reflexivity.
  - unfold xs_content. rewrite xs_data_xs_set_size, Hd1 by assumption.
    rewrite xs_size_xs_set_size by (try assumption; lia).
    unfold load. rewrite (ok_range_live h h1), Hrb by assumption.
    f_equal. apply load_bytes_ext. intros k Hk. rewrite Z2Nat.id in Hk by lia.
    rewrite <- Hd1. rewrite get1_xs_set_size.
    + rewrite Hd1. apply Hget. apply (range_valid h orig n); [assumption|lia].
    + lia.
    + intros Hp. specialize (Hcell1 Hp). lia.
Qed.

(** ** The first run of [xs_trim] *)

(** The subtraction [slen -= i] does not wrap in a run that returns: a
    wrapped length does not fit in the cell nor in a block of a 64-bit
    address space. *)
Lemma xs_trim_no_wrap h0 x0 i s :
  0 <= xs_size x0 < 2 ^ 54 ->
  (xs_is_ptr x0 = true -> heap_ok h0 /\ 0 <= xs_ptr x0) ->
  0 <= i <= xs_size x0 -> 0 <= s <= xs_size x0 ->
  (s - i) mod 2 ^ 64 = 0
  \/ ok_range h0 (padd (xs_data x0) i) ((s - i) mod 2 ^ 64) = true ->
  i <= s.
Proof.
  intros Hsz Hheap Hi Hs Hr.
  destruct (Z.le_gt_cases i s) as [|Hlt]; [assumption|exfalso].
  assert (En : (s - i) mod 2 ^ 64 = s - i + 2 ^ 64).
  { symmetry. apply Z.mod_unique with (q := -1); lia. }
  rewrite En in Hr. destruct Hr as [Hr|Hr]; [lia|].
  destruct (xs_is_ptr x0) eqn:Hp.
  - destruct (Hheap eq_refl) as [Hok Hptr].
    rewrite (xs_data_heap _ Hp) in Hr. cbn in Hr.
    apply (in_live_bound _ _ _ Hok) in Hr.
    destruct (xs_is_large_string x0); lia.
  - rewrite (xs_data_inline _ Hp) in Hr. cbn in Hr.
    rewrite andb_true_iff, !Z.leb_le in Hr. lia.
Qed.

Lemma read_int_frame h h' a :
  live h' = live h ->
  (forall k, 0 <= k < 4 -> mem_get h' (a + k) = mem_get h (a + k)) ->
  read_int h' a = read_int h a.
Proof.
  intros Hl Hm. unfold read_int, in_live. rewrite Hl.
  destruct (existsb _ _); [|reflexivity]. cbn [map].
  rewrite !Hm by lia. reflexivity.
Qed.

(** The body of [xs_trim] (after the copy-on-write step), in a run that
    returns: the value it leaves is a trimmed state, at the same data
    pointer, and bytes outside [data[0..n]] are not changed. *)
Lemma xs_trim_body_trimmed h0 x0 mask i s h1 x1 bt h2 x2 :
  let n := (s - i) mod 2 ^ 64 in
  length (filler x0) = 15%nat ->
  0 <= xs_size x0 < 2 ^ 54 ->
  (xs_is_ptr x0 = true -> heap_ok h0 /\ 0 <= xs_ptr x0) ->
  scan_fwd h0 x0 mask (xs_data x0) 0 (Z.to_nat (xs_size x0)) = Ok i ->
  scan_bwd h0 x0 mask (xs_data x0) (Z.to_nat (xs_size x0)) = Ok s ->
  memmove h0 x0 (xs_data x0) x0 (padd (xs_data x0) i) n = Ok (h1, x1) ->
  load1 h1 x1 (padd (xs_data x0) n) = Ok bt ->
  (if bt =? 0 then Ok (h1, x1) else store1 h1 x1 (padd (xs_data x0) n) 0)
  = Ok (h2, x2) ->
  trimmed_state h2 (xs_set_size x2 n) mask
  /\ 0 <= n
  /\ (forall q, valid_ptr q ->
        (forall j, 0 <= j <= n -> q <> padd (xs_data x0) j) ->
        get1 h2 x2 q = get1 h0 x0 q).
Proof.
  intros n Hl Hsz Hheap Hi Hs Hm Hb Ht.
  destruct (xs_trim_body_frame _ _ _ _ _ _ _ _ _ _ Hi Hs Hm Hb Ht)
    as (Hlive & Hfh & Hfc).
  fold n in Hfc.
  set (orig := xs_data x0) in *.
  pose proof (scan_fwd_bounds _ _ _ _ _ _ _ Hi) as Bi.
  pose proof (scan_bwd_bounds _ _ _ _ _ _ Hs) as Bs.
  rewrite Z2Nat.id in Bi, Bs by lia.
  apply memcpy_ok in Hm. destruct Hm as [Hr Hst].
  assert (His : i <= s).
  { apply (xs_trim_no_wrap h0 x0 i s); try assumption; lia. }
  assert (En : n = s - i) by (subst n; apply Z.mod_small; lia).
  assert (Hn0 : 0 <= n) by lia.
  assert (Hcell : xs_is_ptr x0 = false -> n <= 15).
  { intros Hp. now destruct (Hfc Hp) as (_ & ? & _). }
  pose proof (store_live _ _ _ _ _ _ Hst) as Hlive1.
  apply store_ok in Hst. destruct Hst as [Es Hrs].
  rewrite length_load_bytes, Z2Nat.id in Hrs by lia.
  assert (Hrn : n = 0 \/ ok_range h0 orig n = true).
  { destruct Hrs as [E|E]; [left|now right].
    apply (f_equal (@length Z)) in E. rewrite length_load_bytes in E.
    cbn in E. lia. }
  destruct (store_at_data _ _ _ _ _ Es) as (Ht1 & Hl1 & Hd1 & Hp1 & _).
  { intros Hp. rewrite length_load_bytes, Z2Nat.id by lia. now apply Hcell. }
  fold orig in Hd1.
  assert (Hvalid : forall k, 0 <= k < n -> valid_ptr (padd orig k)).
  { intros k Hk. now apply (range_valid h0 orig n). }
  (* bytes after the move *)
  assert (F1 : forall k, 0 <= k < n ->
                 get1 h1 x1 (padd orig k) = get1 h0 x0 (padd orig (i + k))).
  { intros k Hk.
    pose proof (get_at_store_bytes_in
                  (load_bytes h0 x0 (padd orig i) (Z.to_nat n))
                  (h0, x0) orig k Hl) as G.
    rewrite <- Es, length_load_bytes, Z2Nat.id in G by lia.
    unfold get_at in G; cbn [fst snd] in G. rewrite G; [|assumption|lia].
    rewrite nth_load_bytes by lia. rewrite padd_padd, Z2Nat.id by lia.
    reflexivity. }
  assert (Fout1 : forall q, valid_ptr q ->
                    (forall j, 0 <= j < n -> q <> padd orig j) ->
                    get1 h1 x1 q = get1 h0 x0 q).
  { intros q Hq Hout.
    pose proof (get_at_store_bytes_out
                  (load_bytes h0 x0 (padd orig i) (Z.to_nat n))
                  (h0, x0) orig q) as G.
    rewrite <- Es, length_load_bytes, Z2Nat.id in G by lia.
    apply G; assumption. }
  (* the terminator *)
  apply load1_ok in Hb. destruct Hb as [Hrt Hbt].
  pose proof (ok_range_valid _ _ 1 0 Hrt ltac:(lia)) as Hvn.
  rewrite padd_0 in Hvn.
  assert (Hl1' : length (filler x1) = 15%nat) by congruence.
  assert (T : get1 h2 x2 (padd orig n) = 0
              /\ (forall q, valid_ptr q -> q <> padd orig n ->
                            get1 h2 x2 q = get1 h1 x1 q)
              /\ length (filler x2) = 15%nat
              /\ xs_is_ptr x2 = xs_is_ptr x0
              /\ xs_data x2 = orig).
  { assert (Hd : xs_is_ptr x2 = xs_is_ptr x0 /\ xs_data x2 = orig).
    { destruct (xs_is_ptr x0) eqn:Hp.
      - rewrite (Hfh eq_refl). rewrite Hp. auto.
      - destruct (Hfc eq_refl) as (_ & _ & Hp2 & _).
        split; [assumption|]. rewrite (xs_data_inline _ Hp2).
        subst orig. now rewrite (xs_data_inline _ Hp). }
    destruct (Z.eqb_spec bt 0) as [E0|Hne].
    - injection Ht as <- <-. subst bt. repeat split; auto; tauto.
    - apply store1_ok in Ht. destruct Ht as [_ E2].
      pose proof (get_at_set1_same (h1, x1) (padd orig n) 0 Hl1' Hvn) as G1.
      rewrite <- E2 in G1. unfold get_at in G1; cbn in G1.
      split; [exact G1|]. split; [|split; [|exact Hd]].
      + intros q Hq Hqn.
        pose proof (get_at_set1_other (h1, x1) (padd orig n) q 0 Hvn Hq) as G2.
        rewrite <- E2 in G2. apply G2. congruence.
      + pose proof (length_filler_set1 (h1, x1) (padd orig n) 0) as G3.
        rewrite <- E2 in G3. cbn in G3. congruence. }
  destruct T as (Tz & Tout & Tl & Tp & Td).
  assert (Hlive2 : live h2 = live h1) by congruence.
  assert (Hcell2 : xs_is_ptr x2 = false -> n <= 15) by (rewrite Tp; exact Hcell).
  assert (Hheap2 : xs_is_ptr x2 = true -> n < 2 ^ 54) by (intros _; lia).
  split; [|split; [exact Hn0|]].
  - unfold trimmed_state.
    rewrite xs_size_xs_set_size, xs_data_xs_set_size, Td by assumption.
    split; [now apply length_filler_xs_set_size|].
    split; [lia|].
    split; [destruct Hrn as [E|E]; [now left|right];
            now rewrite (ok_range_live h0 h2)|].
    split; [now rewrite (ok_range_live h1 h2)|].
    split.
    { rewrite <- Td. apply get1_xs_set_size_terminator; try assumption.
      now rewrite Td. }
    intros Hpos.
    assert (Hi' : i < 0 + Z.of_nat (Z.to_nat (xs_size x0))) by lia.
    destruct (scan_fwd_stop _ _ _ _ _ _ _ Hi Hi') as [_ Cf].
    destruct (scan_bwd_stop _ _ _ _ _ _ Hs ltac:(lia)) as [_ Cb].
    fold orig in Cf, Cb.
    split.
    + rewrite <- (padd_0 orig) at 1. rewrite <- Td.
      rewrite get1_xs_set_size; [|lia|intros Hp; specialize (Hcell2 Hp); lia].
      rewrite Td, Tout; [|apply Hvalid; lia|intros E; apply padd_inj in E; lia].
      rewrite F1 by lia. now rewrite Z.add_0_r.
    + rewrite <- Td.
      rewrite get1_xs_set_size; [|lia|intros Hp; specialize (Hcell2 Hp); lia].
      rewrite Td, Tout; [|apply Hvalid; lia|intros E; apply padd_inj in E; lia].
      rewrite F1 by lia. now replace (i + (n - 1)) with (s - 1) by lia.
  - intros q Hq Hout.
    rewrite Tout; [|assumption|apply Hout; lia].
    apply Fout1; [assumption|]. intros j Hj. apply Hout. lia.
Qed.

(** The flag byte of an inline value after the body of [xs_trim]. *)
Lemma xs_trim_body_tag h0 x0 mask i s h1 x1 bt h2 x2 :
  let n := (s - i) mod 2 ^ 64 in
  scan_fwd h0 x0 mask (xs_data x0) 0 (Z.to_nat (xs_size x0)) = Ok i ->
  scan_bwd h0 x0 mask (xs_data x0) (Z.to_nat (xs_size x0)) = Ok s ->
  memmove h0 x0 (xs_data x0) x0 (padd (xs_data x0) i) n = Ok (h1, x1) ->
  load1 h1 x1 (padd (xs_data x0) n) = Ok bt ->
  (if bt =? 0 then Ok (h1, x1) else store1 h1 x1 (padd (xs_data x0) n) 0)
  = Ok (h2, x2) ->
  xs_is_ptr x0 = false ->
  tag x2 = tag x0 \/ tag x2 = 0.
Proof.
  intros n Hi Hs Hm Hb Ht Hp.
  destruct (xs_trim_body_frame _ _ _ _ _ _ _ _ _ _ Hi Hs Hm Hb Ht)
    as (_ & _ & Hfc).
  destruct (Hfc Hp) as (_ & Hn & _). fold n in Hn.
  assert (Hn0 : 0 <= n) by (subst n; divmod).
  apply memcpy_ok in Hm. destruct Hm as [_ Hst].
  apply store_ok in Hst. destruct Hst as [Es _].
  destruct (store_at_data _ _ _ _ _ Es) as (Ht1 & _).
  { intros _. rewrite length_load_bytes, Z2Nat.id by lia. exact Hn. }
  destruct (bt =? 0).
  - injection Ht as <- <-. now left.
  - apply store1_ok in Ht. destruct Ht as [_ E2].
    rewrite (xs_data_inline _ Hp) in E2. cbn in E2. injection E2 as -> ->.
    unfold cell_set. destruct (0 + n <? 15); cbn [tag]; auto.
Qed.

Lemma xs_dec_refcnt_live h x h1 c :
  xs_dec_refcnt h x = Ok (h1, c) -> live h1 = live h.
Proof.
  unfold xs_dec_refcnt. destruct (xs_is_large_string x); cbn [negb].
  - destruct (read_int h (xs_ptr x)) as [v|]; cbn; [|discriminate].
    destruct (write_int h (xs_ptr x) (v - 1)) as [h'|] eqn:Ew; cbn; [|discriminate].
    intros [= <- _]. now apply write_int_live in Ew.
  - intros [= <- _]. reflexivity.
Qed.

(** The two outcomes of the copy-on-write step: nothing to copy, or the
    value replaced by the empty inline literal with one byte stored. *)
Lemma xs_cow_lazy_copy_ok clz0 h x h0 x0 b0 :
  xs_cow_lazy_copy clz0 h x = Ok (h0, x0, b0) ->
  (b0 = false /\ h0 = h /\ x0 = x /\ unshared h x)
  \/ (b0 = true /\ live h0 = live h
      /\ exists v, x0 = cell_set xs_literal_empty 0 v).
Proof.
  unfold xs_cow_lazy_copy.
  destruct (xs_get_refcnt h x) as [c|] eqn:Ec; cbn [mbind result_bind];
    [|discriminate].
  destruct (Z.leb_spec c 1).
  { intros [= <- <- <-]. left. repeat split. exists c. auto. }
  destruct (xs_dec_refcnt h x) as [[h1 c1]|] eqn:Ed; cbn [mbind result_bind];
    [|discriminate].
  apply xs_dec_refcnt_live in Ed.
  rewrite xs_allocate_not_ptr by apply is_ptr_set_is_ptr.
  pose proof (xs_size_inline_range (set_is_ptr x false)
                (is_ptr_set_is_ptr x false)) as Hsz.
  destruct (Z.geb_spec (xs_size (set_is_ptr x false)) LARGE_STRING_LEN);
    [unfold LARGE_STRING_LEN in *; lia|].
  destruct (Z.gtb_spec (xs_size (set_is_ptr x false)) STACK_SIZE);
    [unfold STACK_SIZE in *; lia|].
  cbn [mbind result_bind].
  change (xs_data xs_literal_empty) with (InCell 0).
  change (size_field xs_literal_empty + 1) with 1.
  unfold memcpy. destruct (load h1 xs_literal_empty _ 1) as [bs|] eqn:El;
    cbn [mbind result_bind]; [|discriminate].
  apply load_ok in El. destruct El as [-> _].
  change (Z.to_nat 1) with 1%nat. cbn [load_bytes].
  intros [= <- <- <-]. right. repeat split; [assumption|].
  eexists. reflexivity.
Qed.

Lemma is_large_of_tag x y :
  (tag y = tag x \/ tag y = 0) ->
  xs_is_large_string x = false -> xs_is_large_string y = false.
Proof.
  unfold xs_is_large_string. intros [-> | ->] H; [exact H|reflexivity].
Qed.

(** The value a run of [xs_trim] returns is a trimmed state on which the
    copy-on-write check finds nothing to copy. *)
Lemma xs_trim_result clz0 h x trimset h1 x1 :
  xs_wf x -> flags_ok x -> heap_ok h ->
  cstr_is_empty trimset = false ->
  xs_trim clz0 h x trimset = Ok (h1, x1) ->
  trimmed_state h1 x1 (build_mask trimset) /\ unshared h1 x1.
Proof.
  intros Hwf Hfl Hok He Ht.
  apply xs_trim_ok in Ht; [|exact He].
  destruct Ht as (h0 & x0 & b0 & i & s & ha & xa & bt & h2 & x2
                  & Hc & Hi & Hs & Hm & Hb & Ht & -> & ->).
  apply xs_cow_lazy_copy_ok in Hc.
  destruct Hc as [(-> & -> & -> & Hu)|(-> & Hlive0 & v & ->)].
  - (* nothing was copied *)
    destruct (xs_trim_body_trimmed _ _ _ _ _ _ _ _ _ _
                (proj1 Hwf) (xs_size_range x Hwf)
                (fun _ => conj Hok (xs_ptr_nonneg x Hwf)) Hi Hs Hm Hb Ht)
      as (Hts & Hn0 & Hframe).
    split; [exact Hts|].
    destruct (xs_trim_body_frame _ _ _ _ _ _ _ _ _ _ Hi Hs Hm Hb Ht)
      as (Hlive & Hfh & _).
    destruct Hu as (c & Hc & Hle). exists c. split; [|exact Hle].
    unfold xs_get_refcnt in *. rewrite is_large_xs_set_size.
    destruct (xs_is_ptr x) eqn:Hp.
    + rewrite (Hfh eq_refl) in *.
      destruct (xs_is_large_string x) eqn:Hlg; cbn [negb] in *; [|exact Hc].
      unfold xs_set_size. rewrite Hp. cbn [negb].
      rewrite xs_ptr_set_size_field by apply Hwf.
      rewrite <- Hc. apply read_int_frame; [exact Hlive|].
      intros k Hk.
      apply (Hframe (InHeap (xs_ptr x + k)) I).
      intros j Hj. rewrite (xs_data_heap _ Hp), Hlg. cbn. intros [= E]. lia.
    + pose proof (xs_trim_body_tag _ _ _ _ _ _ _ _ _ _ Hi Hs Hm Hb Ht Hp) as Htag.
      rewrite (is_large_of_tag x x2 Htag (Hfl Hp)).
      rewrite (Hfl Hp) in Hc. exact Hc.
  - (* the value was replaced by the copy-on-write step *)
    assert (Hp0 : xs_is_ptr (cell_set xs_literal_empty 0 v) = false) by reflexivity.
    assert (Hl0 : length (filler (cell_set xs_literal_empty 0 v)) = 15%nat)
      by reflexivity.
    assert (Hs0 : xs_size (cell_set xs_literal_empty 0 v) = 0) by reflexivity.
    destruct (xs_trim_body_trimmed _ _ _ _ _ _ _ _ _ _ Hl0
                ltac:(rewrite Hs0; lia)
                ltac:(rewrite Hp0; discriminate) Hi Hs Hm Hb Ht)
      as (Hts & _ & _).
    split; [exact Hts|].
    pose proof (xs_trim_body_tag _ _ _ _ _ _ _ _ _ _ Hi Hs Hm Hb Ht Hp0) as Htag.
    exists 0. split; [|lia].
    unfold xs_get_refcnt. rewrite is_large_xs_set_size.
    rewrite (is_large_of_tag (cell_set xs_literal_empty 0 v) x2 Htag eq_refl).
    reflexivity.
Qed.

(* ================================================================= *)
(** * Properties of the operations *)

(** ** The run of [main] *)

(** The program prints [[foobarbar] :  9] and [[(((foobarbar)))] : 15];
    all three values stay inline and the heap is not used. *)
Example main_prints :
  main_run 32
  = Some (Ok (lit "foobarbar", 9, lit "(((foobarbar)))", 15)).
Proof. vm_compute. reflexivity. Qed.

(** ** Reference-count queries on values that are not large *)

(** C10. For a value whose [is_large_string] flag is clear (an inline or a
    medium value), [xs_get_refcnt] returns 0 and [xs_dec_refcnt] returns 0
    in every heap, whatever the pointer field holds, and the heap is left
    as it was: neither goes through the pointer. *)
Theorem xs_refcnt_inert_when_not_large (h : heap) (x : xs) :
  xs_is_large_string x = false ->
  xs_get_refcnt h x = Ok 0 /\ xs_dec_refcnt h x = Ok (h, 0).
Proof.
  intros Hl. unfold xs_get_refcnt, xs_dec_refcnt. rewrite Hl. split; reflexivity.
Qed.

(** A medium value whose pointer field addresses no live block. *)
Lemma xs_refcnt_inert_when_not_large_witness :
  xs_is_large_string (Xs [7; 7; 7; 7; 0; 0; 0; 0; 20; 0; 0; 0; 0; 0; 0] 31) = false
  /\ xs_get_refcnt heap47 (Xs [7; 7; 7; 7; 0; 0; 0; 0; 20; 0; 0; 0; 0; 0; 0] 31) = Ok 0
  /\ xs_dec_refcnt heap47 (Xs [7; 7; 7; 7; 0; 0; 0; 0; 20; 0; 0; 0; 0; 0; 0] 31)
     = Ok (heap47, 0).
Proof.
  split; [reflexivity|].
  apply (xs_refcnt_inert_when_not_large heap47
           (Xs [7; 7; 7; 7; 0; 0; 0; 0; 20; 0; 0; 0; 0; 0; 0] 31)).
  reflexivity.
Defined.

(** ** Allocation *)

(** C3. [xs_allocate] stores the exponent [ilog2(len) + 1] in the capacity
    field and then calls [xs_free], whose reset of the whole cell to the
    empty literal overwrites it: afterwards the field reads 60 (its upper
    four bits are the [space_left] bits of the empty literal).  For a
    request of 16 bytes on an empty value, in every heap, the value comes
    out medium with capacity 2^60 - 1, although the exponent computed for
    16 is 5 (capacity 31). *)
Theorem xs_allocate_loses_exponent (clz0 : Z) (h : heap) :
  exists h' x',
    xs_allocate clz0 h xs_literal_empty 16 = Ok (h', x')
    /\ xs_is_ptr x' = true /\ xs_is_large_string x' = false
    /\ capacity_field x' = 60
    /\ xs_capacity x' = 2 ^ 60 - 1
    /\ ilog2 clz0 16 + 1 = 5.
Proof.
  rewrite xs_allocate_not_ptr by reflexivity.
  change (16 >=? LARGE_STRING_LEN) with false.
  change (16 >? STACK_SIZE) with true. cbv iota.
  destruct (malloc h (2 ^ 60)) as [h1 p].
  exists h1, (fresh_cell p false).
  repeat split; reflexivity.
Qed.

(** The same on every value that is not heap-backed and every request of
    16 bytes or more: whenever [xs_allocate] returns, the value is
    heap-backed, large exactly from 256 bytes on, with capacity field 60. *)
Lemma xs_allocate_capacity_field clz0 h x len h' x' :
  xs_is_ptr x = false -> 16 <= len ->
  xs_allocate clz0 h x len = Ok (h', x') ->
  xs_is_ptr x' = true
  /\ xs_is_large_string x' = (LARGE_STRING_LEN <=? len)
  /\ capacity_field x' = 60
  /\ xs_size x' = 0.
Proof.
  intros Hp Hlen. rewrite xs_allocate_not_ptr by assumption.
  unfold LARGE_STRING_LEN, STACK_SIZE.
  destruct (Z.geb_spec len 256) as [Hge|Hlt].
  - destruct (malloc h (2 ^ 60 + 4)) as [h1 p].
    destruct (write_int h1 (p mod 2 ^ 64) 1); cbn [mbind result_bind];
      [|discriminate].
    intros [= _ <-]. destruct (Z.leb_spec 256 len); [|lia].
    repeat split; reflexivity.
  - destruct (Z.gtb_spec len 15); [|lia].
    destruct (malloc h (2 ^ 60)) as [h1 p].
    intros [= _ <-]. destruct (Z.leb_spec 256 len); [lia|].
    repeat split; reflexivity.
Qed.

(** Below 16 bytes the value is left inline and the heap is not touched. *)
Lemma xs_allocate_small clz0 h x len :
  xs_is_ptr x = false -> len < 16 ->
  xs_allocate clz0 h x len = Ok (h, xs_literal_empty).
Proof.
  intros Hp Hlen. rewrite xs_allocate_not_ptr by assumption.
  unfold LARGE_STRING_LEN, STACK_SIZE.
  destruct (Z.geb_spec len 256); [lia|].
  destruct (Z.gtb_spec len 15); [lia|reflexivity].
Qed.

(** A request of 300 bytes in [heap0]: one block of 2^60 + 4 bytes, the
    count set to 1, the value large, the capacity field 60 again. *)
Example xs_allocate_large_in_heap0 :
  exists h' x',
    xs_allocate 32 heap0 xs_literal_empty 300 = Ok (h', x')
    /\ live h' = [(4096, 2 ^ 60 + 4)]
    /\ xs_get_refcnt h' x' = Ok 1
    /\ xs_is_large_string x' = true
    /\ capacity_field x' = 60.
Proof.
  eexists _, _. split; [vm_compute; reflexivity|].
  repeat split; reflexivity.
Qed.

(** In an address space of 2^47 bytes the block of 2^60 bytes is refused,
    and [xs_new] on 16 bytes copies through the NULL pointer. *)
Example xs_new_of_16_bytes_in_heap47 :
  xs_new 32 heap47 xs_literal_empty (many 16) = Err (BadAccess (InHeap 0)).
Proof. vm_compute. reflexivity. Qed.

(** ** The exponent computation at length 0 *)

(** C7. [xs_allocate] evaluates [ilog2(len)] for every [len], 0 included:
    there [ilog2] returns [31 - __builtin_clz(0)], a value the compiler does
    not define; on a platform where [__builtin_clz(0)] is 32 it is -1, and
    the exponent stored is 0.  (The reset that follows discards it, and the
    value ends as the empty inline literal.) *)
Theorem ilog2_evaluated_at_zero (clz0 : Z) (h : heap) :
  ilog2 clz0 0 = 31 - clz0
  /\ ilog2 32 0 = -1
  /\ capacity_field (set_capacity_field xs_literal_empty (ilog2 32 0 + 1)) = 0
  /\ xs_allocate clz0 h xs_literal_empty 0 = Ok (h, xs_literal_empty)
  /\ xs_new clz0 h xs_literal_empty [] = Ok (h, xs_literal_empty).
Proof.
  split.
  { unfold ilog2, builtin_clz. change (0 mod 2 ^ 32 =? 0) with true.
    cbv iota. lia. }
  do 2 (split; [reflexivity|]).
  assert (Ha : xs_allocate clz0 h xs_literal_empty 0 = Ok (h, xs_literal_empty))
    by (rewrite xs_allocate_not_ptr by reflexivity; reflexivity).
  split; [exact Ha|].
  unfold xs_new. change (strlen []) with 0. rewrite Ha. reflexivity.
Qed.

(** ** Construction and the length limit *)

(** [xs_new] on a source of 256 bytes or more, when the block is granted:
    no limit on the length is checked, and the size field keeps the length
    modulo 2^54. *)
Lemma xs_new_large clz0 h p :
  256 <= strlen p -> strlen p + 1 <= 2 ^ 60 ->
  0 <= brk h -> brk h + (2 ^ 60 + 4) <= top h -> top h <= 2 ^ 64 ->
  exists h',
    xs_new clz0 h xs_literal_empty p
    = Ok (h', set_size_field (fresh_cell (brk h) true) (strlen p))
    /\ live h' = (brk h, 2 ^ 60 + 4) :: live h.
Proof.
  intros Hlen Hfit Hb Hroom Htop. unfold xs_new.
  rewrite xs_allocate_not_ptr by reflexivity.
  destruct (Z.geb_spec (strlen p) LARGE_STRING_LEN) as [_|C];
    [|unfold LARGE_STRING_LEN in C; lia].
  unfold malloc. destruct (Z.leb_spec (brk h + (2 ^ 60 + 4)) (top h)); [|lia].
  rewrite Z.mod_small by lia.
  set (h1 := Heap (mem h) ((brk h, 2 ^ 60 + 4) :: live h)
                  (brk h + (2 ^ 60 + 4)) (top h)).
  destruct (write_int_ok h1 (brk h) 1) as [h2 Hw].
  { unfold in_live, h1; cbn [live existsb].
    rewrite in_block_head by lia. reflexivity. }
  rewrite Hw. cbn [mbind result_bind].
  pose proof (write_int_live _ _ _ _ Hw) as Hl2.
  destruct (fresh_cell_fields (brk h) true) as (Fp & Fl & _).
  rewrite (xs_data_heap _ Fp), Fl, xs_ptr_fresh_cell, Z.mod_small by lia.
  unfold store. rewrite length_cstr_bytes, Z2Nat.id by lia.
  assert (Hr : ok_range h2 (InHeap (brk h + 4)) (strlen p + 1) = true).
  { unfold ok_range, in_live. rewrite Hl2. unfold h1; cbn [live existsb].
    rewrite in_block_head by lia. reflexivity. }
  rewrite Hr, orb_true_r. cbn [mbind result_bind].
  destruct (store_bytes (h2, fresh_cell (brk h) true) (InHeap (brk h + 4))
              (cstr_bytes p (strlen p + 1))) as [h3 x3] eqn:Es.
  pose proof (store_bytes_heap_cell (h2, fresh_cell (brk h) true) (brk h + 4)
                (cstr_bytes p (strlen p + 1))) as Ec.
  pose proof (store_bytes_live (h2, fresh_cell (brk h) true) (InHeap (brk h + 4))
                (cstr_bytes p (strlen p + 1))) as El.
  rewrite Es in Ec, El. cbn in Ec, El. subst x3.
  exists h3. split.
  - unfold xs_set_size. rewrite Fp. reflexivity.
  - rewrite El, Hl2. reflexivity.
Qed.

(** C8, as stated, fails: [xs_new] has no check on the length.  For a
    source of 2^54 bytes, one more than [MAX_STR_LEN], it asks [malloc] for
    the block, copies, and returns a large value whose size field wrapped
    to 0. *)
Lemma xs_new_accepts_oversize_source :
  MAX_STR_LEN < strlen (many (2 ^ 54))
  /\ exists h' x',
       xs_new 32 heap0 xs_literal_empty (many (2 ^ 54)) = Ok (h', x')
       /\ live h' = [(4096, 2 ^ 60 + 4)]
       /\ xs_is_large_string x' = true
       /\ xs_size x' = 0.
Proof.
  assert (Hs : strlen (many (2 ^ 54)) = 2 ^ 54) by (apply strlen_many; lia).
  split; [rewrite Hs; unfold MAX_STR_LEN, MAX_STR_LEN_BITS; lia|].
  destruct (xs_new_large 32 heap0 (many (2 ^ 54))) as (h' & E & Hl);
    try (rewrite Hs; cbn; lia); try (cbn; lia).
  exists h', (set_size_field (fresh_cell (brk heap0) true) (strlen (many (2 ^ 54)))).
  split; [exact E|]. split; [exact Hl|]. rewrite Hs. split; reflexivity.
Qed.

(** C8, as amended.  The limit is checked for string literals built through
    [xs_tmp], by the static assertion on [sizeof]: a literal whose size,
    terminator included, exceeds [MAX_STR_LEN] is rejected when the program
    is compiled; nothing runs, so nothing is allocated or written. *)
Theorem xs_tmp_rejects_oversize_literal (clz0 : Z) (h : heap) (l : list Z) :
  MAX_STR_LEN < Z.of_nat (length l) + 1 ->
  xs_tmp clz0 h l = None.
Proof.
  intros H. unfold xs_tmp.
  destruct (Z.leb_spec (Z.of_nat (length l) + 1) MAX_STR_LEN); [lia|reflexivity].
Qed.

Lemma xs_tmp_rejects_oversize_literal_witness :
  xs_tmp 32 heap47 (many (2 ^ 54)) = None.
Proof.
  apply (xs_tmp_rejects_oversize_literal 32 heap47 (many (2 ^ 54))).
  unfold many. rewrite length_replicate, Z2Nat.id by lia.
  unfold MAX_STR_LEN, MAX_STR_LEN_BITS. lia.
Defined.

(** ** Growth *)

(** C5. [xs_grow] copies [xs_size(x)] bytes after [xs_allocate] has reset the
    cell, when the size reads 0: nothing is copied and the length is lost.
    Growing the 3-byte value "abc" to 16, in every heap, leaves a heap value
    of length 0 with no content (capacity 2^60 - 1). *)
Theorem xs_grow_drops_content (clz0 : Z) (h : heap) :
  exists x,
    xs_new clz0 h xs_literal_empty (lit "abc") = Ok (h, x)
    /\ xs_size x = 3 /\ xs_content h x = Ok (lit "abc")
    /\ xs_capacity x = 15
    /\ exists h' x',
         xs_grow clz0 h x 16 = Ok (h', x')
         /\ xs_size x' = 0 /\ xs_content h' x' = Ok []
         /\ xs_capacity x' = 2 ^ 60 - 1.
Proof.
  exists (Xs [97; 98; 99; 0; 0; 0; 0; 0; 0; 0; 0; 0; 0; 0; 0] 12).
  split; [reflexivity|]. do 3 (split; [reflexivity|]).
  unfold xs_grow.
  change (16 <=? xs_capacity _) with false. cbv iota.
  change (xs_is_ptr (Xs [97; 98; 99; 0; 0; 0; 0; 0; 0; 0; 0; 0; 0; 0; 0] 12))
    with false. cbv iota.
  rewrite xs_allocate_not_ptr by reflexivity.
  change (16 >=? LARGE_STRING_LEN) with false.
  change (16 >? STACK_SIZE) with true. cbv iota.
  destruct (malloc h (2 ^ 60)) as [h1 p].
  exists h1, (fresh_cell p false).
  repeat split; reflexivity.
Qed.

(** The same for every inline value and every request above 15: the value
    [xs_grow] returns has length 0. *)
Lemma xs_grow_inline_length clz0 h x len h' x' :
  xs_is_ptr x = false -> 15 < len ->
  xs_grow clz0 h x len = Ok (h', x') ->
  xs_size x' = 0 /\ xs_is_ptr x' = true.
Proof.
  intros Hp Hlen. unfold xs_grow, xs_capacity. rewrite Hp.
  destruct (Z.leb_spec len 15); [lia|].
  destruct (xs_allocate clz0 h x len) as [[h1 x1]|] eqn:Ea;
    cbn [mbind result_bind]; [|discriminate].
  apply xs_allocate_capacity_field in Ea; [|assumption|lia].
  destruct Ea as (Hp1 & _ & _ & Hs1). rewrite Hs1.
  unfold memcpy, load, store. cbn [Z.eqb orb mbind result_bind Z.to_nat
    load_bytes length Z.of_nat store_bytes].
  intros [= _ <-]. auto.
Qed.

(** ** Copying a large value *)

(** C2. [xs_cpy] chooses by the length of the source, not by its
    [is_large_string] flag.  A large value trimmed to 9 bytes is copied bit
    for bit with no increment: two cells point at one buffer whose count
    stays 1.  A large value trimmed to 18 bytes is copied into a new block,
    the count stays 1, and the copy, whose size field is never set, shows
    no content. *)
Theorem xs_cpy_of_short_large_value (clz0 : Z) :
  copy_of_trimmed clz0 (padded 300 "foobarbar")
  = Ok (true, 9, 1, 1, true, 1%nat, lit "foobarbar", lit "foobarbar")
  /\ copy_of_trimmed clz0 (padded 300 "foobarbarfoobarbar")
     = Ok (true, 18, 1, 1, false, 2%nat, lit "foobarbarfoobarbar", []).
Proof.
  rewrite !(copy_of_trimmed_clz clz0 32). split; vm_compute; reflexivity.
Qed.

(** ** Concatenation onto a shared value *)

(** C1. A 300-byte value is copied, so that two values share its buffer
    (count 2, length 300), and the copy is concatenated with an empty prefix
    and an empty suffix.  [xs_cow_lazy_copy] clears [is_ptr] before it reads
    [xs_size], which then reads the inline encoding (0): the copy becomes an
    inline value of length 0 holding one byte of the old content, and
    [xs_concat] goes on to move the 300 bytes it measured beforehand inside
    the 16-byte cell.  That is in [heap0], where [malloc] grants the block
    of 2^60 + 4 bytes; in [heap47], where it does not, a concatenation of
    three inline values to 16 bytes already copies through NULL + 3. *)
Theorem xs_concat_on_shared_value (clz0 : Z) :
  shared_concat clz0
  = Ok (2, 300, many 300,
        Ok (Xs [97; 0; 0; 0; 0; 0; 0; 0; 0; 0; 0; 0; 0; 0; 0] 15, 0, true),
        Err (BadAccess (InCell 0)))
  /\ concat_to_16 clz0 heap47 = Err (BadAccess (InHeap 3)).
Proof.
  rewrite (shared_concat_clz clz0 32), (concat_to_16_clz clz0 32).
  split; vm_compute; reflexivity.
Qed.

(** With room for the block, the same three values give the 16 bytes. *)
Example concat_to_16_in_heap0 :
  concat_to_16 32 heap0 = Ok (lit "abc0123456789def", 16).
Proof. vm_compute. reflexivity. Qed.

(** ** Capacity against length *)

(** C4. The copy [y] of a 16-byte medium value has length 0 and a buffer
    that starts with the byte '0' (0x30).  Used as the suffix of a full
    (15-byte) inline value [t], its first byte is copied as the terminator
    into byte 15 of [t], which holds the flags: [is_ptr] becomes set, the
    length 15 is written to the size field, and the capacity field reads 1.
    Before the call both values have length at most capacity; after it [t]
    has length 15 and capacity 1. *)
Theorem xs_concat_breaks_capacity_bound (clz0 : Z) :
  concat_copy_suffix clz0 = Ok (0, 2 ^ 60 - 1, 15, 15, 15, 1).
Proof. rewrite (concat_copy_suffix_clz clz0 32). vm_compute. reflexivity. Qed.

(** ** Capacity under [xs_trim] *)

(** Where the capacity is kept: when the copy-on-write check finds nothing
    to copy (the value is not large, or its count is at most 1), a run of
    [xs_trim] that returns leaves the capacity as it was, keeps the value
    inline or heap-backed as it was, keeps the pointer of a heap-backed
    value, and neither allocates nor frees a block. *)
Theorem xs_trim_keeps_capacity_when_unshared
    (clz0 : Z) (h : heap) (x : xs) (trimset : list Z) (h' : heap) (x' : xs) :
  xs_wf x ->
  unshared h x ->
  xs_trim clz0 h x trimset = Ok (h', x') ->
  xs_capacity x' = xs_capacity x
  /\ xs_is_ptr x' = xs_is_ptr x
  /\ (xs_is_ptr x = true -> xs_ptr x' = xs_ptr x)
  /\ live h' = live h.
Proof.
  intros Hwf Hu Ht.
  destruct (cstr_is_empty trimset) eqn:He.
  { unfold xs_trim in Ht. rewrite He in Ht. injection Ht as <- <-. auto. }
  apply xs_trim_ok in Ht; [|exact He].
  destruct Ht as (h0 & x0 & b0 & i & s & h1 & x1 & bt & h2 & x2
                  & Hc & Hi & Hs & Hm & Hb & Ht & -> & ->).
  rewrite (xs_cow_lazy_copy_unshared clz0 h x Hu) in Hc.
  injection Hc as <- <- <-.
  destruct (xs_trim_body_frame _ _ _ _ _ _ _ _ _ _ Hi Hs Hm Hb Ht)
    as (Hl & Hheap & Hcell).
  destruct (xs_is_ptr x) eqn:Hp.
  - rewrite (Hheap eq_refl). unfold xs_set_size. rewrite Hp. cbn [negb].
    unfold xs_capacity.
    rewrite is_ptr_set_size_field, Hp, capacity_field_set_size_field
      by apply Hwf.
    repeat split; try assumption.
    intros _. apply xs_ptr_set_size_field, Hwf.
  - destruct (Hcell eq_refl) as (-> & Hn & Hp2 & _).
    unfold xs_set_size. rewrite Hp2. cbn [negb].
    unfold xs_capacity. rewrite is_ptr_set_space_left, Hp2, Hp.
    repeat split; try assumption. discriminate.
Qed.

(** The literal of [main], trimmed with its set, in place inside the cell. *)
Lemma xs_trim_keeps_capacity_when_unshared_witness :
  xs_trim 32 heap47
    (Xs [10; 32; 102; 111; 111; 98; 97; 114; 98; 97; 114; 32; 10; 10; 10] 0)
    [10; 32]
  = Ok (heap47,
        Xs [102; 111; 111; 98; 97; 114; 98; 97; 114; 0; 114; 32; 10; 10; 10] 6)
  /\ xs_capacity
       (Xs [102; 111; 111; 98; 97; 114; 98; 97; 114; 0; 114; 32; 10; 10; 10] 6)
     = xs_capacity
         (Xs [10; 32; 102; 111; 111; 98; 97; 114; 98; 97; 114; 32; 10; 10; 10] 0).
Proof.
  assert (E : xs_trim 32 heap47
    (Xs [10; 32; 102; 111; 111; 98; 97; 114; 98; 97; 114; 32; 10; 10; 10] 0)
    [10; 32]
  = Ok (heap47,
        Xs [102; 111; 111; 98; 97; 114; 98; 97; 114; 0; 114; 32; 10; 10; 10] 6))
    by (vm_compute; reflexivity).
  split; [exact E|].
  refine (proj1 (xs_trim_keeps_capacity_when_unshared 32 heap47
            (Xs [10; 32; 102; 111; 111; 98; 97; 114; 98; 97; 114; 32; 10; 10; 10] 0)
            [10; 32] heap47
            (Xs [102; 111; 111; 98; 97; 114; 98; 97; 114; 0; 114; 32; 10; 10; 10] 6)
            _ _ E)).
  - unfold xs_wf, is_byte; cbn. split; [reflexivity|]. split; [|lia].
    repeat (apply Forall_cons; split; [lia|]). apply Forall_nil_2.
  - exists 0. split; [reflexivity|lia].
Defined.

(** C9. [xs_trim] changes the capacity of a shared value: a 300-byte value
    is copied and the copy trimmed with the set "b" (no byte of the content
    is in the set).  The capacity of the copy is 2^60 - 1 before the call
    and 15 after it, its length is 0 and its content empty, while the other
    value keeps its 300 bytes: [xs_cow_lazy_copy] reads [xs_size] after it
    has cleared [is_ptr], allocates for a length of 0, and leaves an inline
    value, although [xs_trim] means not to shrink the buffer in place.
    This holds whatever [__builtin_clz(0)] is. *)
Theorem xs_trim_on_shared_value_changes_capacity (clz0 : Z) :
  shared_trim clz0 = Ok (2 ^ 60 - 1, 15, 0, [], many 300).
Proof. rewrite (shared_trim_clz clz0 32). vm_compute. reflexivity. Qed.

(** ** Idempotence of [xs_trim] *)

(** Where the second call repeats the first: if [xs_trim(x, set)] returns,
    a second [xs_trim] with the same set on the value it left returns too,
    and leaves the same length and the same content.  ([x] is a 16-byte
    cell whose inline form carries no large flag, in a heap whose blocks
    lie in the 64-bit address space; for a non-empty set the content is
    readable.) *)
Theorem xs_trim_idempotent
    (clz0 : Z) (h : heap) (x : xs) (trimset : list Z) (h1 : heap) (x1 : xs) :
  xs_wf x -> flags_ok x -> heap_ok h ->
  xs_trim clz0 h x trimset = Ok (h1, x1) ->
  exists h2 x2,
    xs_trim clz0 h1 x1 trimset = Ok (h2, x2)
    /\ xs_size x2 = xs_size x1
    /\ xs_content h2 x2 = xs_content h1 x1
    /\ (cstr_is_empty trimset = false -> is_ok (xs_content h1 x1) = true).
Proof.
  intros Hwf Hfl Hok Ht.
  destruct (cstr_is_empty trimset) eqn:He.
  - unfold xs_trim in *. rewrite He in *. injection Ht as <- <-.
    exists h, x. repeat split. discriminate.
  - destruct (xs_trim_result _ _ _ _ _ _ Hwf Hfl Hok He Ht) as [Hts Hu].
    destruct (xs_trim_on_trimmed_state clz0 h1 x1 trimset He Hu Hts)
      as (h2 & x2 & E & Hsz & Hc1 & Hc2).
    exists h2, x2. split; [exact E|]. split; [exact Hsz|].
    split; [now rewrite Hc1, Hc2|]. intros _. now rewrite Hc1.
Qed.

Lemma heap_ok_heap47 : heap_ok heap47.
Proof. apply Forall_nil_2. Qed.

(** The literal of [main], trimmed with its set, and trimmed again. *)
Lemma xs_trim_idempotent_witness :
  xs_trim 32 heap47
    (Xs [10; 32; 102; 111; 111; 98; 97; 114; 98; 97; 114; 32; 10; 10; 10] 0)
    [10; 32]
  = Ok (heap47,
        Xs [102; 111; 111; 98; 97; 114; 98; 97; 114; 0; 114; 32; 10; 10; 10] 6)
  /\ exists h2 x2,
       xs_trim 32 heap47
         (Xs [102; 111; 111; 98; 97; 114; 98; 97; 114; 0; 114; 32; 10; 10; 10] 6)
         [10; 32]
       = Ok (h2, x2)
       /\ xs_size x2 = 9
       /\ xs_content h2 x2 = Ok (lit "foobarbar").
Proof.
  assert (E : xs_trim 32 heap47
    (Xs [10; 32; 102; 111; 111; 98; 97; 114; 98; 97; 114; 32; 10; 10; 10] 0)
    [10; 32]
  = Ok (heap47,
        Xs [102; 111; 111; 98; 97; 114; 98; 97; 114; 0; 114; 32; 10; 10; 10] 6))
    by (vm_compute; reflexivity).
  split; [exact E|].
  destruct (xs_trim_idempotent 32 heap47
              (Xs [10; 32; 102; 111; 111; 98; 97; 114; 98; 97; 114; 32; 10; 10; 10] 0)
              [10; 32] heap47
              (Xs [102; 111; 111; 98; 97; 114; 98; 97; 114; 0; 114; 32; 10; 10; 10] 6))
    as (h2 & x2 & E2 & Hsz & Hc & _).
  - unfold xs_wf, is_byte; cbn. split; [reflexivity|]. split; [|lia].
    repeat (apply Forall_cons; split; [lia|]). apply Forall_nil_2.
  - intros _. reflexivity.
  - exact heap_ok_heap47.
  - exact E.
  - exists h2, x2. split; [exact E2|]. split; [exact Hsz|]. exact Hc.
Defined.

(** C6. [xs_trim] is not idempotent on every value, because it does not
    return on every value: [xs_new] builds the inline value of three
    spaces, and the first [xs_trim] of it with the set " " does not come
    back.  Every byte is in the set, so the forward scan ends at the length
    and the backward scan at 0, [slen -= i] wraps around, and [memmove] is
    asked for 2^64 - 3 bytes from the end of the content.  There is no
    trimmed value for a second call to repeat.  This holds whatever
    [__builtin_clz(0)] is. *)
Theorem xs_trim_of_blank_value (clz0 : Z) :
  xs_new clz0 heap47 xs_literal_empty (lit "   ")
  = Ok (heap47, Xs [32; 32; 32; 0; 0; 0; 0; 0; 0; 0; 0; 0; 0; 0; 0] 12)
  /\ xs_trim clz0 heap47
       (Xs [32; 32; 32; 0; 0; 0; 0; 0; 0; 0; 0; 0; 0; 0; 0] 12) (lit " ")
     = Err (BadAccess (InCell 3)).
Proof.
  rewrite (xs_new_clz clz0 32) by reflexivity. rewrite (xs_trim_clz clz0 32).
  split; vm_compute; reflexivity.
Qed.

(* ================================================================= *)
(** * Further properties *)

(** ** [ilog2] *)

Lemma ilog2_log2 clz0 n : 1 <= n < 2 ^ 32 -> ilog2 clz0 n = Z.log2 n.
Proof.
  intros H. unfold ilog2, builtin_clz. rewrite Z.mod_small by lia.
  destruct (Z.eqb_spec n 0); lia.
Qed.

(** For a non-zero 32-bit argument [ilog2] is the floor of the binary
    logarithm, whatever [__builtin_clz(0)] is; so [k = ilog2(n) + 1] is the
    least exponent with [n <= 2^k - 1]. *)
Theorem ilog2_is_floor_log2 (clz0 n : Z) :
  1 <= n < 2 ^ 32 ->
  0 <= ilog2 clz0 n <= 31
  /\ 2 ^ ilog2 clz0 n <= n < 2 ^ (ilog2 clz0 n + 1)
  /\ n <= 2 ^ (ilog2 clz0 n + 1) - 1
  /\ 2 ^ ilog2 clz0 n - 1 < n.
Proof.
  intros H. rewrite ilog2_log2 by assumption.
  pose proof (Z.log2_spec n ltac:(lia)) as Hs.
  pose proof (Z.log2_nonneg n) as Hn.
  assert (Z.log2 n < 32) by (apply Z.log2_lt_pow2; lia).
  replace (Z.log2 n + 1) with (Z.succ (Z.log2 n)) by lia. lia.
Qed.

Lemma ilog2_is_floor_log2_witness :
  0 <= ilog2 0 300 <= 31
  /\ 2 ^ ilog2 0 300 <= 300 < 2 ^ (ilog2 0 300 + 1)
  /\ 300 <= 2 ^ (ilog2 0 300 + 1) - 1
  /\ 2 ^ ilog2 0 300 - 1 < 300.
Proof. apply (ilog2_is_floor_log2 0 300). lia. Defined.

(** The argument is a [uint32_t]: a length of 2^32 or more is reduced
    modulo 2^32 before the logarithm is taken. *)
Theorem ilog2_truncates_to_32_bits (clz0 n : Z) :
  ilog2 clz0 (n + 2 ^ 32) = ilog2 clz0 n.
Proof.
  unfold ilog2. f_equal. f_equal. f_equal.
  rewrite <- (Z.mul_1_l (2 ^ 32)) at 1. apply Z.mod_add. lia.
Qed.

(** ** [xs_set_size] and the accessors *)

Lemma xs_capacity_xs_set_size x n :
  length (filler x) = 15%nat -> xs_capacity (xs_set_size x n) = xs_capacity x.
Proof.
  intros Hl. unfold xs_set_size, xs_capacity.
  destruct (xs_is_ptr x) eqn:Hp; cbn [negb].
  - now rewrite is_ptr_set_size_field, Hp, capacity_field_set_size_field.
  - now rewrite is_ptr_set_space_left, Hp.
Qed.

Lemma is_ptr_xs_set_size x n : xs_is_ptr (xs_set_size x n) = xs_is_ptr x.
Proof.
  unfold xs_set_size. destruct (xs_is_ptr x) eqn:Hp; cbn [negb].
  - now rewrite is_ptr_set_size_field.
  - now rewrite is_ptr_set_space_left.
Qed.

(** Setting a length that the representation can hold (at most the
    capacity, and below 2^54) and reading it back gives that length; the
    capacity, the representation and the data pointer are as before. *)
Theorem xs_set_size_then_size (x : xs) (n : Z) :
  length (filler x) = 15%nat ->
  0 <= n <= xs_capacity x -> n < 2 ^ 54 ->
  xs_size (xs_set_size x n) = n
  /\ xs_capacity (xs_set_size x n) = xs_capacity x
  /\ xs_is_ptr (xs_set_size x n) = xs_is_ptr x
  /\ xs_is_large_string (xs_set_size x n) = xs_is_large_string x
  /\ xs_data (xs_set_size x n) = xs_data x.
Proof.
  intros Hl Hn Hb.
  split; [|split; [|split; [|split]]].
  - apply xs_size_xs_set_size; try assumption; try lia.
    intros Hp. unfold xs_capacity in Hn. rewrite Hp in Hn. lia.
  - now apply xs_capacity_xs_set_size.
  - apply is_ptr_xs_set_size.
  - apply is_large_xs_set_size.
  - now apply xs_data_xs_set_size.
Qed.

Lemma xs_set_size_then_size_witness :
  xs_size (xs_set_size (fresh_cell 4096 true) 300) = 300
  /\ xs_capacity (xs_set_size (fresh_cell 4096 true) 300)
     = xs_capacity (fresh_cell 4096 true)
  /\ xs_is_ptr (xs_set_size (fresh_cell 4096 true) 300)
     = xs_is_ptr (fresh_cell 4096 true)
  /\ xs_is_large_string (xs_set_size (fresh_cell 4096 true) 300)
     = xs_is_large_string (fresh_cell 4096 true)
  /\ xs_data (xs_set_size (fresh_cell 4096 true) 300)
     = xs_data (fresh_cell 4096 true).
Proof.
  apply (xs_set_size_then_size (fresh_cell 4096 true) 300).
  - reflexivity.
  - vm_compute. split; discriminate.
  - lia.
Defined.

(** Past those bounds the length is cut to the width of its field: modulo
    2^54 in a heap-backed value, and to [15 - ((15 - n) mod 16)] in an
    inline one, where only four bits hold the free space. *)
Theorem xs_set_size_truncates (x : xs) (n : Z) :
  length (filler x) = 15%nat ->
  xs_size (xs_set_size x n)
  = if xs_is_ptr x then n mod 2 ^ 54 else 15 - (15 - n) mod 16.
Proof.
  intros Hl. unfold xs_set_size, xs_size, STACK_SIZE.
  destruct (xs_is_ptr x) eqn:Hp; cbn [negb].
  - now rewrite is_ptr_set_size_field, Hp, size_field_set_size_field.
  - now rewrite is_ptr_set_space_left, Hp, space_left_set_space_left.
Qed.

Lemma xs_set_size_truncates_witness :
  xs_size (xs_set_size xs_literal_empty 16) = 0.
Proof.
  apply (xs_set_size_truncates xs_literal_empty 16). reflexivity.
Defined.

(** ** The reference count *)

Lemma le_decode_encode4 v : le_decode (le_encode 4 v) = v mod 2 ^ 32.
Proof. cbn -[Z.pow Z.div Z.modulo]. divmod. Qed.

Lemma to_int_small v : - 2 ^ 31 <= v < 2 ^ 31 -> to_int v = v.
Proof.
  intros H. unfold to_int. cbn zeta.
  destruct (Z.ltb_spec (v mod 2 ^ 32) (2 ^ 31)); divmod.
Qed.

Lemma to_int_range v : - 2 ^ 31 <= to_int v < 2 ^ 31.
Proof.
  unfold to_int. cbn zeta.
  destruct (Z.ltb_spec (v mod 2 ^ 32) (2 ^ 31)); divmod.
Qed.

Lemma to_int_mod v : to_int (v mod 2 ^ 32) = to_int v.
Proof. unfold to_int. now rewrite Z.mod_mod by lia. Qed.

Lemma mem_get_write_int h a v h' b :
  write_int h a v = Ok h' -> b < a \/ a + 4 <= b -> mem_get h' b = mem_get h b.
Proof.
  unfold write_int. destruct (in_live h a 4); [|discriminate].
  intros [= <-] Hb. cbn -[Z.div Z.modulo].
  rewrite !mem_get_set_other by lia. reflexivity.
Qed.

Lemma read_int_write_int h a v h' :
  write_int h a v = Ok h' -> read_int h' a = Ok (to_int v).
Proof.
  intros Hw. pose proof (write_int_live _ _ _ _ Hw) as Hl.
  unfold write_int in Hw. unfold read_int, in_live in *. rewrite Hl.
  destruct (existsb _ _); [|discriminate]. injection Hw as <-.
  f_equal. rewrite <- (to_int_mod v), <- le_decode_encode4. f_equal.
  cbn -[Z.div Z.modulo].
  repeat (first [rewrite mem_get_set_same
                | rewrite mem_get_set_other by lia]).
  reflexivity.
Qed.

Lemma read_int_range h a c : read_int h a = Ok c -> - 2 ^ 31 <= c < 2 ^ 31.
Proof.
  unfold read_int. destruct (in_live h a 4); [|discriminate].
  intros [= <-]. apply to_int_range.
Qed.

Lemma write_int_after_read h a c v :
  read_int h a = Ok c -> exists h', write_int h a v = Ok h'.
Proof.
  unfold read_int. destruct (in_live h a 4) eqn:E; [|discriminate].
  intros _. now apply write_int_ok.
Qed.

(** On a large value whose count [c] is readable (and below [INT_MAX]):
    [xs_inc_refcnt] makes it [c + 1], [xs_dec_refcnt] then returns [c] and
    makes it [c] again.  Neither changes the table of live blocks nor any
    byte outside the four bytes of the count. *)
Theorem xs_refcnt_inc_dec (h : heap) (x : xs) (c : Z) :
  xs_is_large_string x = true ->
  xs_get_refcnt h x = Ok c -> c < 2 ^ 31 - 1 ->
  exists h1 h2,
    xs_inc_refcnt h x = Ok h1
    /\ xs_get_refcnt h1 x = Ok (c + 1)
    /\ xs_dec_refcnt h1 x = Ok (h2, c)
    /\ xs_get_refcnt h2 x = Ok c
    /\ live h2 = live h
    /\ (forall b, b < xs_ptr x \/ xs_ptr x + 4 <= b -> mem_get h2 b = mem_get h b).
Proof.
  intros Hl Hc Hmax. unfold xs_get_refcnt, xs_inc_refcnt, xs_dec_refcnt in *.
  rewrite Hl in *. cbn [negb] in *.
  pose proof (read_int_range _ _ _ Hc) as Hr.
  destruct (write_int_after_read h (xs_ptr x) c (c + 1) Hc) as [h1 Hw1].
  pose proof (read_int_write_int _ _ _ _ Hw1) as Hr1.
  rewrite to_int_small in Hr1 by lia.
  destruct (write_int_after_read h1 (xs_ptr x) (c + 1) (c + 1 - 1) Hr1) as [h2 Hw2].
  pose proof (read_int_write_int _ _ _ _ Hw2) as Hr2.
  replace (c + 1 - 1) with c in * by lia.
  rewrite to_int_small in Hr2 by lia.
  exists h1, h2. rewrite Hc. cbn [mbind result_bind]. rewrite Hw1, Hr1.
  cbn [mbind result_bind]. replace (c + 1 - 1) with c by lia.
  rewrite Hw2. cbn [mbind result_bind]. rewrite to_int_small by lia.
  repeat split; try assumption; try reflexivity.
  - rewrite (write_int_live _ _ _ _ Hw2). apply (write_int_live _ _ _ _ Hw1).
  - intros b Hb. rewrite (mem_get_write_int _ _ _ _ _ Hw2 Hb).
    apply (mem_get_write_int _ _ _ _ _ Hw1 Hb).
Qed.

Lemma xs_refcnt_inc_dec_witness :
  exists h1 h2,
    xs_inc_refcnt (heap_counted 1) large_cell = Ok h1
    /\ xs_get_refcnt h1 large_cell = Ok (1 + 1)
    /\ xs_dec_refcnt h1 large_cell = Ok (h2, 1)
    /\ xs_get_refcnt h2 large_cell = Ok 1
    /\ live h2 = live (heap_counted 1)
    /\ (forall b, b < xs_ptr large_cell \/ xs_ptr large_cell + 4 <= b ->
                  mem_get h2 b = mem_get (heap_counted 1) b).
Proof.
  apply (xs_refcnt_inc_dec (heap_counted 1) large_cell 1).
  - reflexivity.
  - vm_compute. reflexivity.
  - lia.
Defined.

(** ** [xs_free] *)

(** Whatever [xs_free] releases, it leaves the empty inline value (length
    0, capacity 15), and releasing that value again changes nothing: a
    second [xs_free] on the same cell cannot free the buffer twice. *)
Theorem xs_free_resets_cell (h : heap) (x : xs) (h' : heap) (x' : xs) :
  xs_free h x = Ok (h', x') ->
  x' = xs_literal_empty
  /\ xs_is_ptr x' = false /\ xs_size x' = 0 /\ xs_capacity x' = 15
  /\ xs_free h' x' = Ok (h', x').
Proof.
  intros H. apply xs_free_cell in H. subst x'. repeat split; reflexivity.
Qed.

Lemma xs_free_resets_cell_witness :
  xs_free (heap_counted 1) large_cell
  = Ok (Heap (<[4099 := 0]> (<[4098 := 0]> (<[4097 := 0]> (<[4096 := 0]>
              (<[4096 := 1]> ∅))))) [] (4096 + (2 ^ 60 + 4)) (2 ^ 62),
        xs_literal_empty)
  /\ xs_free (Heap (<[4099 := 0]> (<[4098 := 0]> (<[4097 := 0]> (<[4096 := 0]>
              (<[4096 := 1]> ∅))))) [] (4096 + (2 ^ 60 + 4)) (2 ^ 62))
       xs_literal_empty
     = Ok (Heap (<[4099 := 0]> (<[4098 := 0]> (<[4097 := 0]> (<[4096 := 0]>
              (<[4096 := 1]> ∅))))) [] (4096 + (2 ^ 60 + 4)) (2 ^ 62),
           xs_literal_empty).
Proof.
  assert (E : xs_free (heap_counted 1) large_cell
  = Ok (Heap (<[4099 := 0]> (<[4098 := 0]> (<[4097 := 0]> (<[4096 := 0]>
              (<[4096 := 1]> ∅))))) [] (4096 + (2 ^ 60 + 4)) (2 ^ 62),
        xs_literal_empty)) by reflexivity.
  split; [exact E|].
  exact (proj2 (proj2 (proj2 (proj2 (xs_free_resets_cell _ _ _ _ E))))).
Defined.

(** Releasing one of several values that share a large buffer (count
    [c >= 2]) lowers the count to [c - 1] and frees nothing: the block
    stays live and every byte outside the count is as before. *)
Theorem xs_free_of_shared_value (h : heap) (x : xs) (c : Z) :
  xs_is_ptr x = true -> xs_is_large_string x = true ->
  xs_get_refcnt h x = Ok c -> 2 <= c ->
  exists h',
    xs_free h x = Ok (h', xs_literal_empty)
    /\ live h' = live h
    /\ xs_get_refcnt h' x = Ok (c - 1)
    /\ (forall b, b < xs_ptr x \/ xs_ptr x + 4 <= b -> mem_get h' b = mem_get h b).
Proof.
  intros Hp Hl Hc Hge. unfold xs_free, xs_get_refcnt, xs_dec_refcnt in *.
  rewrite Hp, Hl in *. cbn [negb] in *.
  pose proof (read_int_range _ _ _ Hc) as Hr.
  destruct (write_int_after_read h (xs_ptr x) c (c - 1) Hc) as [h1 Hw].
  rewrite Hc. cbn [mbind result_bind]. rewrite Hw. cbn [mbind result_bind].
  rewrite to_int_small by lia.
  destruct (Z.leb_spec (c - 1) 0); [lia|]. cbn [mbind result_bind].
  exists h1. split; [reflexivity|]. split; [|split].
  - now apply write_int_live in Hw.
  - rewrite (read_int_write_int _ _ _ _ Hw). now rewrite to_int_small by lia.
  - intros b Hb. apply (mem_get_write_int _ _ _ _ _ Hw Hb).
Qed.

Lemma xs_free_of_shared_value_witness :
  exists h',
    xs_free (heap_counted 3) large_cell = Ok (h', xs_literal_empty)
    /\ live h' = live (heap_counted 3)
    /\ xs_get_refcnt h' large_cell = Ok (3 - 1)
    /\ (forall b, b < xs_ptr large_cell \/ xs_ptr large_cell + 4 <= b ->
                  mem_get h' b = mem_get (heap_counted 3) b).
Proof.
  apply (xs_free_of_shared_value (heap_counted 3) large_cell 3).
  - reflexivity.
  - reflexivity.
  - vm_compute. reflexivity.
  - lia.
Defined.

Lemma xs_free_last_owner h x :
  xs_is_ptr x = true ->
  (xs_is_large_string x = true -> xs_get_refcnt h x = Ok 1) ->
  xs_ptr x <> 0 ->
  existsb (is_base (xs_ptr x)) (live h) = true ->
  exists h',
    xs_free h x = Ok (h', xs_literal_empty)
    /\ live h' = filter (fun b => negb (is_base (xs_ptr x) b)) (live h)
    /\ existsb (is_base (xs_ptr x)) (live h') = false.
Proof.
  intros Hp Hc Hnz Hbase. unfold xs_free, xs_get_refcnt, xs_dec_refcnt in *.
  rewrite Hp. 
  assert (Hfilter : forall l : list (Z * Z),
             existsb (is_base (xs_ptr x))
               (filter (fun b => negb (is_base (xs_ptr x) b)) l) = false).
  { intros l. apply not_true_is_false. rewrite existsb_exists.
    intros (b & Hin & Hb). apply list_elem_of_In, list_elem_of_filter in Hin.
    destruct Hin as [Hn _]. rewrite Hb in Hn. cbn in Hn. now apply Hn. }
  destruct (xs_is_large_string x) eqn:Hl; cbn [negb] in *.
  - specialize (Hc eq_refl).
    destruct (write_int_after_read h (xs_ptr x) 1 (1 - 1) Hc) as [h1 Hw].
    rewrite Hc. cbn [mbind result_bind]. rewrite Hw. cbn [mbind result_bind].
    change (to_int (1 - 1) <=? 0) with true. cbv iota.
    pose proof (write_int_live _ _ _ _ Hw) as Hlive.
    unfold free. destruct (Z.eqb_spec (xs_ptr x) 0); [contradiction|].
    rewrite Hlive, Hbase. cbn [mbind result_bind].
    eexists. split; [reflexivity|]. cbn [live]. split; [reflexivity|].
    apply Hfilter.
  - cbn [mbind result_bind]. change (0 <=? 0) with true. cbv iota.
    unfold free. destruct (Z.eqb_spec (xs_ptr x) 0); [contradiction|].
    rewrite Hbase. cbn [mbind result_bind].
    eexists. split; [reflexivity|]. cbn [live]. split; [reflexivity|].
    apply Hfilter.
Qed.

(** Releasing the only owner of a buffer (a medium value, or a large value
    whose count is 1) whose pointer is the base of a live block removes
    that block from the live blocks. *)
Theorem xs_free_of_last_owner (h : heap) (x : xs) :
  xs_is_ptr x = true ->
  (xs_is_large_string x = true -> xs_get_refcnt h x = Ok 1) ->
  xs_ptr x <> 0 ->
  existsb (is_base (xs_ptr x)) (live h) = true ->
  exists h',
    xs_free h x = Ok (h', xs_literal_empty)
    /\ live h' = filter (fun b => negb (is_base (xs_ptr x) b)) (live h)
    /\ existsb (is_base (xs_ptr x)) (live h') = false.
Proof. apply xs_free_last_owner. Qed.

Lemma xs_free_of_last_owner_witness :
  exists h',
    xs_free (heap_counted 1) large_cell = Ok (h', xs_literal_empty)
    /\ live h'
       = filter (fun b => negb (is_base (xs_ptr large_cell) b))
                (live (heap_counted 1))
    /\ existsb (is_base (xs_ptr large_cell)) (live h') = false.
Proof.
  apply (xs_free_of_last_owner (heap_counted 1) large_cell).
  - reflexivity.
  - intros _. vm_compute. reflexivity.
  - vm_compute. discriminate.
  - reflexivity.
Defined.

(** ** [xs_allocate] *)

(** The size classes of [xs_allocate] on a value that is not heap-backed,
    when it returns: below 16 bytes the heap is untouched and the value is
    the empty inline literal; from 16 to 255 the value is medium; from 256
    on it is large and its count reads 1.  The length is 0 in each case. *)
Theorem xs_allocate_size_classes
    (clz0 : Z) (h : heap) (x : xs) (len : Z) (h' : heap) (x' : xs) :
  xs_is_ptr x = false ->
  xs_allocate clz0 h x len = Ok (h', x') ->
  xs_size x' = 0
  /\ (len < 16 -> h' = h /\ x' = xs_literal_empty)
  /\ (16 <= len < 256 ->
      xs_is_ptr x' = true /\ xs_is_large_string x' = false)
  /\ (256 <= len ->
      xs_is_ptr x' = true /\ xs_is_large_string x' = true
      /\ xs_get_refcnt h' x' = Ok 1).
Proof.
  intros Hp. rewrite xs_allocate_not_ptr by assumption.
  unfold LARGE_STRING_LEN, STACK_SIZE.
  destruct (Z.geb_spec len 256) as [Hge|Hlt].
  - destruct (malloc h (2 ^ 60 + 4)) as [h1 p].
    destruct (write_int h1 (p mod 2 ^ 64) 1) as [h2|] eqn:Hw;
      cbn [mbind result_bind]; [|discriminate].
    intros [= <- <-]. split; [reflexivity|].
    split; [lia|]. split; [lia|]. intros _.
    split; [reflexivity|]. split; [reflexivity|].
    unfold xs_get_refcnt.
    change (xs_is_large_string (fresh_cell p true)) with true. cbn [negb].
    rewrite xs_ptr_fresh_cell. apply (read_int_write_int _ _ _ _ Hw).
  - destruct (Z.gtb_spec len 15).
    + destruct (malloc h (2 ^ 60)) as [h1 p]. intros [= <- <-].
      split; [reflexivity|]. split; [lia|]. split; [|lia].
      intros _. split; reflexivity.
    + intros [= <- <-]. split; [reflexivity|]. split; [auto|]. split; lia.
Qed.

Lemma xs_allocate_size_classes_witness :
  xs_allocate 32 heap0 xs_literal_empty 16
  = Ok (Heap ∅ [(4096, 2 ^ 60)] (4096 + 2 ^ 60) (2 ^ 62), fresh_cell 4096 false)
  /\ xs_is_ptr (fresh_cell 4096 false) = true
  /\ xs_is_large_string (fresh_cell 4096 false) = false.
Proof.
  assert (E : xs_allocate 32 heap0 xs_literal_empty 16
    = Ok (Heap ∅ [(4096, 2 ^ 60)] (4096 + 2 ^ 60) (2 ^ 62), fresh_cell 4096 false))
    by reflexivity.
  split; [exact E|].
  refine (proj1 (proj2 (proj2 (xs_allocate_size_classes 32 heap0 xs_literal_empty 16
            _ _ eq_refl E))) _).
  lia.
Defined.

(** ** C strings *)

Lemma strlen_range p : 0 <= strlen p <= Z.of_nat (length p).
Proof.
  induction p as [|b p IH]; cbn [strlen length]; [lia|].
  destruct (b =? 0); lia.
Qed.

Lemma cstr_bytes_content p :
  cstr_bytes p (strlen p) = cstr_content p.
Proof.
  unfold cstr_bytes, cstr_content. pose proof (strlen_range p).
  rewrite take_app_le by lia. reflexivity.
Qed.

Lemma take_strlen_pad p : forall m, (1 <= m)%nat ->
  take (Z.to_nat (strlen p + 1)) (p ++ replicate m 0) = cstr_content p ++ [0].
Proof.
  unfold cstr_content.
  induction p as [|b p IH]; intros m Hm; cbn [strlen].
  - destruct m; [lia|]. reflexivity.
  - destruct (Z.eqb_spec b 0) as [->|Hb]; [reflexivity|].
    pose proof (strlen_range p).
    replace (Z.to_nat (1 + strlen p + 1)) with (S (Z.to_nat (strlen p + 1))) by lia.
    replace (Z.to_nat (1 + strlen p)) with (S (Z.to_nat (strlen p))) by lia.
    cbn [app take]. now rewrite IH.
Qed.

Lemma cstr_bytes_terminated p :
  cstr_bytes p (strlen p + 1) = cstr_content p ++ [0].
Proof.
  unfold cstr_bytes. apply take_strlen_pad. pose proof (strlen_range p). lia.
Qed.

Lemma length_cstr_content p : length (cstr_content p) = Z.to_nat (strlen p).
Proof.
  unfold cstr_content. pose proof (strlen_range p). rewrite length_take. lia.
Qed.

(** A list is what [load_bytes] reads when it agrees with the bytes there. *)
Lemma load_bytes_eq h x n : forall p l,
  length l = n ->
  (forall k, (k < n)%nat -> get1 h x (padd p (Z.of_nat k)) = nth k l 0) ->
  load_bytes h x p n = l.
Proof.
  induction n as [|n IH]; intros p l Hl H.
  - destruct l; [reflexivity|discriminate].
  - destruct l as [|b l]; [discriminate|]. cbn [load_bytes]. f_equal.
    + specialize (H 0%nat ltac:(lia)). cbn in H. now rewrite padd_0 in H.
    + apply IH; [cbn in Hl; lia|].
      intros k Hk. specialize (H (S k) ltac:(lia)). cbn [nth] in H.
      rewrite padd_padd. rewrite <- H. do 2 f_equal. lia.
Qed.

(** ** [xs_new] *)

Lemma nth_content_terminator p k :
  (k <= Z.to_nat (strlen p))%nat ->
  nth k (cstr_content p ++ [0]) 0
  = if (k <? Z.to_nat (strlen p))%nat then nth k (cstr_content p) 0 else 0.
Proof.
  intros Hk. pose proof (length_cstr_content p) as Hl.
  destruct (Nat.ltb_spec k (Z.to_nat (strlen p))).
  - apply app_nth1. lia.
  - rewrite app_nth2 by lia. replace (k - length (cstr_content p))%nat with 0%nat by lia.
    reflexivity.
Qed.

(** Construction from at most 15 bytes, over any value that is not
    heap-backed: the heap is not touched, the value is inline with capacity
    15, its length is [strlen], its content the bytes before the terminator,
    and a zero byte follows the content. *)
Theorem xs_new_inline_round_trip (clz0 : Z) (h : heap) (x : xs) (p : list Z) :
  xs_is_ptr x = false -> strlen p <= 15 ->
  exists x',
    xs_new clz0 h x p = Ok (h, x')
    /\ xs_is_ptr x' = false
    /\ xs_size x' = strlen p
    /\ xs_capacity x' = 15
    /\ xs_content h x' = Ok (cstr_content p)
    /\ get1 h x' (padd (xs_data x') (strlen p)) = 0.
Proof.
  intros Hp Hlen. pose proof (strlen_range p) as Hs.
  unfold xs_new. rewrite xs_allocate_not_ptr by assumption.
  unfold LARGE_STRING_LEN, STACK_SIZE.
  destruct (Z.geb_spec (strlen p) 256); [lia|].
  destruct (Z.gtb_spec (strlen p) 15); [lia|].
  cbn [mbind result_bind].
  change (xs_data xs_literal_empty) with (InCell 0).
  rewrite cstr_bytes_terminated.
  set (bs := cstr_content p ++ [0]).
  assert (Hbl : Z.of_nat (length bs) = strlen p + 1).
  { unfold bs. rewrite length_app, length_cstr_content. cbn. lia. }
  unfold store. rewrite Hbl.
  assert (Hr : ok_range h (InCell 0) (strlen p + 1) = true).
  { unfold ok_range. rewrite andb_true_iff, !Z.leb_le. lia. }
  rewrite Hr, orb_true_r. cbn [mbind result_bind].
  destruct (store_bytes (h, xs_literal_empty) (InCell 0) bs) as [h1 x1] eqn:Es.
  assert (Hh1 : h1 = h).
  { pose proof (store_bytes_cell_heap (h, xs_literal_empty) 0 bs) as E.
    now rewrite Es in E. }
  subst h1.
  assert (Hl1 : length (filler x1) = 15%nat).
  { pose proof (store_bytes_length_filler (h, xs_literal_empty) (InCell 0) bs) as E.
    now rewrite Es in E. }
  assert (Hget : forall k, 0 <= k <= strlen p ->
                   get1 h x1 (InCell k) = nth (Z.to_nat k) bs 0).
  { intros k Hk.
    pose proof (get_at_store_bytes_in bs (h, xs_literal_empty) (InCell 0) k
                  eq_refl) as G.
    rewrite Es in G. unfold get_at in G; cbn [fst snd padd] in G.
    rewrite Z.add_0_l in G. apply G; [|lia].
    intros j Hj. cbn. lia. }
  assert (Htag : tag x1 = 15 \/ tag x1 = 0).
  { destruct (Z.eq_dec (strlen p) 15) as [E15|Hne].
    - right. specialize (Hget 15 ltac:(lia)). cbn in Hget.
      unfold cell_get in Hget. cbn in Hget. rewrite Hget. unfold bs.
      rewrite nth_content_terminator by lia.
      destruct (Nat.ltb_spec (Z.to_nat 15) (Z.to_nat (strlen p)));
        [lia|reflexivity].
    - left. pose proof (store_bytes_cell_tag (h, xs_literal_empty) 0 bs) as E.
      rewrite Es in E. apply E. lia. }
  assert (Hp1 : xs_is_ptr x1 = false).
  { unfold xs_is_ptr. destruct Htag as [-> | ->]; reflexivity. }
  assert (Hd1 : xs_data x1 = InCell 0) by now apply xs_data_inline.
  assert (Hsz : xs_size (xs_set_size x1 (strlen p)) = strlen p).
  { apply xs_size_xs_set_size; try assumption; lia. }
  assert (Hd' : xs_data (xs_set_size x1 (strlen p)) = InCell 0).
  { now rewrite xs_data_xs_set_size. }
  exists (xs_set_size x1 (strlen p)).
  split; [reflexivity|].
  split; [now rewrite is_ptr_xs_set_size|].
  split; [exact Hsz|].
  split; [rewrite xs_capacity_xs_set_size by assumption;
          unfold xs_capacity; now rewrite Hp1|].
  split.
  - unfold xs_content. rewrite Hsz, Hd'. unfold load.
    assert (Hr' : ok_range h (InCell 0) (strlen p) = true).
    { unfold ok_range. rewrite andb_true_iff, !Z.leb_le. lia. }
    rewrite Hr', orb_true_r. f_equal.
    apply load_bytes_eq; [apply length_cstr_content|].
    intros k Hk. rewrite <- Hd1.
    rewrite get1_xs_set_size; [|lia|intros _; lia].
    rewrite Hd1. cbn [padd]. rewrite Z.add_0_l, Hget by lia.
    rewrite Nat2Z.id. unfold bs. rewrite nth_content_terminator by lia.
    destruct (Nat.ltb_spec k (Z.to_nat (strlen p))); [reflexivity|lia].
  - rewrite Hd', <- Hd1.
    apply get1_xs_set_size_terminator; [lia|intros _; lia|].
    rewrite Hd1. cbn [padd]. rewrite Z.add_0_l, Hget by lia.
    unfold bs. rewrite nth_content_terminator by lia.
    destruct (Nat.ltb_spec (Z.to_nat (strlen p)) (Z.to_nat (strlen p)));
      [lia|reflexivity].
Qed.

Lemma xs_new_inline_round_trip_witness :
  exists x',
    xs_new 32 heap47 xs_literal_empty (lit "foobarbar") = Ok (heap47, x')
    /\ xs_is_ptr x' = false
    /\ xs_size x' = strlen (lit "foobarbar")
    /\ xs_capacity x' = 15
    /\ xs_content heap47 x' = Ok (cstr_content (lit "foobarbar"))
    /\ get1 heap47 x' (padd (xs_data x') (strlen (lit "foobarbar"))) = 0.
Proof.
  apply (xs_new_inline_round_trip 32 heap47 xs_literal_empty (lit "foobarbar")).
  - reflexivity.
  - vm_compute. discriminate.
Defined.

(** [xs_allocate] for 16 bytes or more when [malloc] has room. *)
Lemma xs_allocate_room clz0 h x len :
  xs_is_ptr x = false -> 16 <= len ->
  0 <= brk h -> brk h + (2 ^ 60 + 4) <= top h -> top h <= 2 ^ 64 ->
  exists h2,
    xs_allocate clz0 h x len = Ok (h2, fresh_cell (brk h) (256 <=? len))
    /\ live h2 = (brk h, if 256 <=? len then 2 ^ 60 + 4 else 2 ^ 60) :: live h
    /\ ((256 <=? len) = true -> read_int h2 (brk h) = Ok 1)
    /\ (forall b, b < brk h \/ brk h + 4 <= b -> mem_get h2 b = mem_get h b).
Proof.
  intros Hp Hlen Hb Hroom Htop. rewrite xs_allocate_not_ptr by assumption.
  unfold LARGE_STRING_LEN, STACK_SIZE, malloc.
  destruct (Z.geb_spec len 256) as [Hge|Hlt].
  - destruct (Z.leb_spec 256 len); [|lia].
    destruct (Z.leb_spec (brk h + (2 ^ 60 + 4)) (top h)); [|lia].
    rewrite Z.mod_small by lia.
    set (h1 := Heap (mem h) ((brk h, 2 ^ 60 + 4) :: live h)
                    (brk h + (2 ^ 60 + 4)) (top h)).
    destruct (write_int_ok h1 (brk h) 1) as [h2 Hw].
    { unfold in_live, h1; cbn [live existsb].
      rewrite in_block_head by lia. reflexivity. }
    rewrite Hw. cbn [mbind result_bind]. exists h2.
    split; [reflexivity|]. split; [|split].
    + now rewrite (write_int_live _ _ _ _ Hw).
    + intros _. apply (read_int_write_int _ _ _ _ Hw).
    + intros b Hbb. now rewrite (mem_get_write_int _ _ _ _ _ Hw Hbb).
  - destruct (Z.leb_spec 256 len); [lia|].
    destruct (Z.gtb_spec len 15); [|lia].
    destruct (Z.leb_spec (brk h + 2 ^ 60) (top h)); [|lia].
    eexists. split; [reflexivity|]. split; [reflexivity|].
    split; [discriminate|]. intros b _. reflexivity.
Qed.

Lemma xs_new_heap clz0 h x p :
  xs_is_ptr x = false -> 16 <= strlen p < 2 ^ 54 ->
  0 <= brk h -> brk h + (2 ^ 60 + 4) <= top h -> top h <= 2 ^ 64 ->
  exists h' x',
    xs_new clz0 h x p = Ok (h', x')
    /\ xs_is_ptr x' = true
    /\ xs_is_large_string x' = (256 <=? strlen p)
    /\ xs_size x' = strlen p
    /\ xs_content h' x' = Ok (cstr_content p)
    /\ get1 h' x' (padd (xs_data x') (strlen p)) = 0
    /\ (256 <= strlen p -> xs_get_refcnt h' x' = Ok 1)
    /\ live h'
       = (brk h, if 256 <=? strlen p then 2 ^ 60 + 4 else 2 ^ 60) :: live h
    /\ xs_ptr x' = brk h
    /\ xs_capacity x' = 2 ^ 60 - 1.
Proof.
  intros Hp Hlen Hb Hroom Htop.
  destruct (xs_allocate_room clz0 h x (strlen p) Hp ltac:(lia) Hb Hroom Htop)
    as (h2 & Ea & Hl2 & Hcnt & _).
  unfold xs_new. rewrite Ea. cbn [mbind result_bind].
  set (large := 256 <=? strlen p) in *.
  set (x2 := fresh_cell (brk h) large) in *.
  destruct (fresh_cell_fields (brk h) large) as (Fp & Fl & Fc & _ & Flen).
  fold x2 in Fp, Fl, Fc, Flen.
  assert (Fptr : xs_ptr x2 = brk h).
  { unfold x2. rewrite xs_ptr_fresh_cell. apply Z.mod_small. lia. }
  set (a := brk h + if large then 4 else 0).
  assert (Hd2 : xs_data x2 = InHeap a).
  { rewrite (xs_data_heap _ Fp), Fl, Fptr. reflexivity. }
  rewrite Hd2, cstr_bytes_terminated.
  set (bs := cstr_content p ++ [0]).
  assert (Hbl : Z.of_nat (length bs) = strlen p + 1).
  { unfold bs. rewrite length_app, length_cstr_content. cbn. lia. }
  assert (Hr : ok_range h2 (InHeap a) (strlen p + 1) = true).
  { unfold ok_range, in_live. rewrite Hl2. cbn [existsb].
    rewrite in_block_head; [reflexivity| | |]; unfold a; destruct large; lia. }
  unfold store. rewrite Hbl, Hr, orb_true_r. cbn [mbind result_bind].
  destruct (store_bytes (h2, x2) (InHeap a) bs) as [h3 x3] eqn:Es.
  assert (Hx3 : x3 = x2).
  { pose proof (store_bytes_heap_cell (h2, x2) a bs) as E. now rewrite Es in E. }
  subst x3.
  assert (Hl3 : live h3 = live h2).
  { pose proof (store_bytes_live (h2, x2) (InHeap a) bs) as E. now rewrite Es in E. }
  assert (Hget : forall k, 0 <= k <= strlen p ->
                   mem_get h3 (a + k) = nth (Z.to_nat k) bs 0).
  { intros k Hk.
    pose proof (get_at_store_bytes_in bs (h2, x2) (InHeap a) k Flen) as G.
    rewrite Es in G. apply G; [intros; exact I|lia]. }
  assert (Hsz : xs_size (xs_set_size x2 (strlen p)) = strlen p).
  { apply xs_size_xs_set_size; try assumption; try lia.
    rewrite Fp. discriminate. }
  assert (Hd' : xs_data (xs_set_size x2 (strlen p)) = InHeap a).
  { now rewrite xs_data_xs_set_size. }
  exists h3, (xs_set_size x2 (strlen p)).
  split; [reflexivity|].
  split; [now rewrite is_ptr_xs_set_size|].
  split; [now rewrite is_large_xs_set_size|].
  split; [exact Hsz|].
  split; [|split; [|split; [|split; [|split]]]].
  - unfold xs_content. rewrite Hsz, Hd'. unfold load.
    assert (Hr' : ok_range h3 (InHeap a) (strlen p) = true).
    { rewrite (ok_range_live h2 h3) by assumption.
      rewrite <- (padd_0 (InHeap a)).
      apply ok_range_sub with (n := strlen p + 1); [assumption|lia..]. }
    rewrite Hr', orb_true_r. f_equal.
    apply load_bytes_eq; [apply length_cstr_content|].
    intros k Hk. cbn [padd get1]. rewrite Hget by lia. rewrite Nat2Z.id.
    unfold bs. rewrite nth_content_terminator by lia.
    destruct (Nat.ltb_spec k (Z.to_nat (strlen p))); [reflexivity|lia].
  - rewrite Hd'. cbn [padd get1]. rewrite Hget by lia.
    unfold bs. rewrite nth_content_terminator by lia.
    destruct (Nat.ltb_spec (Z.to_nat (strlen p)) (Z.to_nat (strlen p)));
      [lia|reflexivity].
  - intros Hbig. assert (Hlg : large = true) by (apply Z.leb_le; lia).
    unfold xs_get_refcnt. rewrite is_large_xs_set_size, Fl, Hlg. cbn [negb].
    unfold xs_set_size. rewrite Fp. cbn [negb].
    rewrite xs_ptr_set_size_field, Fptr by assumption.
    rewrite <- (Hcnt Hlg). apply read_int_frame; [assumption|].
    intros k Hk.
    pose proof (get_at_store_bytes_out bs (h2, x2) (InHeap a)
                  (InHeap (brk h + k))) as G.
    rewrite Es in G. apply G; [intros; exact I|exact I|].
    intros j Hj. unfold a. rewrite Hlg. cbn. intros [= E]. lia.
  - now rewrite Hl3, Hl2.
  - unfold xs_set_size. rewrite Fp. cbn [negb].
    now rewrite xs_ptr_set_size_field, Fptr.
  - rewrite xs_capacity_xs_set_size by assumption.
    unfold xs_capacity. now rewrite Fp, Fc.
Qed.

(** Construction from 16 bytes or more (and fewer than 2^54), over a value
    that is not heap-backed, when [malloc] grants the block: the value is
    heap-backed, large exactly from 256 bytes on (with count 1), its length
    is [strlen], its content the bytes before the terminator, a zero byte
    follows the content, and one block has been added to the live blocks. *)
Theorem xs_new_heap_round_trip (clz0 : Z) (h : heap) (x : xs) (p : list Z) :
  xs_is_ptr x = false -> 16 <= strlen p < 2 ^ 54 ->
  0 <= brk h -> brk h + (2 ^ 60 + 4) <= top h -> top h <= 2 ^ 64 ->
  exists h' x',
    xs_new clz0 h x p = Ok (h', x')
    /\ xs_is_ptr x' = true
    /\ xs_is_large_string x' = (256 <=? strlen p)
    /\ xs_size x' = strlen p
    /\ xs_content h' x' = Ok (cstr_content p)
    /\ get1 h' x' (padd (xs_data x') (strlen p)) = 0
    /\ (256 <= strlen p -> xs_get_refcnt h' x' = Ok 1)
    /\ live h'
       = (brk h, if 256 <=? strlen p then 2 ^ 60 + 4 else 2 ^ 60) :: live h.
Proof.
  intros Hp Hlen Hb Hroom Htop.
  destruct (xs_new_heap clz0 h x p Hp Hlen Hb Hroom Htop)
    as (h' & x' & H1 & H2 & H3 & H4 & H5 & H6 & H7 & H8 & _).
  exists h', x'. auto 10.
Qed.

Lemma xs_new_heap_round_trip_witness :
  exists h' x',
    xs_new 32 heap0 xs_literal_empty (many 300) = Ok (h', x')
    /\ xs_is_ptr x' = true
    /\ xs_is_large_string x' = (256 <=? strlen (many 300))
    /\ xs_size x' = strlen (many 300)
    /\ xs_content h' x' = Ok (cstr_content (many 300))
    /\ get1 h' x' (padd (xs_data x') (strlen (many 300))) = 0
    /\ (256 <= strlen (many 300) -> xs_get_refcnt h' x' = Ok 1)
    /\ live h'
       = (brk heap0, if 256 <=? strlen (many 300) then 2 ^ 60 + 4 else 2 ^ 60)
         :: live heap0.
Proof.
  apply (xs_new_heap_round_trip 32 heap0 xs_literal_empty (many 300)).
  - reflexivity.
  - rewrite strlen_many by lia. lia.
  - cbn. lia.
  - cbn. lia.
  - cbn. lia.
Defined.

(** ** [xs_cpy] *)

Lemma load_cell_any_heap h h' x o n : load h x (InCell o) n = load h' x (InCell o) n.
Proof.
  unfold load. cbn [ok_range]. destruct (_ || _); [|reflexivity].
  f_equal. apply load_bytes_ext. intros k _. reflexivity.
Qed.

(** Copying an inline value: the destination is released and becomes the
    source bit for bit; nothing else happens to the heap, and the source
    shows the content it showed. *)
Theorem xs_cpy_of_inline_value
    (clz0 : Z) (h : heap) (dest src : xs) (h1 : heap) (d1 : xs) :
  xs_is_ptr src = false ->
  xs_free h dest = Ok (h1, d1) ->
  xs_cpy clz0 h dest src = Ok (h1, src)
  /\ xs_content h1 src = xs_content h src.
Proof.
  intros Hp Hf. pose proof (xs_size_inline_range src Hp) as Hs.
  unfold xs_cpy. rewrite Hf. cbn [mbind result_bind].
  unfold LARGE_STRING_LEN, STACK_SIZE.
  destruct (Z.geb_spec (xs_size src) 256); [lia|].
  destruct (Z.gtb_spec (xs_size src) 15); [lia|].
  split; [reflexivity|].
  unfold xs_content. rewrite (xs_data_inline _ Hp). apply load_cell_any_heap.
Qed.

Lemma xs_cpy_of_inline_value_witness :
  xs_cpy 32 (heap_counted 3) large_cell
    (Xs [102; 111; 111; 0; 0; 0; 0; 0; 0; 0; 0; 0; 0; 0; 0] 12)
  = Ok (Heap (<[4099 := 0]> (<[4098 := 0]> (<[4097 := 0]> (<[4096 := 2]>
              (<[4096 := 3]> ∅))))) [(4096, 2 ^ 60 + 4)]
             (4096 + (2 ^ 60 + 4)) (2 ^ 62),
        Xs [102; 111; 111; 0; 0; 0; 0; 0; 0; 0; 0; 0; 0; 0; 0] 12).
Proof.
  refine (proj1 (xs_cpy_of_inline_value 32 (heap_counted 3) large_cell
            (Xs [102; 111; 111; 0; 0; 0; 0; 0; 0; 0; 0; 0; 0; 0; 0] 12)
            _ xs_literal_empty _ _)); reflexivity.
Defined.

(** Copying a large value of 256 bytes or more into a value that is not
    heap-backed: the destination becomes the source bit for bit (the same
    buffer), the count goes up by one, no block is allocated or freed, and
    the content is as before. *)
Theorem xs_cpy_of_large_value (clz0 : Z) (h : heap) (dest src : xs) (c : Z) :
  xs_is_ptr dest = false ->
  xs_is_large_string src = true -> 256 <= xs_size src ->
  xs_get_refcnt h src = Ok c -> c < 2 ^ 31 - 1 ->
  exists h',
    xs_cpy clz0 h dest src = Ok (h', src)
    /\ xs_get_refcnt h' src = Ok (c + 1)
    /\ live h' = live h
    /\ xs_content h' src = xs_content h src.
Proof.
  intros Hpd Hl Hsz Hc Hmax.
  assert (Hp : xs_is_ptr src = true).
  { destruct (xs_is_ptr src) eqn:E; [reflexivity|].
    pose proof (xs_size_inline_range src E). lia. }
  unfold xs_cpy. rewrite (xs_free_not_ptr _ _ Hpd). cbn [mbind result_bind].
  unfold LARGE_STRING_LEN.
  destruct (Z.geb_spec (xs_size src) 256); [|lia].
  unfold xs_inc_refcnt, xs_get_refcnt in *. rewrite Hl in *. cbn [negb] in *.
  pose proof (read_int_range _ _ _ Hc) as Hr.
  destruct (write_int_after_read h (xs_ptr src) c (c + 1) Hc) as [h1 Hw].
  rewrite Hc. cbn [mbind result_bind]. rewrite Hw. cbn [mbind result_bind].
  pose proof (write_int_live _ _ _ _ Hw) as Hlive.
  exists h1. split; [reflexivity|]. split; [|split; [exact Hlive|]].
  - rewrite (read_int_write_int _ _ _ _ Hw). now rewrite to_int_small by lia.
  - unfold xs_content, load. rewrite (ok_range_live h h1) by assumption.
    destruct (_ || _); [|reflexivity]. f_equal.
    apply load_bytes_ext. intros k Hk.
    rewrite (xs_data_heap _ Hp), Hl. cbn [padd get1].
    apply (mem_get_write_int _ _ _ _ _ Hw). lia.
Qed.

Lemma xs_cpy_of_large_value_witness :
  exists h',
    xs_cpy 32 (heap_counted 1) xs_literal_empty (xs_set_size large_cell 300)
    = Ok (h', xs_set_size large_cell 300)
    /\ xs_get_refcnt h' (xs_set_size large_cell 300) = Ok (1 + 1)
    /\ live h' = live (heap_counted 1)
    /\ xs_content h' (xs_set_size large_cell 300)
       = xs_content (heap_counted 1) (xs_set_size large_cell 300).
Proof.
  apply (xs_cpy_of_large_value 32 (heap_counted 1) xs_literal_empty
           (xs_set_size large_cell 300) 1).
  - reflexivity.
  - reflexivity.
  - vm_compute. discriminate.
  - vm_compute. reflexivity.
  - lia.
Defined.

(** ** The bit mask of [xs_trim] *)

Lemma land_shiftl_1_eqb m j :
  0 <= j -> (Z.land m (Z.shiftl 1 j) =? 0) = negb (Z.testbit m j).
Proof.
  intros Hj. rewrite Z.shiftl_1_l.
  destruct (Z.testbit m j) eqn:Hb; cbn [negb].
  - apply Z.eqb_neq. intros E.
    apply (f_equal (fun z => Z.testbit z j)) in E.
    rewrite Z.land_spec, Hb, Z.pow2_bits_true, Z.bits_0 in E by lia.
    discriminate.
  - apply Z.eqb_eq. apply Z.bits_inj'. intros n Hn.
    rewrite Z.land_spec, Z.bits_0, Z.pow2_bits_eqb by lia.
    destruct (Z.eqb_spec j n) as [->|]; [now rewrite Hb|apply andb_false_r].
Qed.

Lemma nth_replicate_zero n k : nth k (replicate n 0) 0 = 0.
Proof.
  revert k. induction n as [|n IH]; intros [|k]; cbn; auto.
Qed.

Lemma nth_insert_list (l : list Z) k k' v :
  (k < length l)%nat ->
  nth k' (<[k := v]> l) 0 = if Nat.eqb k k' then v else nth k' l 0.
Proof.
  intros Hk. rewrite !nth_lookup. destruct (Nat.eqb_spec k k') as [<-|Hne].
  - now rewrite list_lookup_insert_eq.
  - now rewrite list_lookup_insert_ne.
Qed.

Lemma length_set_bit mask i : length (set_bit mask i) = length mask.
Proof. unfold set_bit. apply length_insert. Qed.

(** Setting the bit of [i] adds exactly the byte [i] to the bytes the mask
    answers for. *)
Lemma check_bit_set_bit mask i b :
  length mask = 32%nat ->
  check_bit (set_bit mask i) b = check_bit mask b || (i mod 256 =? b mod 256).
Proof.
  intros Hl. unfold check_bit, set_bit. cbn zeta.
  set (c := i mod 256). set (d := b mod 256).
  assert (Hc : 0 <= c < 256) by (subst c; divmod).
  assert (Hd : 0 <= d < 256) by (subst d; divmod).
  rewrite !Z.shiftr_div_pow2 by lia.
  change 7 with (Z.ones 3). rewrite !Z.land_ones by lia.
  change (2 ^ 3) with 8.
  assert (Hk : (Z.to_nat (c / 8) < length mask)%nat).
  { rewrite Hl. assert (c / 8 < 32) by divmod. assert (0 <= c / 8) by divmod. lia. }
  rewrite nth_insert_list by assumption.
  rewrite !land_shiftl_1_eqb by divmod. rewrite !negb_involutive.
  destruct (Nat.eqb_spec (Z.to_nat (c / 8)) (Z.to_nat (d / 8))) as [E|Hne].
  - rewrite <- E. rewrite Z.lor_spec, Z.shiftl_1_l, Z.pow2_bits_eqb by divmod.
    f_equal.
    assert (c / 8 = d / 8).
    { assert (0 <= c / 8) by divmod. assert (0 <= d / 8) by divmod. lia. }
    destruct (Z.eqb_spec (c mod 8) (d mod 8)), (Z.eqb_spec c d);
      try reflexivity; exfalso; divmod.
  - destruct (Z.eqb_spec c d) as [E|_]; [|now rewrite orb_false_r].
    exfalso. apply Hne. now rewrite E.
Qed.

Lemma check_bit_foldl_set_bit l : forall mask b,
  length mask = 32%nat ->
  check_bit (foldl set_bit mask l) b
  = check_bit mask b || existsb (fun c => c mod 256 =? b mod 256) l.
Proof.
  induction l as [|i l IH]; intros mask b Hl; cbn [foldl existsb].
  - now rewrite orb_false_r.
  - rewrite IH by now rewrite length_set_bit.
    rewrite check_bit_set_bit by assumption. now rewrite orb_assoc.
Qed.

Lemma check_bit_build_mask trimset b :
  check_bit (build_mask trimset) b = in_set trimset b.
Proof.
  unfold build_mask, in_set. rewrite cstr_bytes_content.
  rewrite check_bit_foldl_set_bit by reflexivity.
  unfold check_bit at 1. cbn zeta. rewrite nth_replicate_zero. reflexivity.
Qed.

(** The mask [xs_trim] builds answers for exactly the bytes of the trim set
    before its terminator (compared as [uint8_t]). *)
Theorem build_mask_is_the_set (trimset : list Z) (b : Z) :
  check_bit (build_mask trimset) b = in_set trimset b.
Proof.
  unfold build_mask, in_set. rewrite cstr_bytes_content.
  rewrite check_bit_foldl_set_bit by reflexivity.
  unfold check_bit at 1. cbn zeta. rewrite nth_replicate_zero. reflexivity.
Qed.

(** ** What [xs_trim] removes *)

Lemma load_bytes_snoc h x n : forall p,
  load_bytes h x p (S n)
  = load_bytes h x p n ++ [get1 h x (padd p (Z.of_nat n))].
Proof.
  induction n as [|n IH]; intros p.
  - cbn. now rewrite padd_0.
  - change (load_bytes h x p (S (S n)))
      with (get1 h x p :: load_bytes h x (padd p 1) (S n)).
    rewrite IH. cbn [load_bytes app]. rewrite padd_padd.
    replace (1 + Z.of_nat n) with (Z.of_nat (S n)) by lia. reflexivity.
Qed.

Lemma lstrip_ext f g l : (forall b, f b = g b) -> lstrip f l = lstrip g l.
Proof.
  intros H. induction l as [|b l IH]; cbn; [reflexivity|].
  rewrite H, IH. reflexivity.
Qed.

Lemma strip_ext f g l : (forall b, f b = g b) -> strip f l = strip g l.
Proof.
  intros H. unfold strip, rstrip.
  now rewrite (lstrip_ext f g l H), (lstrip_ext f g _ H).
Qed.

Lemma rstrip_snoc f l b :
  rstrip f (l ++ [b]) = if f b then rstrip f l else l ++ [b].
Proof.
  unfold rstrip. rewrite reverse_snoc. cbn [lstrip].
  destruct (f b); [reflexivity|].
  now rewrite reverse_cons, reverse_involutive.
Qed.

(** The forward scan drops the leading bytes of the set. *)
Lemma scan_fwd_lstrip h x mask p n : forall i0 i,
  scan_fwd h x mask p i0 n = Ok i ->
  lstrip (check_bit mask) (load_bytes h x (padd p i0) n)
  = load_bytes h x (padd p i) (n - Z.to_nat (i - i0)).
Proof.
  induction n as [|n IH]; intros i0 i; cbn [scan_fwd].
  - intros [= <-]. reflexivity.
  - unfold load1 at 1.
    destruct (ok_range h (padd p i0) 1); cbn [mbind result_bind]; [|discriminate].
    cbn [load_bytes lstrip].
    destruct (check_bit mask (get1 h x (padd p i0))) eqn:Hc; cbn [negb].
    + intros H. pose proof (scan_fwd_bounds _ _ _ _ _ _ _ H) as Hb.
      rewrite padd_padd. rewrite (IH _ _ H). f_equal. lia.
    + intros [= <-]. rewrite Z.sub_diag. cbn [Z.to_nat].
      rewrite Nat.sub_0_r. reflexivity.
Qed.

(** The backward scan started [m] bytes further stops at the same byte. *)
Lemma scan_bwd_shift h x mask p n : forall s (m : nat),
  scan_bwd h x mask p n = Ok s -> Z.of_nat m <= s ->
  scan_bwd h x mask (padd p (Z.of_nat m)) (n - m) = Ok (s - Z.of_nat m).
Proof.
  induction n as [|n IH]; intros s m; cbn [scan_bwd].
  - intros [= <-] Hm. replace m with 0%nat by lia. reflexivity.
  - intros H Hm. pose proof (scan_bwd_bounds _ _ _ _ (S n) _ H) as Hb.
    destruct (Nat.eq_dec m (S n)) as [->|Hne].
    + rewrite Nat.sub_diag. cbn [scan_bwd]. f_equal. lia.
    + replace (S n - m)%nat with (S (n - m)) by lia. cbn [scan_bwd].
      rewrite padd_padd.
      replace (Z.of_nat m + Z.of_nat (n - m)) with (Z.of_nat n) by lia.
      destruct (load1 h x (padd p (Z.of_nat n))) as [b|];
        cbn [mbind result_bind] in *; [|discriminate].
      destruct (negb (check_bit mask b)).
      * injection H as <-. f_equal. lia.
      * now apply IH.
Qed.

(** The backward scan drops the trailing bytes of the set. *)
Lemma scan_bwd_rstrip h x mask p n : forall s,
  scan_bwd h x mask p n = Ok s ->
  rstrip (check_bit mask) (load_bytes h x p n) = load_bytes h x p (Z.to_nat s).
Proof.
  induction n as [|n IH]; intros s; cbn [scan_bwd].
  - intros [= <-]. reflexivity.
  - unfold load1 at 1.
    destruct (ok_range h (padd p (Z.of_nat n)) 1); cbn [mbind result_bind];
      [|discriminate].
    rewrite load_bytes_snoc, rstrip_snoc.
    destruct (check_bit mask (get1 h x (padd p (Z.of_nat n)))); cbn [negb].
    + apply IH.
    + intros [= <-]. rewrite Nat2Z.id. now rewrite load_bytes_snoc.
Qed.

(** Both scans together: the bytes from [i] to [s] are the content with
    the bytes of the set stripped from both ends. *)
Lemma scans_strip h x mask p n i s :
  scan_fwd h x mask p 0 n = Ok i ->
  scan_bwd h x mask p n = Ok s ->
  i <= s ->
  strip (check_bit mask) (load_bytes h x p n)
  = load_bytes h x (padd p i) (Z.to_nat (s - i)).
Proof.
  intros Hi Hs Hle. unfold strip.
  pose proof (scan_fwd_bounds _ _ _ _ _ _ _ Hi) as Bi.
  pose proof (scan_fwd_lstrip _ _ _ _ _ _ _ Hi) as Hf.
  rewrite padd_0 in Hf. rewrite Hf.
  pose proof (scan_bwd_shift _ _ _ _ _ _ (Z.to_nat i) Hs ltac:(lia)) as Hsh.
  rewrite Z2Nat.id in Hsh by lia. rewrite Z.sub_0_r.
  apply (scan_bwd_rstrip _ _ _ _ _ _ Hsh).
Qed.

(** The bytes the body of [xs_trim] leaves at the data pointer, in a run
    that returns: those that were [i] bytes further. *)
Lemma xs_trim_body_content h0 x0 mask i s h1 x1 bt h2 x2 :
  let n := (s - i) mod 2 ^ 64 in
  length (filler x0) = 15%nat ->
  0 <= xs_size x0 < 2 ^ 54 ->
  (xs_is_ptr x0 = true -> heap_ok h0 /\ 0 <= xs_ptr x0) ->
  scan_fwd h0 x0 mask (xs_data x0) 0 (Z.to_nat (xs_size x0)) = Ok i ->
  scan_bwd h0 x0 mask (xs_data x0) (Z.to_nat (xs_size x0)) = Ok s ->
  memmove h0 x0 (xs_data x0) x0 (padd (xs_data x0) i) n = Ok (h1, x1) ->
  load1 h1 x1 (padd (xs_data x0) n) = Ok bt ->
  (if bt =? 0 then Ok (h1, x1) else store1 h1 x1 (padd (xs_data x0) n) 0)
  = Ok (h2, x2) ->
  i <= s /\ n = s - i
  /\ xs_data (xs_set_size x2 n) = xs_data x0
  /\ xs_size (xs_set_size x2 n) = n
  /\ xs_capacity (xs_set_size x2 n) = xs_capacity x0
  /\ load_bytes h2 (xs_set_size x2 n) (xs_data x0) (Z.to_nat n)
     = load_bytes h0 x0 (padd (xs_data x0) i) (Z.to_nat n).
Proof.
  intros n Hl Hsz Hheap Hi Hs Hm Hb Ht.
  destruct (xs_trim_body_frame _ _ _ _ _ _ _ _ _ _ Hi Hs Hm Hb Ht)
    as (Hlive & Hfh & Hfc).
  fold n in Hfc.
  set (orig := xs_data x0) in *.
  pose proof (scan_fwd_bounds _ _ _ _ _ _ _ Hi) as Bi.
  pose proof (scan_bwd_bounds _ _ _ _ _ _ Hs) as Bs.
  rewrite Z2Nat.id in Bi, Bs by lia.
  apply memcpy_ok in Hm. destruct Hm as [Hr Hst].
  assert (His : i <= s).
  { apply (xs_trim_no_wrap h0 x0 i s); try assumption; lia. }
  assert (En : n = s - i) by (subst n; apply Z.mod_small; lia).
  assert (Hn0 : 0 <= n) by lia.
  assert (Hcell : xs_is_ptr x0 = false -> n <= 15).
  { intros Hp. now destruct (Hfc Hp) as (_ & ? & _). }
  apply store_ok in Hst. destruct Hst as [Es Hrs].
  rewrite length_load_bytes, Z2Nat.id in Hrs by lia.
  assert (Hrn : n = 0 \/ ok_range h0 orig n = true).
  { destruct Hrs as [E|E]; [left|now right].
    apply (f_equal (@length Z)) in E. rewrite length_load_bytes in E.
    cbn in E. lia. }
  destruct (store_at_data _ _ _ _ _ Es) as (Ht1 & Hl1 & Hd1 & Hp1 & _).
  { intros Hp. rewrite length_load_bytes, Z2Nat.id by lia. now apply Hcell. }
  fold orig in Hd1.
  assert (Hvalid : forall k, 0 <= k < n -> valid_ptr (padd orig k)).
  { intros k Hk. now apply (range_valid h0 orig n). }
  assert (F1 : forall k, 0 <= k < n ->
                 get1 h1 x1 (padd orig k) = get1 h0 x0 (padd orig (i + k))).
  { intros k Hk.
    pose proof (get_at_store_bytes_in
                  (load_bytes h0 x0 (padd orig i) (Z.to_nat n))
                  (h0, x0) orig k Hl) as G.
    rewrite <- Es, length_load_bytes, Z2Nat.id in G by lia.
    unfold get_at in G; cbn [fst snd] in G. rewrite G; [|assumption|lia].
    rewrite nth_load_bytes by lia. rewrite padd_padd, Z2Nat.id by lia.
    reflexivity. }
  apply load1_ok in Hb. destruct Hb as [Hrt Hbt].
  pose proof (ok_range_valid _ _ 1 0 Hrt ltac:(lia)) as Hvn.
  rewrite padd_0 in Hvn.
  assert (Hl1' : length (filler x1) = 15%nat) by congruence.
  assert (T : (forall q, valid_ptr q -> q <> padd orig n ->
                         get1 h2 x2 q = get1 h1 x1 q)
              /\ length (filler x2) = 15%nat
              /\ xs_is_ptr x2 = xs_is_ptr x0
              /\ xs_data x2 = orig
              /\ (xs_is_ptr x0 = true -> x2 = x0)).
  { assert (Hd : xs_is_ptr x2 = xs_is_ptr x0 /\ xs_data x2 = orig
                 /\ (xs_is_ptr x0 = true -> x2 = x0)).
    { destruct (xs_is_ptr x0) eqn:Hp.
      - rewrite (Hfh eq_refl). rewrite Hp. auto.
      - destruct (Hfc eq_refl) as (_ & _ & Hp2 & _).
        split; [assumption|]. split; [|discriminate].
        rewrite (xs_data_inline _ Hp2).
        subst orig. now rewrite (xs_data_inline _ Hp). }
    destruct (Z.eqb_spec bt 0) as [E0|Hne].
    - injection Ht as <- <-. repeat split; auto; tauto.
    - apply store1_ok in Ht. destruct Ht as [_ E2].
      split; [|split; [|exact Hd]].
      + intros q Hq Hqn.
        pose proof (get_at_set1_other (h1, x1) (padd orig n) q 0 Hvn Hq) as G2.
        rewrite <- E2 in G2. apply G2. congruence.
      + pose proof (length_filler_set1 (h1, x1) (padd orig n) 0) as G3.
        rewrite <- E2 in G3. cbn in G3. congruence. }
  destruct T as (Tout & Tl & Tp & Td & Tx).
  assert (Hcell2 : xs_is_ptr x2 = false -> n <= 15) by (rewrite Tp; exact Hcell).
  assert (Hheap2 : xs_is_ptr x2 = true -> n < 2 ^ 54) by (intros _; lia).
  split; [exact His|]. split; [exact En|].
  split; [now rewrite xs_data_xs_set_size, Td|].
  split; [now apply xs_size_xs_set_size|].
  split.
  { rewrite xs_capacity_xs_set_size by assumption.
    unfold xs_capacity. rewrite Tp. destruct (xs_is_ptr x0) eqn:Hp; [|reflexivity].
    now rewrite (Tx eq_refl). }
  apply load_bytes_eq; [apply length_load_bytes|].
  intros k Hk. rewrite nth_load_bytes by assumption.
  rewrite <- Td.
  rewrite get1_xs_set_size; [|lia|intros Hp; specialize (Hcell2 Hp); lia].
  rewrite Td, Tout; [|apply Hvalid; lia|intros E; apply padd_inj in E; lia].
  rewrite F1 by lia. now rewrite padd_padd.
Qed.

Lemma lstrip_all f l : forallb f l = true -> lstrip f l = [].
Proof.
  induction l as [|b l IH]; cbn; [reflexivity|].
  destruct (f b); [exact IH|discriminate].
Qed.

Lemma forallb_reverse (f : Z -> bool) l :
  forallb f l = true -> forallb f (reverse l) = true.
Proof.
  rewrite !forallb_forall. intros H b Hb. apply H.
  rewrite <- list_elem_of_In in *. now rewrite elem_of_reverse in Hb.
Qed.

Lemma rstrip_all f l : forallb f l = true -> rstrip f l = [].
Proof.
  intros H. unfold rstrip. rewrite lstrip_all by now apply forallb_reverse.
  reflexivity.
Qed.

Lemma forallb_ext_in_set trimset l :
  forallb (check_bit (build_mask trimset)) l = forallb (in_set trimset) l.
Proof.
  induction l as [|b l IH]; cbn; [reflexivity|].
  now rewrite check_bit_build_mask, IH.
Qed.

Lemma xs_trim_returns_stripped clz0 h x trimset c h' x' :
  xs_wf x -> heap_ok h -> unshared h x ->
  cstr_is_empty trimset = false ->
  xs_content h x = Ok c ->
  xs_trim clz0 h x trimset = Ok (h', x') ->
  xs_content h' x' = Ok (strip (in_set trimset) c)
  /\ xs_size x' = Z.of_nat (length (strip (in_set trimset) c))
  /\ xs_size x' <= xs_size x
  /\ get1 h' x' (padd (xs_data x') (xs_size x')) = 0
  /\ xs_data x' = xs_data x
  /\ xs_capacity x' = xs_capacity x
  /\ live h' = live h.
Proof.
  intros Hwf Hok Hu He Hc Ht.
  apply xs_trim_ok in Ht; [|exact He].
  destruct Ht as (h0 & x0 & b0 & i & s & ha & xa & bt & h2 & x2
                  & Hcow & Hi & Hs & Hm & Hb & Ht & -> & ->).
  rewrite (xs_cow_lazy_copy_unshared clz0 h x Hu) in Hcow.
  injection Hcow as <- <- <-.
  apply load_ok in Hc. destruct Hc as [-> Hrc].
  destruct (xs_trim_body_trimmed _ _ _ _ _ _ _ _ _ _
              (proj1 Hwf) (xs_size_range x Hwf)
              (fun _ => conj Hok (xs_ptr_nonneg x Hwf)) Hi Hs Hm Hb Ht)
    as (Hts & Hn0 & _).
  destruct (xs_trim_body_content _ _ _ _ _ _ _ _ _ _
              (proj1 Hwf) (xs_size_range x Hwf)
              (fun _ => conj Hok (xs_ptr_nonneg x Hwf)) Hi Hs Hm Hb Ht)
    as (His & En & Hd & Hsz & Hcap & Hbytes).
  destruct (xs_trim_body_frame _ _ _ _ _ _ _ _ _ _ Hi Hs Hm Hb Ht)
    as (Hlive & _ & _).
  pose proof (scan_fwd_bounds _ _ _ _ _ _ _ Hi) as Bi.
  pose proof (scan_bwd_bounds _ _ _ _ _ _ Hs) as Bs.
  pose proof (xs_size_range x Hwf) as Hx.
  rewrite Z2Nat.id in Bi, Bs by lia.
  set (n := (s - i) mod 2 ^ 64) in *.
  assert (Est : strip (in_set trimset)
                  (load_bytes h x (xs_data x) (Z.to_nat (xs_size x)))
                = load_bytes h2 (xs_set_size x2 n) (xs_data x) (Z.to_nat n)).
  { rewrite (strip_ext _ (check_bit (build_mask trimset)))
      by (intros b; symmetry; apply check_bit_build_mask).
    rewrite (scans_strip _ _ _ _ _ _ _ Hi Hs His), Hbytes, En. reflexivity. }
  destruct Hts as (_ & _ & Hr & _ & Hz & _).
  rewrite Hsz, Hd in *.
  rewrite Est, length_load_bytes, Z2Nat.id by lia.
  repeat split; try assumption; try lia.
  unfold xs_content, load. rewrite Hsz, Hd.
  destruct Hr as [E | E]; rewrite E; [reflexivity | now rewrite orb_true_r].
Qed.

(** [xs_trim] of a value that nothing shares, in a run that returns: the
    content is the old content without its leading and its trailing bytes
    of the trim set; the length is that of the new content, a zero byte
    follows it, and the data pointer, the capacity and the table of live
    blocks are as before. *)
Theorem xs_trim_strips (clz0 : Z) (h : heap) (x : xs) (trimset c : list Z)
    (h' : heap) (x' : xs) :
  xs_wf x -> heap_ok h -> unshared h x ->
  cstr_is_empty trimset = false ->
  xs_content h x = Ok c ->
  xs_trim clz0 h x trimset = Ok (h', x') ->
  xs_content h' x' = Ok (strip (in_set trimset) c)
  /\ xs_size x' = Z.of_nat (length (strip (in_set trimset) c))
  /\ xs_size x' <= xs_size x
  /\ get1 h' x' (padd (xs_data x') (xs_size x')) = 0
  /\ xs_data x' = xs_data x
  /\ xs_capacity x' = xs_capacity x
  /\ live h' = live h.
Proof. apply xs_trim_returns_stripped. Qed.

(** The inline value "  hi " trimmed with the set " ". *)
Lemma xs_trim_strips_witness :
  xs_content heap47 (Xs [104; 105; 0; 105; 32; 0; 0; 0; 0; 0; 0; 0; 0; 0; 0] 13)
  = Ok (lit "hi")
  /\ xs_size (Xs [104; 105; 0; 105; 32; 0; 0; 0; 0; 0; 0; 0; 0; 0; 0] 13) = 2.
Proof.
  destruct (xs_trim_strips 32 heap47
              (Xs [32; 32; 104; 105; 32; 0; 0; 0; 0; 0; 0; 0; 0; 0; 0] 10)
              (lit " ") (lit "  hi ") heap47
              (Xs [104; 105; 0; 105; 32; 0; 0; 0; 0; 0; 0; 0; 0; 0; 0] 13))
    as (Hc & Hs & _).
  - unfold xs_wf, is_byte; cbn. split; [reflexivity|]. split; [|lia].
    repeat (apply Forall_cons; split; [lia|]). apply Forall_nil_2.
  - apply Forall_nil_2.
  - exists 0. split; [reflexivity|lia].
  - reflexivity.
  - reflexivity.
  - vm_compute. reflexivity.
  - split; [exact Hc|exact Hs].
Defined.

(** ** When [xs_trim] returns *)

Lemma scan_fwd_returns h x mask p n : forall i0,
  (forall k, 0 <= k < Z.of_nat n -> ok_range h (padd p (i0 + k)) 1 = true) ->
  exists i, scan_fwd h x mask p i0 n = Ok i
    /\ (forall k, i0 <= k < i -> check_bit mask (get1 h x (padd p k)) = true).
Proof.
  induction n as [|n IH]; intros i0 Hr; cbn [scan_fwd].
  - exists i0. split; [reflexivity|]. intros; lia.
  - unfold load1. pose proof (Hr 0 ltac:(lia)) as H0.
    rewrite Z.add_0_r in H0. rewrite H0. cbn [mbind result_bind].
    destruct (check_bit mask (get1 h x (padd p i0))) eqn:Hc; cbn [negb].
    + destruct (IH (i0 + 1)) as (i & Hi & Hm).
      { intros k Hk. replace (i0 + 1 + k) with (i0 + (k + 1)) by lia.
        apply Hr. lia. }
      exists i. split; [exact Hi|]. intros k Hk.
      destruct (Z.eq_dec k i0) as [->|]; [exact Hc|]. apply Hm. lia.
    + exists i0. split; [reflexivity|]. intros; lia.
Qed.

Lemma scan_bwd_returns h x mask p n :
  (forall k, 0 <= k < Z.of_nat n -> ok_range h (padd p k) 1 = true) ->
  exists s, scan_bwd h x mask p n = Ok s
    /\ (forall k, s <= k < Z.of_nat n ->
          check_bit mask (get1 h x (padd p k)) = true).
Proof.
  induction n as [|n IH]; intros Hr; cbn [scan_bwd].
  - exists 0. split; [reflexivity|]. intros; lia.
  - unfold load1. rewrite (Hr (Z.of_nat n)) by lia. cbn [mbind result_bind].
    destruct (check_bit mask (get1 h x (padd p (Z.of_nat n)))) eqn:Hc; cbn [negb].
    + destruct IH as (s & Hs & Hm); [intros k Hk; apply Hr; lia|].
      exists s. split; [exact Hs|]. intros k Hk.
      destruct (Z.eq_dec k (Z.of_nat n)) as [->|]; [exact Hc|]. apply Hm. lia.
    + exists (Z.of_nat (S n)). split; [reflexivity|]. intros; lia.
Qed.

Lemma forallb_load_bytes f h x n : forall p,
  (forall k, 0 <= k < Z.of_nat n -> f (get1 h x (padd p k)) = true) ->
  forallb f (load_bytes h x p n) = true.
Proof.
  induction n as [|n IH]; intros p H; [reflexivity|].
  cbn [load_bytes forallb]. apply andb_true_iff. split.
  - specialize (H 0 ltac:(lia)). now rewrite padd_0 in H.
  - apply IH. intros k Hk. rewrite padd_padd. apply H. lia.
Qed.

Lemma in_set_not_empty trimset b :
  in_set trimset b = true -> cstr_is_empty trimset = false.
Proof.
  unfold in_set, cstr_content. destruct trimset as [|c t]; cbn; [discriminate|].
  destruct (c =? 0); [discriminate|reflexivity].
Qed.

(** Both scans return when the content is readable. *)
Lemma scans_return h x mask :
  0 <= xs_size x ->
  xs_size x = 0 \/ ok_range h (xs_data x) (xs_size x) = true ->
  exists i s,
    scan_fwd h x mask (xs_data x) 0 (Z.to_nat (xs_size x)) = Ok i
    /\ scan_bwd h x mask (xs_data x) (Z.to_nat (xs_size x)) = Ok s
    /\ (forall k, 0 <= k < i ->
          check_bit mask (get1 h x (padd (xs_data x) k)) = true)
    /\ (forall k, s <= k < xs_size x ->
          check_bit mask (get1 h x (padd (xs_data x) k)) = true).
Proof.
  intros Hn Hr.
  assert (H1 : forall k, 0 <= k < Z.of_nat (Z.to_nat (xs_size x)) ->
                 ok_range h (padd (xs_data x) k) 1 = true).
  { intros k Hk. destruct Hr as [E|E]; [lia|].
    apply ok_range_sub with (n := xs_size x); [assumption|lia..]. }
  destruct (scan_fwd_returns h x mask (xs_data x) (Z.to_nat (xs_size x)) 0)
    as (i & Hi & Mi); [intros k Hk; now apply H1|].
  destruct (scan_bwd_returns h x mask (xs_data x) (Z.to_nat (xs_size x)) H1)
    as (s & Hs & Ms).
  exists i, s. repeat split; try assumption.
  intros k Hk. apply Ms. lia.
Qed.

(** [xs_trim] returns when the content and the byte after it are readable
    and the content is empty or has a byte outside the trim set; the value
    it returns holds the stripped content. *)
Theorem xs_trim_returns (clz0 : Z) (h : heap) (x : xs) (trimset c : list Z) :
  xs_wf x -> heap_ok h -> unshared h x ->
  cstr_is_empty trimset = false ->
  ok_range h (xs_data x) (xs_size x + 1) = true ->
  xs_content h x = Ok c ->
  c = [] \/ forallb (in_set trimset) c = false ->
  exists h' x',
    xs_trim clz0 h x trimset = Ok (h', x')
    /\ xs_content h' x' = Ok (strip (in_set trimset) c)
    /\ xs_size x' = Z.of_nat (length (strip (in_set trimset) c))
    /\ get1 h' x' (padd (xs_data x') (xs_size x')) = 0.
Proof.
  intros Hwf Hok Hu He Hrt Hc Hnm.
  pose proof (xs_size_range x Hwf) as Hx.
  assert (Hex : exists h' x', xs_trim clz0 h x trimset = Ok (h', x')).
  { pose proof Hc as Hc'. apply load_ok in Hc'. destruct Hc' as [-> Hr].
    set (orig := xs_data x) in *. set (n := xs_size x) in *.
    set (mask := build_mask trimset).
    destruct (scans_return h x mask ltac:(lia) Hr) as (i & s & Hi & Hs & Mi & Ms).
    fold orig n in Hi, Hs, Mi, Ms.
    pose proof (scan_fwd_bounds _ _ _ _ _ _ _ Hi) as Bi.
    pose proof (scan_bwd_bounds _ _ _ _ _ _ Hs) as Bs.
    rewrite Z2Nat.id in Bi, Bs by lia.
    assert (His : i <= s).
    { destruct (Z.le_gt_cases i s) as [|Hlt]; [assumption|exfalso].
      assert (Hall : forallb (in_set trimset) (load_bytes h x orig (Z.to_nat n))
                     = true).
      { rewrite <- forallb_ext_in_set. apply forallb_load_bytes.
        intros k Hk. rewrite Z2Nat.id in Hk by lia.
        destruct (Z.lt_ge_cases k i); [apply Mi|apply Ms]; lia. }
      destruct Hnm as [E|E]; [|congruence].
      apply (f_equal (@length Z)) in E. rewrite length_load_bytes in E.
      cbn in E. lia. }
    assert (En : (s - i) mod 2 ^ 64 = s - i) by (apply Z.mod_small; lia).
    unfold xs_trim. rewrite He, (xs_cow_lazy_copy_unshared clz0 h x Hu).
    cbn [mbind result_bind]. fold orig n mask. rewrite Hi, Hs.
    cbn [mbind result_bind]. rewrite En.
    assert (R1 : (s - i =? 0) || ok_range h (padd orig i) (s - i) = true).
    { destruct (Z.eqb_spec (s - i) 0); [reflexivity|]. cbn [orb].
      apply ok_range_sub with (n := n + 1); [assumption|lia..]. }
    assert (R2 : (s - i =? 0) || ok_range h orig (s - i) = true).
    { destruct (Z.eqb_spec (s - i) 0); [reflexivity|]. cbn [orb].
      rewrite <- (padd_0 orig).
      apply ok_range_sub with (n := n + 1); [assumption|lia..]. }
    assert (R3 : ok_range h (padd orig (s - i)) 1 = true).
    { apply ok_range_sub with (n := n + 1); [assumption|lia..]. }
    unfold memmove, memcpy, load. rewrite R1. cbn [mbind result_bind].
    unfold store. rewrite length_load_bytes, Z2Nat.id, R2 by lia.
    cbn [mbind result_bind].
    destruct (store_bytes (h, x) orig _) as [h1 x1] eqn:Es.
    pose proof (store_bytes_live (h, x) orig
                  (load_bytes h x (padd orig i) (Z.to_nat (s - i)))) as Hlive.
    rewrite Es in Hlive. cbn [fst] in Hlive.
    unfold load1, store1. rewrite (ok_range_live h h1) by assumption.
    rewrite R3. cbn [mbind result_bind].
    destruct (get1 h1 x1 (padd orig (s - i)) =? 0); cbn [mbind result_bind].
    - eauto.
    - destruct (set1 (h1, x1) (padd orig (s - i)) 0) as [h2 x2].
      cbn [mbind result_bind]. eauto. }
  destruct Hex as (h' & x' & Ht). exists h', x'.
  destruct (xs_trim_returns_stripped clz0 h x trimset c h' x'
              Hwf Hok Hu He Hc Ht) as (H1 & H2 & _ & H4 & _).
  auto.
Qed.

(** The inline value "  hi " trimmed with the set " ". *)
Lemma xs_trim_returns_witness :
  exists h' x',
    xs_trim 32 heap47
      (Xs [32; 32; 104; 105; 32; 0; 0; 0; 0; 0; 0; 0; 0; 0; 0] 10) (lit " ")
    = Ok (h', x')
    /\ xs_content h' x' = Ok (lit "hi")
    /\ xs_size x' = 2
    /\ get1 h' x' (padd (xs_data x') (xs_size x')) = 0.
Proof.
  apply (xs_trim_returns 32 heap47
           (Xs [32; 32; 104; 105; 32; 0; 0; 0; 0; 0; 0; 0; 0; 0; 0] 10)
           (lit " ") (lit "  hi ")).
  - unfold xs_wf, is_byte; cbn. split; [reflexivity|]. split; [|lia].
    repeat (apply Forall_cons; split; [lia|]). apply Forall_nil_2.
  - apply Forall_nil_2.
  - exists 0. split; [reflexivity|lia].
  - reflexivity.
  - reflexivity.
  - reflexivity.
  - right. reflexivity.
Defined.

(** ** [xs_trim] of a value made of bytes of the set only *)

(** On a non-empty value that nothing shares and whose bytes are all in the
    trim set, [xs_trim] does not return: both scans run to the end, the
    length [slen - i] wraps around, and the move of that many bytes from
    the end of the content leaves every block (and the cell). *)
Theorem xs_trim_faults_on_members_only
    (clz0 : Z) (h : heap) (x : xs) (trimset c : list Z) :
  xs_wf x -> heap_ok h -> unshared h x ->
  xs_content h x = Ok c ->
  c <> [] ->
  forallb (in_set trimset) c = true ->
  xs_trim clz0 h x trimset
  = Err (BadAccess (padd (xs_data x) (xs_size x))).
Proof.
  intros Hwf Hok Hu Hc Hne Hall.
  pose proof (xs_size_range x Hwf) as Hx.
  assert (He : cstr_is_empty trimset = false).
  { destruct c as [|b c]; [congruence|]. cbn in Hall.
    apply andb_true_iff in Hall. destruct Hall as [Hb _].
    now apply in_set_not_empty in Hb. }
  apply load_ok in Hc. destruct Hc as [-> Hr].
  set (orig := xs_data x) in *. set (n := xs_size x) in *.
  set (mask := build_mask trimset).
  assert (Hpos : 0 < n).
  { destruct (Z.to_nat n) eqn:E; [now cbn in Hne|lia]. }
  destruct (scans_return h x mask ltac:(lia) Hr) as (i & s & Hi & Hs & _).
  fold orig n in Hi, Hs.
  pose proof (scan_fwd_bounds _ _ _ _ _ _ _ Hi) as Bi.
  pose proof (scan_bwd_bounds _ _ _ _ _ _ Hs) as Bs.
  rewrite Z2Nat.id in Bi, Bs by lia.
  rewrite <- forallb_ext_in_set in Hall. fold mask in Hall.
  assert (Ei : i = n).
  { pose proof (scan_fwd_lstrip _ _ _ _ _ _ _ Hi) as E.
    rewrite padd_0, (lstrip_all _ _ Hall) in E.
    apply (f_equal (@length Z)) in E. rewrite length_load_bytes in E.
    cbn in E. lia. }
  assert (Es : s = 0).
  { pose proof (scan_bwd_rstrip _ _ _ _ _ _ Hs) as E.
    rewrite (rstrip_all _ _ Hall) in E.
    apply (f_equal (@length Z)) in E. rewrite length_load_bytes in E.
    cbn in E. lia. }
  subst i s.
  unfold xs_trim. rewrite He, (xs_cow_lazy_copy_unshared clz0 h x Hu).
  cbn [mbind result_bind]. fold orig n mask. rewrite Hi, Hs.
  cbn [mbind result_bind].
  unfold memmove, memcpy, load.
  destruct (((0 - n) mod 2 ^ 64 =? 0)
            || ok_range h (padd orig n) ((0 - n) mod 2 ^ 64)) eqn:Eb;
    [exfalso|reflexivity].
  assert (n <= 0); [|lia].
  apply (xs_trim_no_wrap h x n 0); try assumption; try lia.
  - intros _. split; [assumption|]. now apply xs_ptr_nonneg.
  - apply orb_true_iff in Eb. destruct Eb as [E|E]; [left|right; exact E].
    now apply Z.eqb_eq in E.
Qed.

(** The inline value of three spaces trimmed with the set " ". *)
Lemma xs_trim_faults_on_members_only_witness :
  xs_trim 32 heap47
    (Xs [32; 32; 32; 0; 0; 0; 0; 0; 0; 0; 0; 0; 0; 0; 0] 12) (lit " ")
  = Err (BadAccess (InCell 3)).
Proof.
  apply (xs_trim_faults_on_members_only 32 heap47
           (Xs [32; 32; 32; 0; 0; 0; 0; 0; 0; 0; 0; 0; 0; 0; 0] 12)
           (lit " ") (lit "   ")).
  - unfold xs_wf, is_byte; cbn. split; [reflexivity|]. split; [|lia].
    repeat (apply Forall_cons; split; [lia|]). apply Forall_nil_2.
  - apply Forall_nil_2.
  - exists 0. split; [reflexivity|lia].
  - reflexivity.
  - discriminate.
  - reflexivity.
Defined.

(** ** Bytes after several stores *)

Lemma load_bytes_app h x n m : forall p,
  load_bytes h x p (n + m)
  = load_bytes h x p n ++ load_bytes h x (padd p (Z.of_nat n)) m.
Proof.
  induction n as [|n IH]; intros p.
  - cbn. now rewrite padd_0.
  - cbn [Nat.add load_bytes app]. rewrite IH, padd_padd.
    replace (1 + Z.of_nat n) with (Z.of_nat (S n)) by lia. reflexivity.
Qed.

Lemma load_bytes_cell_any_heap h h' x o n :
  load_bytes h x (InCell o) n = load_bytes h' x (InCell o) n.
Proof. apply load_bytes_ext. intros k _. reflexivity. Qed.

(** The bytes stored are the bytes found. *)
Lemma load_after_store_same h x p bs h' x' :
  store_bytes (h, x) p bs = (h', x') ->
  length (filler x) = 15%nat ->
  (forall k, 0 <= k < Z.of_nat (length bs) -> valid_ptr (padd p k)) ->
  load_bytes h' x' p (length bs) = bs.
Proof.
  intros E Hl Hv. apply load_bytes_eq; [reflexivity|].
  intros k Hk.
  pose proof (get_at_store_bytes_in bs (h, x) p (Z.of_nat k) Hl Hv ltac:(lia)) as G.
  rewrite E, Nat2Z.id in G. exact G.
Qed.

(** A store leaves the bytes of a disjoint range as they were. *)
Lemma load_after_store_other h x p bs h' x' q n :
  store_bytes (h, x) p bs = (h', x') ->
  (forall k, 0 <= k < Z.of_nat (length bs) -> valid_ptr (padd p k)) ->
  (forall j, 0 <= j < Z.of_nat n -> valid_ptr (padd q j)) ->
  (forall j k, 0 <= j < Z.of_nat n -> 0 <= k < Z.of_nat (length bs) ->
               padd q j <> padd p k) ->
  load_bytes h' x' q n = load_bytes h x q n.
Proof.
  intros E Hv Hq Hd. apply load_bytes_ext. intros j Hj.
  pose proof (get_at_store_bytes_out bs (h, x) p (padd q j) Hv (Hq j Hj)) as G.
  rewrite E in G. apply G. intros k Hk. now apply Hd.
Qed.

(** The three stores of [xs_concat]: the old content moved behind the place
    of the prefix, the prefix in front of it, the suffix after it. *)
Lemma three_stores h x data Tb Pb Sb h1 x1 h2 x2 h3 x3 :
  length (filler x) = 15%nat ->
  (forall k, 0 <= k < Z.of_nat (length Pb + length Tb + length Sb) ->
             valid_ptr (padd data k)) ->
  store_bytes (h, x) (padd data (Z.of_nat (length Pb))) Tb = (h1, x1) ->
  store_bytes (h1, x1) data Pb = (h2, x2) ->
  store_bytes (h2, x2) (padd data (Z.of_nat (length Pb + length Tb))) Sb
  = (h3, x3) ->
  load_bytes h3 x3 data (length Pb + length Tb + length Sb) = Pb ++ Tb ++ Sb
  /\ length (filler x3) = 15%nat
  /\ live h3 = live h.
Proof.
  intros Hl Hv E1 E2 E3.
  pose proof (store_bytes_length_filler (h, x)
                (padd data (Z.of_nat (length Pb))) Tb) as L1.
  pose proof (store_bytes_length_filler (h1, x1) data Pb) as L2.
  pose proof (store_bytes_length_filler (h2, x2)
                (padd data (Z.of_nat (length Pb + length Tb))) Sb) as L3.
  rewrite E1 in L1. rewrite E2 in L2. rewrite E3 in L3. cbn [snd] in L1, L2, L3.
  pose proof (store_bytes_live (h, x)
                (padd data (Z.of_nat (length Pb))) Tb) as V1.
  pose proof (store_bytes_live (h1, x1) data Pb) as V2.
  pose proof (store_bytes_live (h2, x2)
                (padd data (Z.of_nat (length Pb + length Tb))) Sb) as V3.
  rewrite E1 in V1. rewrite E2 in V2. rewrite E3 in V3. cbn [fst] in V1, V2, V3.
  assert (Hv1 : forall k, 0 <= k < Z.of_nat (length Tb) ->
                  valid_ptr (padd (padd data (Z.of_nat (length Pb))) k)).
  { intros k Hk. rewrite padd_padd. apply Hv. lia. }
  assert (Hv2 : forall k, 0 <= k < Z.of_nat (length Pb) -> valid_ptr (padd data k)).
  { intros k Hk. apply Hv. lia. }
  assert (Hv3 : forall k, 0 <= k < Z.of_nat (length Sb) ->
                  valid_ptr (padd (padd data (Z.of_nat (length Pb + length Tb))) k)).
  { intros k Hk. rewrite padd_padd. apply Hv. lia. }
  split; [|split; congruence].
  rewrite <- Nat.add_assoc, load_bytes_app, load_bytes_app. f_equal; [|f_equal].
  - rewrite (load_after_store_other _ _ _ _ _ _ data (length Pb) E3 Hv3 Hv2).
    + apply (load_after_store_same _ _ _ _ _ _ E2); [congruence|exact Hv2].
    + intros j k Hj Hk. rewrite <- (padd_0 data) at 1. rewrite !padd_padd.
      intros E. apply padd_inj in E. lia.
  - rewrite (load_after_store_other _ _ _ _ _ _ _ (length Tb) E3 Hv3 Hv1).
    + rewrite (load_after_store_other _ _ _ _ _ _ _ (length Tb) E2 Hv2 Hv1).
      * apply (load_after_store_same _ _ _ _ _ _ E1); assumption.
      * intros j k Hj Hk. rewrite <- (padd_0 data) at 2. rewrite !padd_padd.
        intros E. apply padd_inj in E. lia.
    + intros j k Hj Hk. rewrite !padd_padd.
      intros E. apply padd_inj in E. lia.
  - rewrite padd_padd, <- Nat2Z.inj_add.
    apply (load_after_store_same _ _ _ _ _ _ E3); [congruence|exact Hv3].
Qed.

Lemma store_bytes_to_heap h x a bs h' x' :
  store_bytes (h, x) (InHeap a) bs = (h', x') -> x' = x.
Proof.
  intros E. pose proof (store_bytes_heap_cell (h, x) a bs) as G.
  now rewrite E in G.
Qed.

Lemma store_bytes_to_cell h x o bs h' x' :
  store_bytes (h, x) (InCell o) bs = (h', x') -> h' = h.
Proof.
  intros E. pose proof (store_bytes_cell_heap (h, x) o bs) as G.
  now rewrite E in G.
Qed.

Lemma store_bytes_to_cell_tag h x o bs h' x' :
  store_bytes (h, x) (InCell o) bs = (h', x') ->
  o + Z.of_nat (length bs) <= 15 -> tag x' = tag x.
Proof.
  intros E H. pose proof (store_bytes_cell_tag (h, x) o bs H) as G.
  now rewrite E in G.
Qed.

(** ** [xs_concat] in place *)

(** [xs_concat] on a target that nothing shares and whose capacity holds
    the three lengths: the new content is prefix, old content, suffix, in
    the same buffer, with the suffix's terminator after it.  When the
    target is in the heap, prefix and suffix are inline values (so that no
    store of the call reaches their bytes). *)
Theorem xs_concat_in_place
    (clz0 : Z) (h : heap) (string prefix suffix : xs) (T P S : list Z) :
  xs_wf string -> xs_wf prefix -> xs_wf suffix ->
  unshared h string ->
  (xs_is_ptr string = true ->
   xs_is_ptr prefix = false /\ xs_is_ptr suffix = false) ->
  xs_size string + xs_size prefix + xs_size suffix <= xs_capacity string ->
  xs_size string + xs_size prefix + xs_size suffix < 2 ^ 54 ->
  ok_range h (xs_data string)
    (xs_size string + xs_size prefix + xs_size suffix + 1) = true ->
  xs_content h string = Ok T ->
  xs_content h prefix = Ok P ->
  xs_content h suffix = Ok S ->
  ok_range h (xs_data suffix) (xs_size suffix + 1) = true ->
  get1 h suffix (padd (xs_data suffix) (xs_size suffix)) = 0 ->
  exists h' x',
    xs_concat clz0 h string prefix suffix = Ok (h', x')
    /\ xs_content h' x' = Ok (P ++ T ++ S)
    /\ xs_size x' = xs_size string + xs_size prefix + xs_size suffix
    /\ get1 h' x' (padd (xs_data x') (xs_size x')) = 0
    /\ xs_capacity x' = xs_capacity string
    /\ xs_data x' = xs_data string
    /\ live h' = live h
    /\ (xs_is_ptr string = false -> h' = h).
Proof.
  intros Hwf Hwp Hws Hu Hsep Hcap H54 Hrange HT HP HS Hrs Hz.
  pose proof (xs_size_range _ Hwf) as Bt.
  pose proof (xs_size_range _ Hwp) as Bp.
  pose proof (xs_size_range _ Hws) as Bs.
  assert (Hl : length (filler string) = 15%nat) by apply Hwf.
  apply load_ok in HT. destruct HT as [-> _].
  apply load_ok in HP. destruct HP as [-> HrP].
  apply load_ok in HS. destruct HS as [-> _].
  set (data := xs_data string) in *. set (size := xs_size string) in *.
  set (pres := xs_size prefix) in *. set (sufs := xs_size suffix) in *.
  set (pre := xs_data prefix) in *. set (suf := xs_data suffix) in *.
  set (total := size + pres + sufs) in *.
  set (T0 := load_bytes h string data (Z.to_nat size)).
  set (P0 := load_bytes h prefix pre (Z.to_nat pres)).
  set (S0 := load_bytes h suffix suf (Z.to_nat sufs)).
  set (S1 := load_bytes h suffix suf (Z.to_nat (sufs + 1))).
  assert (NT : length T0 = Z.to_nat size) by apply length_load_bytes.
  assert (NP : length P0 = Z.to_nat pres) by apply length_load_bytes.
  assert (NS : length S0 = Z.to_nat sufs) by apply length_load_bytes.
  assert (NS1 : length S1 = S (Z.to_nat sufs)).
  { unfold S1. rewrite length_load_bytes. lia. }
  assert (ES1 : S1 = S0 ++ [0]).
  { unfold S1, S0. replace (Z.to_nat (sufs + 1)) with (S (Z.to_nat sufs)) by lia.
    rewrite load_bytes_snoc, Z2Nat.id by lia. now rewrite Hz. }
  assert (Hcell : xs_is_ptr string = false -> total <= 15).
  { intros Hp. unfold xs_capacity in Hcap. now rewrite Hp in Hcap. }
  assert (Rsub : forall k m, 0 <= k -> 0 <= m -> k + m <= total + 1 ->
                   ok_range h (padd data k) m = true).
  { intros k m Hk Hm Hkm. now apply ok_range_sub with (n := total + 1). }
  assert (R0 : forall m, 0 <= m -> m <= total + 1 -> ok_range h data m = true).
  { intros m Hm Hle. rewrite <- (padd_0 data). apply Rsub; lia. }
  (* the three stores *)
  destruct (store_bytes (h, string) (padd data pres) T0) as [h1 x1] eqn:E1.
  destruct (store_bytes (h1, x1) data P0) as [h2 x2] eqn:E2.
  destruct (store_bytes (h2, x2) (padd data (pres + size)) S1) as [h3 x3] eqn:E3.
  pose proof (store_bytes_live (h, string) (padd data pres) T0) as V1.
  pose proof (store_bytes_live (h1, x1) data P0) as V2.
  rewrite E1 in V1. rewrite E2 in V2. cbn [fst] in V1, V2.
  destruct (three_stores h string data T0 P0 S1 h1 x1 h2 x2 h3 x3 Hl)
    as (Hload & Hl3 & Hlive3).
  { intros k Hk. apply ok_range_valid with (h := h) (n := total + 1);
      [exact Hrange|lia]. }
  { rewrite NP, Z2Nat.id by lia. exact E1. }
  { exact E2. }
  { rewrite Nat2Z.inj_add, NP, NT, !Z2Nat.id by lia. exact E3. }
  replace (length P0 + length T0 + length S1)%nat
    with (Z.to_nat total + 1)%nat in Hload by lia.
  rewrite load_bytes_app in Hload. cbn [load_bytes] in Hload.
  rewrite ES1, !app_assoc, Z2Nat.id in Hload by lia.
  apply app_inj_tail in Hload. destruct Hload as [Hbytes Hterm].
  rewrite <- app_assoc in Hbytes.
  (* what the sources hold when they are read *)
  assert (Hsrc1 : load_bytes h1 prefix pre (Z.to_nat pres) = P0).
  { destruct (xs_is_ptr string) eqn:Hp.
    - destruct (Hsep eq_refl) as [Hpp _].
      unfold P0, pre. rewrite (xs_data_inline _ Hpp).
      apply load_bytes_cell_any_heap.
    - assert (Hd : data = InCell 0) by now apply xs_data_inline.
      rewrite Hd in E1. cbn [padd] in E1.
      apply store_bytes_to_cell in E1. now subst h1. }
  assert (Hsrc2 : load_bytes h2 suffix suf (Z.to_nat (sufs + 1)) = S1).
  { destruct (xs_is_ptr string) eqn:Hp.
    - destruct (Hsep eq_refl) as [_ Hps].
      unfold S1, suf. rewrite (xs_data_inline _ Hps).
      apply load_bytes_cell_any_heap.
    - assert (Hd : data = InCell 0) by now apply xs_data_inline.
      rewrite Hd in E1, E2. cbn [padd] in E1.
      apply store_bytes_to_cell in E1, E2. now subst h1 h2. }
  (* the cell afterwards *)
  assert (Hx3 : xs_is_ptr x3 = xs_is_ptr string /\ xs_data x3 = data
                /\ (xs_is_ptr string = false -> h3 = h)).
  { destruct (xs_is_ptr string) eqn:Hp.
    - assert (Hd : data = InHeap (xs_ptr string
                     + if xs_is_large_string string then 4 else 0))
        by now apply xs_data_heap.
      rewrite Hd in E1, E2, E3. cbn [padd] in E1, E3.
      apply store_bytes_to_heap in E1, E2, E3.
      subst x3 x2 x1.
      split; [exact Hp|]. split; [reflexivity|discriminate].
    - assert (Hd : data = InCell 0) by now apply xs_data_inline.
      specialize (Hcell eq_refl).
      assert (Hp3 : xs_is_ptr x3 = false).
      { destruct (Z.eq_dec total 15) as [E15|Hne].
        - rewrite Hd, E15 in Hterm. change (tag x3 = 0) in Hterm.
          unfold xs_is_ptr. rewrite Hterm. reflexivity.
        - rewrite Hd in E1, E2, E3. cbn [padd] in E1, E3.
          apply store_bytes_to_cell_tag in E1, E2, E3; try lia.
          unfold xs_is_ptr in *. rewrite E3, E2, E1. exact Hp. }
      split; [exact Hp3|]. split; [rewrite Hd; now apply xs_data_inline|].
      intros _. rewrite Hd in E1, E2, E3. cbn [padd] in E1, E3.
      apply store_bytes_to_cell in E1, E2, E3. congruence. }
  destruct Hx3 as (Hp3 & Hd3 & Hh3).
  assert (Hcell3 : xs_is_ptr x3 = false -> total <= 15) by (rewrite Hp3; exact Hcell).
  assert (Hheap3 : xs_is_ptr x3 = true -> total < 2 ^ 54) by (intros _; exact H54).
  assert (Hsz3 : xs_size (xs_set_size x3 total) = total).
  { apply xs_size_xs_set_size; try assumption. lia. }
  assert (Hd3' : xs_data (xs_set_size x3 total) = data).
  { now rewrite xs_data_xs_set_size. }
  (* the run *)
  exists h3, (xs_set_size x3 total). split.
  { unfold xs_concat. rewrite (xs_cow_lazy_copy_unshared clz0 h string Hu).
    cbn [mbind result_bind]. cbv zeta. fold size pres sufs data pre suf.
    fold total. destruct (Z.leb_spec total (xs_capacity string)); [|lia].
    assert (L1 : load h string data size = Ok T0).
    { unfold load. now rewrite (R0 size), orb_true_r by lia. }
    assert (St1 : store h string (padd data pres) T0 = Ok (h1, x1)).
    { unfold store. now rewrite NT, Z2Nat.id, Rsub, orb_true_r, E1 by lia. }
    assert (L2 : load h1 prefix pre pres = Ok P0).
    { unfold load. rewrite (ok_range_live h h1), Hsrc1 by assumption.
      destruct HrP as [E|E]; rewrite E; [reflexivity|now rewrite orb_true_r]. }
    assert (St2 : store h1 x1 data P0 = Ok (h2, x2)).
    { unfold store.
      now rewrite NP, Z2Nat.id, (ok_range_live h h1), R0, orb_true_r, E2
        by (assumption || lia). }
    assert (L3 : load h2 suffix suf (sufs + 1) = Ok S1).
    { unfold load.
      now rewrite (ok_range_live h h2), Hrs, orb_true_r, Hsrc2 by congruence. }
    assert (St3 : store h2 x2 (padd data (pres + size)) S1 = Ok (h3, x3)).
    { unfold store.
      replace (Z.of_nat (length S1)) with (sufs + 1) by lia.
      now rewrite (ok_range_live h h2), Rsub, orb_true_r, E3
        by (congruence || lia). }
    unfold memmove, memcpy.
    rewrite L1. cbn [mbind result_bind]. rewrite St1. cbn [mbind result_bind].
    rewrite L2. cbn [mbind result_bind]. rewrite St2. cbn [mbind result_bind].
    rewrite L3. cbn [mbind result_bind]. rewrite St3. cbn [mbind result_bind].
    unfold xs_set_size, STACK_SIZE. destruct (xs_is_ptr x3); reflexivity. }
  split.
  { unfold xs_content. rewrite Hd3', Hsz3. unfold load.
    rewrite (ok_range_live h h3), R0, orb_true_r by (assumption || lia).
    f_equal. rewrite <- Hbytes. apply load_bytes_ext.
    intros k Hk. rewrite Z2Nat.id in Hk by lia. rewrite <- Hd3.
    apply get1_xs_set_size; [lia|].
    intros Hp. specialize (Hcell3 Hp). lia. }
  split; [exact Hsz3|]. split.
  { rewrite Hd3', Hsz3, <- Hd3.
    apply get1_xs_set_size_terminator; [lia|exact Hcell3|].
    rewrite Hd3. exact Hterm. }
  split.
  { rewrite xs_capacity_xs_set_size by assumption.
    destruct (xs_is_ptr string) eqn:Hp.
    - assert (Hd : data = InHeap (xs_ptr string
                     + if xs_is_large_string string then 4 else 0))
        by now apply xs_data_heap.
      rewrite Hd in E1, E2, E3. cbn [padd] in E1, E3.
      apply store_bytes_to_heap in E1, E2, E3. congruence.
    - unfold xs_capacity. now rewrite Hp3, Hp. }
  split; [exact Hd3'|]. split; [exact Hlive3|exact Hh3].
Qed.

(** The second call of [main]: "foobarbar" between "(((" and ")))". *)
Lemma xs_concat_in_place_witness :
  exists h' x',
    xs_concat 32 heap47
      (Xs [102; 111; 111; 98; 97; 114; 98; 97; 114; 0; 114; 32; 10; 10; 10] 6)
      (Xs [40; 40; 40; 0; 0; 0; 0; 0; 0; 0; 0; 0; 0; 0; 0] 12)
      (Xs [41; 41; 41; 0; 0; 0; 0; 0; 0; 0; 0; 0; 0; 0; 0] 12)
    = Ok (h', x')
    /\ xs_content h' x' = Ok (lit "(((foobarbar)))")
    /\ xs_size x' = 15.
Proof.
  destruct (xs_concat_in_place 32 heap47
      (Xs [102; 111; 111; 98; 97; 114; 98; 97; 114; 0; 114; 32; 10; 10; 10] 6)
      (Xs [40; 40; 40; 0; 0; 0; 0; 0; 0; 0; 0; 0; 0; 0; 0] 12)
      (Xs [41; 41; 41; 0; 0; 0; 0; 0; 0; 0; 0; 0; 0; 0; 0] 12)
      (lit "foobarbar") (lit "(((") (lit ")))"))
    as (h' & x' & Hr & Hc & Hs & _).
  - unfold xs_wf, is_byte; cbn. split; [reflexivity|]. split; [|lia].
    repeat (apply Forall_cons; split; [lia|]). apply Forall_nil_2.
  - unfold xs_wf, is_byte; cbn. split; [reflexivity|]. split; [|lia].
    repeat (apply Forall_cons; split; [lia|]). apply Forall_nil_2.
  - unfold xs_wf, is_byte; cbn. split; [reflexivity|]. split; [|lia].
    repeat (apply Forall_cons; split; [lia|]). apply Forall_nil_2.
  - exists 0. split; [reflexivity|lia].
  - discriminate.
  - vm_compute. discriminate.
  - reflexivity.
  - reflexivity.
  - reflexivity.
  - reflexivity.
  - reflexivity.
  - reflexivity.
  - reflexivity.
  - exists h', x'. split; [exact Hr|]. split; [exact Hc|exact Hs].
Defined.

(** ** What [xs_trim] leaves alone *)

(** A run of [xs_trim] on a value that nothing shares writes no byte of
    the heap outside the first [xs_size x' + 1] bytes of the value's data,
    and none at all when the value is inline. *)
Theorem xs_trim_frame (clz0 : Z) (h : heap) (x : xs) (trimset : list Z)
    (h' : heap) (x' : xs) :
  xs_wf x -> heap_ok h -> unshared h x ->
  xs_trim clz0 h x trimset = Ok (h', x') ->
  (forall a,
      (forall j, 0 <= j <= xs_size x' -> InHeap a <> padd (xs_data x) j) ->
      mem_get h' a = mem_get h a)
  /\ (xs_is_ptr x = false -> h' = h).
Proof.
  intros Hwf Hok Hu Ht.
  destruct (cstr_is_empty trimset) eqn:He.
  { unfold xs_trim in Ht. rewrite He in Ht. injection Ht as <- <-. auto. }
  apply xs_trim_ok in Ht; [|exact He].
  destruct Ht as (h0 & x0 & b0 & i & s & ha & xa & bt & h2 & x2
                  & Hcow & Hi & Hs & Hm & Hb & Ht & -> & ->).
  rewrite (xs_cow_lazy_copy_unshared clz0 h x Hu) in Hcow.
  injection Hcow as <- <- <-.
  destruct (xs_trim_body_trimmed _ _ _ _ _ _ _ _ _ _
              (proj1 Hwf) (xs_size_range x Hwf)
              (fun _ => conj Hok (xs_ptr_nonneg x Hwf)) Hi Hs Hm Hb Ht)
    as (_ & Hn0 & Hframe).
  destruct (xs_trim_body_content _ _ _ _ _ _ _ _ _ _
              (proj1 Hwf) (xs_size_range x Hwf)
              (fun _ => conj Hok (xs_ptr_nonneg x Hwf)) Hi Hs Hm Hb Ht)
    as (_ & _ & _ & Hsz & _).
  destruct (xs_trim_body_frame _ _ _ _ _ _ _ _ _ _ Hi Hs Hm Hb Ht)
    as (_ & _ & Hcell).
  split.
  - intros a Ha. rewrite Hsz in Ha. apply (Hframe (InHeap a) I Ha).
  - intros Hp. now destruct (Hcell Hp) as (? & _).
Qed.

(** The medium value " ab " trimmed with the set " ": the byte after the
    new terminator keeps its value. *)
Lemma xs_trim_frame_witness :
  exists h' x',
    xs_trim 32 (heap_medium (lit " ab ")) (medium_cell 4) (lit " ") = Ok (h', x')
    /\ mem_get h' 4099 = 32.
Proof.
  destruct (xs_trim 32 (heap_medium (lit " ab ")) (medium_cell 4) (lit " "))
    as [[h' x']|e] eqn:Ht; [|vm_compute in Ht; discriminate].
  exists h', x'. split; [reflexivity|].
  assert (Ex : xs_size x' = 2).
  { pose proof Ht as Ht'. vm_compute in Ht'. injection Ht' as _ <-. reflexivity. }
  assert (Hwf : xs_wf (medium_cell 4)).
  { change (medium_cell 4)
      with (Xs [0; 16; 0; 0; 0; 0; 0; 0; 4; 0; 0; 0; 0; 0; 0] 31).
    unfold xs_wf, is_byte; cbn. split; [reflexivity|]. split; [|lia].
    repeat (apply Forall_cons; split; [lia|]). apply Forall_nil_2. }
  assert (Hok : heap_ok (heap_medium (lit " ab "))).
  { unfold heap_ok.
    change (live (heap_medium (lit " ab "))) with [(4096, 2 ^ 60)].
    apply Forall_cons. split; [cbn [fst snd]; lia|apply Forall_nil_2]. }
  assert (Hu : unshared (heap_medium (lit " ab ")) (medium_cell 4)).
  { exists 0. split; [reflexivity|lia]. }
  destruct (xs_trim_frame 32 (heap_medium (lit " ab ")) (medium_cell 4)
              (lit " ") h' x' Hwf Hok Hu Ht) as [Hf _].
  rewrite (Hf 4099); [reflexivity|].
  intros j Hj. rewrite Ex in Hj.
  change (xs_data (medium_cell 4)) with (InHeap 4096).
  cbn [padd]. intros [= E]. lia.
Defined.

(** ** [xs_new] without memory *)

Lemma in_live_null h n : null_unmapped h -> in_live h 0 n = false.
Proof.
  unfold null_unmapped, in_live. induction (live h) as [|b l IH]; intros H.
  - reflexivity.
  - apply Forall_cons in H. destruct H as [Hb Hl]. cbn [existsb].
    rewrite (IH Hl), orb_false_r. unfold in_block.
    destruct (Z.leb_spec b.1 0); [lia|reflexivity].
Qed.

(** [xs_new] of a string of 16 or more bytes when [malloc] has no room for
    the 2^60-byte block: the result of [malloc] is not checked, and the
    first store (of the count, or of the bytes) goes through [NULL]. *)
Theorem xs_new_out_of_memory (clz0 : Z) (h : heap) (x : xs) (p : list Z) :
  xs_is_ptr x = false ->
  16 <= strlen p ->
  top h < brk h + 2 ^ 60 ->
  null_unmapped h ->
  xs_new clz0 h x p = Err (BadAccess (InHeap 0)).
Proof.
  intros Hp Hlen Hroom Hnull. unfold xs_new.
  rewrite xs_allocate_not_ptr by assumption.
  unfold LARGE_STRING_LEN, STACK_SIZE, malloc.
  destruct (Z.geb_spec (strlen p) 256).
  - destruct (Z.leb_spec (brk h + (2 ^ 60 + 4)) (top h)); [lia|].
    change (0 mod 2 ^ 64) with 0. unfold write_int.
    rewrite (in_live_null h 4 Hnull). reflexivity.
  - destruct (Z.gtb_spec (strlen p) 15); [|lia].
    destruct (Z.leb_spec (brk h + 2 ^ 60) (top h)); [lia|].
    cbn [mbind result_bind].
    change (xs_data (fresh_cell 0 false)) with (InHeap 0).
    unfold store. rewrite length_cstr_bytes, Z2Nat.id by lia. cbn [ok_range].
    rewrite (in_live_null h _ Hnull), orb_false_r.
    destruct (Z.eqb_spec (strlen p + 1) 0); [lia|reflexivity].
Qed.

(** A 16-byte string in an address space of 2^32 bytes. *)
Lemma xs_new_out_of_memory_witness :
  xs_new 32 heap32 xs_literal_empty (lit "0123456789abcdef")
  = Err (BadAccess (InHeap 0)).
Proof.
  apply xs_new_out_of_memory.
  - reflexivity.
  - vm_compute. discriminate.
  - reflexivity.
  - apply Forall_nil_2.
Defined.

(** ** [xs_grow] and the growing branch of [xs_concat] *)

Lemma xs_size_fresh_cell p b : xs_size (fresh_cell p b) = 0.
Proof.
  destruct (fresh_cell_fields p b) as (Hp & _ & _ & Hs & _).
  unfold xs_size. now rewrite Hp.
Qed.

Lemma xs_capacity_fresh_cell p b : xs_capacity (fresh_cell p b) = 2 ^ 60 - 1.
Proof.
  destruct (fresh_cell_fields p b) as (Hp & _ & Hc & _).
  unfold xs_capacity. now rewrite Hp, Hc.
Qed.

Lemma xs_data_fresh_cell p b :
  0 <= p < 2 ^ 64 ->
  xs_data (fresh_cell p b) = InHeap (p + if b then 4 else 0).
Proof.
  intros Hr. destruct (fresh_cell_fields p b) as (Hp & Hl & _).
  rewrite (xs_data_heap _ Hp), Hl, xs_ptr_fresh_cell, Z.mod_small by lia.
  reflexivity.
Qed.

Lemma xs_grow_room clz0 h x len :
  xs_is_ptr x = false -> 16 <= len ->
  0 <= brk h -> brk h + (2 ^ 60 + 4) <= top h -> top h <= 2 ^ 64 ->
  exists h2,
    xs_grow clz0 h x len = Ok (h2, fresh_cell (brk h) (256 <=? len))
    /\ live h2 = (brk h, if 256 <=? len then 2 ^ 60 + 4 else 2 ^ 60) :: live h
    /\ ((256 <=? len) = true -> read_int h2 (brk h) = Ok 1)
    /\ (forall b, b < brk h \/ brk h + 4 <= b -> mem_get h2 b = mem_get h b).
Proof.
  intros Hp Hlen Hb Hroom Htop.
  destruct (xs_allocate_room clz0 h x len Hp Hlen Hb Hroom Htop)
    as (h2 & Ha & Hlive & Hcnt & Hmem).
  exists h2. split; [|auto].
  unfold xs_grow, xs_capacity. rewrite Hp.
  destruct (Z.leb_spec len 15); [lia|].
  rewrite Ha. cbn [mbind result_bind].
  rewrite xs_size_fresh_cell. reflexivity.
Qed.

(** [xs_grow] of an inline value to 16 bytes or more, with room in the
    heap: the value becomes a heap value in a new block of 2^60 bytes (and
    4 more for the count from 256 bytes on), of capacity 2^60 - 1 whatever
    the length asked for, and of length 0: no byte of the old content is
    carried over. *)
Theorem xs_grow_of_inline_value (clz0 : Z) (h : heap) (x : xs) (len : Z) :
  xs_is_ptr x = false -> 16 <= len ->
  0 <= brk h -> brk h + (2 ^ 60 + 4) <= top h -> top h <= 2 ^ 64 ->
  exists h' x',
    xs_grow clz0 h x len = Ok (h', x')
    /\ xs_is_ptr x' = true
    /\ xs_is_large_string x' = (256 <=? len)
    /\ xs_ptr x' = brk h
    /\ xs_capacity x' = 2 ^ 60 - 1
    /\ xs_size x' = 0
    /\ xs_content h' x' = Ok []
    /\ live h' = (brk h, if 256 <=? len then 2 ^ 60 + 4 else 2 ^ 60) :: live h.
Proof.
  intros Hp Hlen Hb Hroom Htop.
  destruct (xs_grow_room clz0 h x len Hp Hlen Hb Hroom Htop)
    as (h2 & Hg & Hlive & _).
  exists h2, (fresh_cell (brk h) (256 <=? len)).
  destruct (fresh_cell_fields (brk h) (256 <=? len)) as (Hp' & Hl' & _).
  split; [exact Hg|]. split; [exact Hp'|]. split; [exact Hl'|].
  split; [rewrite xs_ptr_fresh_cell; apply Z.mod_small; lia|].
  split; [apply xs_capacity_fresh_cell|].
  split; [apply xs_size_fresh_cell|].
  split; [|exact Hlive].
  unfold xs_content. rewrite xs_size_fresh_cell. reflexivity.
Qed.

(** The inline value "abc" grown to 300 bytes. *)
Lemma xs_grow_of_inline_value_witness :
  exists h' x',
    xs_grow 32 heap0 (Xs [97; 98; 99; 0; 0; 0; 0; 0; 0; 0; 0; 0; 0; 0; 0] 12) 300
    = Ok (h', x')
    /\ xs_capacity x' = 2 ^ 60 - 1
    /\ xs_size x' = 0.
Proof.
  destruct (xs_grow_of_inline_value 32 heap0
              (Xs [97; 98; 99; 0; 0; 0; 0; 0; 0; 0; 0; 0; 0; 0; 0] 12) 300)
    as (h' & x' & Hg & _ & _ & _ & Hc & Hs & _).
  - reflexivity.
  - lia.
  - cbn. lia.
  - cbn. lia.
  - cbn. lia.
  - exists h', x'. split; [exact Hg|]. split; [exact Hc|exact Hs].
Defined.

Lemma ok_range_new_block h a sz l k m :
  live h = (a, sz) :: l ->
  0 <= k -> 0 <= m -> k + m <= sz ->
  ok_range h (InHeap (a + k)) m = true.
Proof.
  intros Hl Hk Hm Hle. cbn [ok_range]. unfold in_live. rewrite Hl.
  cbn [existsb]. rewrite in_block_head by lia. reflexivity.
Qed.

Lemma ok_range_new_block_base h a sz l m :
  live h = (a, sz) :: l -> 0 <= m <= sz ->
  ok_range h (InHeap a) m = true.
Proof.
  intros Hl Hm. rewrite <- (Z.add_0_r a).
  apply (ok_range_new_block h a sz l 0 m Hl); lia.
Qed.

(** [xs_concat] of three inline values whose lengths add up to 16 bytes
    or more, with room in the heap: the target becomes a medium value in a
    new block that holds prefix, old content and suffix, with the suffix's
    terminator after them. *)
Theorem xs_concat_grows
    (clz0 : Z) (h : heap) (string prefix suffix : xs) (T P S : list Z) :
  xs_is_ptr string = false -> unshared h string ->
  xs_is_ptr prefix = false -> xs_is_ptr suffix = false ->
  15 < xs_size string + xs_size prefix + xs_size suffix ->
  0 <= brk h -> brk h + (2 ^ 60 + 4) <= top h -> top h <= 2 ^ 64 ->
  xs_content h string = Ok T ->
  xs_content h prefix = Ok P ->
  xs_content h suffix = Ok S ->
  get1 h suffix (padd (xs_data suffix) (xs_size suffix)) = 0 ->
  exists h' x',
    xs_concat clz0 h string prefix suffix = Ok (h', x')
    /\ xs_is_ptr x' = true
    /\ xs_is_large_string x' = false
    /\ xs_content h' x' = Ok (P ++ T ++ S)
    /\ xs_size x' = xs_size string + xs_size prefix + xs_size suffix
    /\ get1 h' x' (padd (xs_data x') (xs_size x')) = 0
    /\ xs_capacity x' = 2 ^ 60 - 1
    /\ live h' = (brk h, 2 ^ 60) :: live h.
Proof.
  intros Hp Hu Hpp Hps Htot Hb Hroom Htop HT HP HS Hz.
  pose proof (xs_size_inline_range _ Hp) as Bt.
  pose proof (xs_size_inline_range _ Hpp) as Bp.
  pose proof (xs_size_inline_range _ Hps) as Bs.
  unfold xs_content in HT, HP, HS.
  rewrite (xs_data_inline _ Hp) in HT. rewrite (xs_data_inline _ Hpp) in HP.
  rewrite (xs_data_inline _ Hps) in HS, Hz.
  set (size := xs_size string) in *. set (pres := xs_size prefix) in *.
  set (sufs := xs_size suffix) in *. set (total := size + pres + sufs) in *.
  pose proof (load_ok _ _ _ _ _ HT) as [ET _].
  pose proof (load_ok _ _ _ _ _ HP) as [EP _].
  pose proof (load_ok _ _ _ _ _ HS) as [ES _].
  assert (NT : length T = Z.to_nat size) by (rewrite ET; apply length_load_bytes).
  assert (NP : length P = Z.to_nat pres) by (rewrite EP; apply length_load_bytes).
  assert (NS : length S = Z.to_nat sufs) by (rewrite ES; apply length_load_bytes).
  set (S1 := load_bytes h suffix (InCell 0) (Z.to_nat (sufs + 1))).
  assert (NS1 : length S1 = Datatypes.S (Z.to_nat sufs)).
  { unfold S1. rewrite length_load_bytes. lia. }
  assert (ES1 : S1 = S ++ [0]).
  { unfold S1. rewrite ES.
    replace (Z.to_nat (sufs + 1)) with (Datatypes.S (Z.to_nat sufs)) by lia.
    rewrite load_bytes_snoc, Z2Nat.id by lia. now rewrite Hz. }
  (* the new block *)
  destruct (xs_grow_room clz0 h xs_literal_empty total eq_refl
              ltac:(lia) Hb Hroom Htop) as (h2 & Hg & Hlive2 & _).
  destruct (Z.leb_spec 256 total) as [|_]; [lia|].
  set (fc := fresh_cell (brk h) false) in *.
  destruct (fresh_cell_fields (brk h) false) as (Hpf & Hlf & _ & _ & Hl).
  fold fc in Hpf, Hlf, Hl.
  assert (Hd : xs_data fc = InHeap (brk h)).
  { unfold fc. rewrite xs_data_fresh_cell, Z.add_0_r by lia. reflexivity. }
  (* the three stores *)
  destruct (store_bytes (h2, fc) (InHeap (brk h + pres)) T) as [h3 x3] eqn:E1.
  destruct (store_bytes (h3, x3) (InHeap (brk h)) P) as [h4 x4] eqn:E2.
  destruct (store_bytes (h4, x4) (InHeap (brk h + (pres + size))) S1)
    as [h5 x5] eqn:E3.
  pose proof (store_bytes_live (h2, fc) (InHeap (brk h + pres)) T) as V1.
  pose proof (store_bytes_live (h3, x3) (InHeap (brk h)) P) as V2.
  rewrite E1 in V1. rewrite E2 in V2. cbn [fst] in V1, V2.
  destruct (three_stores h2 fc (InHeap (brk h)) T P S1 h3 x3 h4 x4 h5 x5 Hl)
    as (Hload & _ & Hlive5).
  { intros k Hk. exact I. }
  { cbn [padd]. rewrite NP, Z2Nat.id by lia. exact E1. }
  { exact E2. }
  { cbn [padd]. rewrite Nat2Z.inj_add, NP, NT, !Z2Nat.id by lia. exact E3. }
  replace (length P + length T + length S1)%nat
    with (Z.to_nat total + 1)%nat in Hload by lia.
  rewrite load_bytes_app in Hload. cbn [load_bytes] in Hload.
  rewrite ES1, !app_assoc, Z2Nat.id in Hload by lia.
  apply app_inj_tail in Hload. destruct Hload as [Hbytes Hterm].
  rewrite <- app_assoc in Hbytes.
  pose proof E1 as X1. pose proof E2 as X2. pose proof E3 as X3.
  apply store_bytes_to_heap in X1, X2, X3. subst x5 x4 x3.
  assert (L3 : live h3 = (brk h, 2 ^ 60) :: live h) by congruence.
  assert (L4 : live h4 = (brk h, 2 ^ 60) :: live h) by congruence.
  assert (L5 : live h5 = (brk h, 2 ^ 60) :: live h) by congruence.
  assert (Hsz : xs_size (xs_set_size fc total) = total).
  { apply xs_size_xs_set_size; try assumption; try lia.
    rewrite Hpf. discriminate. }
  assert (Hd' : xs_data (xs_set_size fc total) = InHeap (brk h)).
  { now rewrite xs_data_xs_set_size. }
  exists h5, (xs_set_size fc total). split.
  { unfold xs_concat. rewrite (xs_cow_lazy_copy_unshared clz0 h string Hu).
    cbn [mbind result_bind]. cbv zeta.
    rewrite (xs_data_inline _ Hp), (xs_data_inline _ Hpp), (xs_data_inline _ Hps).
    fold size pres sufs. fold total.
    unfold xs_capacity at 1. rewrite Hp.
    destruct (Z.leb_spec total 15); [lia|].
    rewrite Hg. cbn [mbind result_bind]. fold fc. rewrite Hd. cbn [padd].
    unfold memcpy.
    rewrite (load_cell_any_heap h2 h string 0 size), HT.
    cbn [mbind result_bind].
    assert (St1 : store h2 fc (InHeap (brk h + pres)) T = Ok (h3, fc)).
    { unfold store. rewrite NT, Z2Nat.id by lia.
      rewrite (ok_range_new_block h2 _ _ _ _ _ Hlive2), orb_true_r, E1 by lia.
      reflexivity. }
    rewrite St1. cbn [mbind result_bind].
    rewrite (load_cell_any_heap h3 h prefix 0 pres), HP.
    cbn [mbind result_bind].
    assert (St2 : store h3 fc (InHeap (brk h)) P = Ok (h4, fc)).
    { unfold store. rewrite NP, Z2Nat.id by lia.
      rewrite (ok_range_new_block_base h3 _ _ _ _ L3), orb_true_r, E2 by lia.
      reflexivity. }
    rewrite St2. cbn [mbind result_bind].
    assert (Ld3 : load h4 suffix (InCell 0) (sufs + 1) = Ok S1).
    { unfold load. cbn [ok_range].
      destruct (Z.leb_spec (0 + (sufs + 1)) 16); [|lia].
      rewrite orb_true_r. f_equal. apply load_bytes_cell_any_heap. }
    rewrite Ld3. cbn [mbind result_bind].
    assert (St3 : store h4 fc (InHeap (brk h + (pres + size))) S1 = Ok (h5, fc)).
    { unfold store. replace (Z.of_nat (length S1)) with (sufs + 1) by lia.
      rewrite (ok_range_new_block h4 _ _ _ _ _ L4), orb_true_r, E3 by lia.
      reflexivity. }
    rewrite St3. cbn [mbind result_bind].
    rewrite (xs_free_not_ptr _ _ Hp). cbn [mbind result_bind].
    unfold xs_set_size. rewrite Hpf. reflexivity. }
  split; [now rewrite is_ptr_xs_set_size|].
  split; [now rewrite is_large_xs_set_size|].
  split.
  { unfold xs_content. rewrite Hd', Hsz. unfold load.
    rewrite (ok_range_new_block_base h5 _ _ _ _ L5), orb_true_r by lia.
    f_equal. rewrite <- Hbytes.
    apply load_bytes_ext. intros k _. reflexivity. }
  split; [exact Hsz|].
  split; [rewrite Hd', Hsz; exact Hterm|].
  split; [|exact L5].
  rewrite xs_capacity_xs_set_size by assumption. apply xs_capacity_fresh_cell.
Qed.

(** "0123456789" between "abc" and "def": 16 bytes. *)
Lemma xs_concat_grows_witness :
  exists h' x',
    xs_concat 32 heap0
      (Xs [48; 49; 50; 51; 52; 53; 54; 55; 56; 57; 0; 0; 0; 0; 0] 5)
      (Xs [97; 98; 99; 0; 0; 0; 0; 0; 0; 0; 0; 0; 0; 0; 0] 12)
      (Xs [100; 101; 102; 0; 0; 0; 0; 0; 0; 0; 0; 0; 0; 0; 0] 12)
    = Ok (h', x')
    /\ xs_content h' x' = Ok (lit "abc0123456789def")
    /\ xs_size x' = 16.
Proof.
  destruct (xs_concat_grows 32 heap0
      (Xs [48; 49; 50; 51; 52; 53; 54; 55; 56; 57; 0; 0; 0; 0; 0] 5)
      (Xs [97; 98; 99; 0; 0; 0; 0; 0; 0; 0; 0; 0; 0; 0; 0] 12)
      (Xs [100; 101; 102; 0; 0; 0; 0; 0; 0; 0; 0; 0; 0; 0; 0] 12)
      (lit "0123456789") (lit "abc") (lit "def"))
    as (h' & x' & Hr & _ & _ & Hc & Hs & _).
  - reflexivity.
  - exists 0. split; [reflexivity|lia].
  - reflexivity.
  - reflexivity.
  - reflexivity.
  - cbn. lia.
  - cbn. lia.
  - cbn. lia.
  - reflexivity.
  - reflexivity.
  - reflexivity.
  - reflexivity.
  - exists h', x'. split; [exact Hr|]. split; [exact Hc|exact Hs].
Defined.

(** ** The copy-on-write step on a shared value *)

(** [xs_cow_lazy_copy] on a large value with a count of 2 or more: the
    count goes down by one and the value is replaced by an inline value of
    length 0 whose first byte is the first byte of the old data; the length
    read after the reset is that of the empty cell, so one byte is copied. *)
Theorem xs_cow_lazy_copy_of_shared_value
    (clz0 : Z) (h : heap) (x : xs) (c : Z) :
  xs_is_ptr x = true -> xs_is_large_string x = true ->
  xs_get_refcnt h x = Ok c -> 2 <= c ->
  ok_range h (xs_data x) 1 = true ->
  exists h',
    xs_cow_lazy_copy clz0 h x
    = Ok (h', cell_set xs_literal_empty 0 (get1 h x (xs_data x)), true)
    /\ xs_size (cell_set xs_literal_empty 0 (get1 h x (xs_data x))) = 0
    /\ xs_is_ptr (cell_set xs_literal_empty 0 (get1 h x (xs_data x))) = false
    /\ xs_get_refcnt h' x = Ok (c - 1)
    /\ live h' = live h
    /\ (forall b, b < xs_ptr x \/ xs_ptr x + 4 <= b -> mem_get h' b = mem_get h b).
Proof.
  intros Hp Hl Hc Hge Hr.
  pose proof Hc as Hc'. unfold xs_get_refcnt in Hc'. rewrite Hl in Hc'.
  cbn [negb] in Hc'.
  pose proof (read_int_range _ _ _ Hc') as Hrg.
  destruct (write_int_after_read h (xs_ptr x) c (c - 1) Hc') as [h1 Hw].
  pose proof (write_int_live _ _ _ _ Hw) as Hlive.
  exists h1. split; [|split; [reflexivity|split; [reflexivity|split; [|split]]]].
  - unfold xs_cow_lazy_copy. rewrite Hc. cbn [mbind result_bind].
    destruct (Z.leb_spec c 1); [lia|].
    unfold xs_dec_refcnt. rewrite Hl. cbn [negb].
    rewrite Hc'. cbn [mbind result_bind]. rewrite Hw. cbn [mbind result_bind].
    rewrite xs_allocate_not_ptr by apply is_ptr_set_is_ptr.
    pose proof (xs_size_inline_range (set_is_ptr x false)
                  (is_ptr_set_is_ptr x false)) as Hsz.
    destruct (Z.geb_spec (xs_size (set_is_ptr x false)) LARGE_STRING_LEN);
      [unfold LARGE_STRING_LEN in *; lia|].
    destruct (Z.gtb_spec (xs_size (set_is_ptr x false)) STACK_SIZE);
      [unfold STACK_SIZE in *; lia|].
    cbn [mbind result_bind].
    change (xs_data xs_literal_empty) with (InCell 0).
    change (size_field xs_literal_empty + 1) with 1.
    unfold memcpy, load. rewrite (ok_range_live h h1), Hr by assumption.
    cbn [mbind result_bind orb Z.eqb]. change (Z.to_nat 1) with 1%nat.
    rewrite (xs_data_heap _ Hp), Hl. cbn [load_bytes get1].
    rewrite (mem_get_write_int _ _ _ _ (xs_ptr x + 4) Hw) by lia.
    reflexivity.
  - unfold xs_get_refcnt. rewrite Hl. cbn [negb].
    rewrite (read_int_write_int _ _ _ _ Hw). now rewrite to_int_small by lia.
  - exact Hlive.
  - intros b Hb. apply (mem_get_write_int _ _ _ _ _ Hw Hb).
Qed.

(** The value of [large_cell] with a count of 2. *)
Lemma xs_cow_lazy_copy_of_shared_value_witness :
  exists h',
    xs_cow_lazy_copy 32 (heap_counted 2) large_cell
    = Ok (h', xs_literal_empty, true)
    /\ xs_get_refcnt h' large_cell = Ok 1.
Proof.
  destruct (xs_cow_lazy_copy_of_shared_value 32 (heap_counted 2) large_cell 2)
    as (h' & Hr & _ & _ & Hc & _).
  - reflexivity.
  - reflexivity.
  - reflexivity.
  - lia.
  - reflexivity.
  - exists h'. split; [exact Hr|exact Hc].
Defined.

(** ** [xs_cpy] of a medium value *)

Lemma xs_allocate_medium clz0 h x len :
  xs_is_ptr x = false -> 16 <= len < 256 -> brk h + 2 ^ 60 <= top h ->
  xs_allocate clz0 h x len
  = Ok (Heap (mem h) ((brk h, 2 ^ 60) :: live h) (brk h + 2 ^ 60) (top h),
        fresh_cell (brk h) false).
Proof.
  intros Hp Hlen Hroom. rewrite xs_allocate_not_ptr by assumption.
  unfold LARGE_STRING_LEN, STACK_SIZE, malloc.
  destruct (Z.geb_spec len 256); [lia|].
  destruct (Z.gtb_spec len 15); [|lia].
  destruct (Z.leb_spec (brk h + 2 ^ 60) (top h)); [reflexivity|lia].
Qed.

Lemma in_live_below h a n :
  blocks_below_brk h -> in_live h a n = true -> a + n <= brk h.
Proof.
  unfold blocks_below_brk, in_live. rewrite Forall_forall, existsb_exists.
  intros Hok (b & Hin & Hb). apply list_elem_of_In in Hin.
  specialize (Hok b Hin). unfold in_block in Hb.
  rewrite andb_true_iff, !Z.leb_le in Hb. lia.
Qed.

(** [xs_cpy] of a value of 16 to 255 bytes into an inline destination,
    with room in the heap: the bytes and the terminator are copied into a
    new block and the source is left as it was, but the copy has length 0:
    [xs_allocate] resets the cell after [*dest = *src], and the length is
    not set again. *)
Theorem xs_cpy_of_medium_value
    (clz0 : Z) (h : heap) (dest src : xs) (c : list Z) :
  xs_is_ptr dest = false ->
  16 <= xs_size src < 256 ->
  0 <= brk h -> brk h + 2 ^ 60 <= top h -> top h <= 2 ^ 64 ->
  blocks_below_brk h ->
  ok_range h (xs_data src) (xs_size src + 1) = true ->
  xs_content h src = Ok c ->
  exists h' d,
    xs_cpy clz0 h dest src = Ok (h', d)
    /\ xs_is_ptr d = true
    /\ xs_ptr d = brk h
    /\ xs_size d = 0
    /\ xs_content h' d = Ok []
    /\ load_bytes h' d (xs_data d) (Z.to_nat (xs_size src)) = c
    /\ xs_content h' src = Ok c
    /\ live h' = (brk h, 2 ^ 60) :: live h.
Proof.
  intros Hpd Hlen Hb Hroom Htop Hbelow Hr Hc.
  assert (Hps : xs_is_ptr src = true).
  { destruct (xs_is_ptr src) eqn:E; [reflexivity|].
    pose proof (xs_size_inline_range _ E). lia. }
  unfold xs_content in *. rewrite (xs_data_heap _ Hps) in *.
  set (a := xs_ptr src + (if xs_is_large_string src then 4 else 0)) in *.
  set (len := xs_size src) in *.
  apply load_ok in Hc. destruct Hc as [Ec _].
  cbn [ok_range] in Hr.
  pose proof (in_live_below _ _ _ Hbelow Hr) as Ha.
  set (h2 := Heap (mem h) ((brk h, 2 ^ 60) :: live h) (brk h + 2 ^ 60) (top h)).
  set (fc := fresh_cell (brk h) false).
  set (B := load_bytes h src (InHeap a) (Z.to_nat (len + 1))).
  destruct (fresh_cell_fields (brk h) false) as (Hpf & _ & _ & _ & Hl).
  fold fc in Hpf, Hl.
  assert (Hd : xs_data fc = InHeap (brk h)).
  { unfold fc. rewrite xs_data_fresh_cell, Z.add_0_r by lia. reflexivity. }
  assert (NB : length B = S (Z.to_nat len)).
  { unfold B. rewrite length_load_bytes. lia. }
  assert (EB : B = c ++ [mem_get h (a + len)]).
  { unfold B. replace (Z.to_nat (len + 1)) with (S (Z.to_nat len)) by lia.
    rewrite load_bytes_snoc, Z2Nat.id, <- Ec by lia. reflexivity. }
  destruct (store_bytes (h2, fc) (InHeap (brk h)) B) as [h3 x3] eqn:E1.
  pose proof (store_bytes_live (h2, fc) (InHeap (brk h)) B) as V1.
  rewrite E1 in V1. cbn [fst] in V1.
  pose proof E1 as X1. apply store_bytes_to_heap in X1. subst x3.
  assert (L3 : live h3 = (brk h, 2 ^ 60) :: live h) by exact V1.
  pose proof (load_after_store_same _ _ _ _ _ _ E1 Hl (fun _ _ => I)) as Hsame.
  rewrite NB, load_bytes_snoc, EB in Hsame.
  apply app_inj_tail in Hsame. destruct Hsame as [Hbytes _].
  assert (Hsrc : load_bytes h3 fc (InHeap a) (Z.to_nat len) = c).
  { rewrite (load_after_store_other _ _ _ _ _ _ (InHeap a) (Z.to_nat len) E1).
    - rewrite Ec. apply load_bytes_ext. intros k _. reflexivity.
    - intros k _. exact I.
    - intros k _. exact I.
    - intros j k Hj Hk. cbn [padd]. intros [= E]. lia. }
  exists h3, fc. split.
  { unfold xs_cpy. rewrite (xs_free_not_ptr _ _ Hpd). cbn [mbind result_bind].
    fold len. unfold LARGE_STRING_LEN, STACK_SIZE.
    destruct (Z.geb_spec len 256); [lia|].
    destruct (Z.gtb_spec len 15); [|lia].
    rewrite (xs_allocate_medium clz0 h (set_is_ptr src false) len
               (is_ptr_set_is_ptr src false) Hlen Hroom).
    cbn [mbind result_bind]. fold h2 fc. rewrite Hd, (xs_data_heap _ Hps).
    fold a. unfold memcpy, load. cbn [ok_range].
    assert (R2 : in_live h2 a (len + 1) = true).
    { unfold in_live, h2. cbn [live existsb]. unfold in_live in Hr.
      rewrite Hr. apply orb_true_r. }
    rewrite R2, orb_true_r. cbn [mbind result_bind].
    replace (load_bytes h2 src (InHeap a) (Z.to_nat (len + 1))) with B
      by (apply load_bytes_ext; intros k _; reflexivity).
    unfold store.
    rewrite (ok_range_new_block_base h2 (brk h) (2 ^ 60) (live h))
      by (reflexivity || lia).
    rewrite orb_true_r, E1. reflexivity. }
  split; [exact Hpf|].
  split; [unfold fc; rewrite xs_ptr_fresh_cell; apply Z.mod_small; lia|].
  split; [apply xs_size_fresh_cell|].
  split; [unfold fc; rewrite xs_size_fresh_cell; reflexivity|].
  split; [rewrite Hd; exact Hbytes|].
  split; [|exact L3].
  unfold load. cbn [ok_range].
  assert (R3 : in_live h3 a len = true).
  { unfold in_live. rewrite L3. cbn [existsb].
    assert (R : in_live h a len = true).
    { change (ok_range h (InHeap a) len = true).
      rewrite <- (padd_0 (InHeap a)).
      apply ok_range_sub with (n := len + 1); [exact Hr|lia..]. }
    unfold in_live in R. rewrite R. apply orb_true_r. }
  rewrite R3, orb_true_r. f_equal.
  rewrite <- Hsrc. apply load_bytes_ext. intros k _. reflexivity.
Qed.

(** A 16-byte medium value copied into an empty destination. *)
Lemma xs_cpy_of_medium_value_witness :
  exists h' d,
    xs_cpy 32 (heap_medium (lit "0123456789abcdef")) xs_literal_empty
      (medium_cell 16)
    = Ok (h', d)
    /\ xs_size d = 0
    /\ xs_content h' d = Ok []
    /\ xs_content h' (medium_cell 16) = Ok (lit "0123456789abcdef").
Proof.
  destruct (xs_cpy_of_medium_value 32 (heap_medium (lit "0123456789abcdef"))
              xs_literal_empty (medium_cell 16) (lit "0123456789abcdef"))
    as (h' & d & Hr & _ & _ & Hs & Hc & _ & Hsrc & _).
  - reflexivity.
  - change (xs_size (medium_cell 16)) with 16. lia.
  - change (brk (heap_medium (lit "0123456789abcdef"))) with (4096 + 2 ^ 60). lia.
  - change (brk (heap_medium (lit "0123456789abcdef"))) with (4096 + 2 ^ 60).
    change (top (heap_medium (lit "0123456789abcdef"))) with (2 ^ 62). lia.
  - change (top (heap_medium (lit "0123456789abcdef"))) with (2 ^ 62). lia.
  - unfold blocks_below_brk.
    change (live (heap_medium (lit "0123456789abcdef"))) with [(4096, 2 ^ 60)].
    change (brk (heap_medium (lit "0123456789abcdef"))) with (4096 + 2 ^ 60).
    apply Forall_cons. split; [cbn [fst snd]; lia|apply Forall_nil_2].
  - reflexivity.
  - reflexivity.
  - exists h', d. split; [exact Hr|]. split; [exact Hs|].
    split; [exact Hc|exact Hsrc].
Defined.

(** ** [xs_new] followed by [xs_free] *)

Lemma filter_not_base p (l : list (Z * Z)) :
  existsb (is_base p) l = false ->
  filter (fun b => negb (is_base p b)) l = l.
Proof.
  induction l as [|b l IH]; intros H; [reflexivity|].
  cbn [existsb] in H. apply orb_false_iff in H. destruct H as [Hb Hl].
  rewrite filter_cons_True by (rewrite Hb; exact I).
  now rewrite IH.
Qed.

(** A heap string that is built and then released leaves the live blocks
    as they were before: the block [xs_new] obtained is the one [xs_free]
    gives back, and the cell is the empty inline value again. *)
Theorem xs_new_then_free (clz0 : Z) (h : heap) (x : xs) (p : list Z) :
  xs_is_ptr x = false -> 16 <= strlen p < 2 ^ 54 ->
  0 < brk h -> brk h + (2 ^ 60 + 4) <= top h -> top h <= 2 ^ 64 ->
  existsb (is_base (brk h)) (live h) = false ->
  exists h1 x1 h2,
    xs_new clz0 h x p = Ok (h1, x1)
    /\ xs_free h1 x1 = Ok (h2, xs_literal_empty)
    /\ live h2 = live h.
Proof.
  intros Hp Hlen Hb Hroom Htop Hfresh.
  destruct (xs_new_heap clz0 h x p Hp Hlen ltac:(lia) Hroom Htop)
    as (h1 & x1 & Hn & Hp1 & Hl1 & _ & _ & _ & Hcnt & Hlive & Hptr & _).
  destruct (xs_free_last_owner h1 x1) as (h2 & Hf & Hlive2 & _).
  - exact Hp1.
  - intros Hlg. apply Hcnt. rewrite Hl1 in Hlg. now apply Z.leb_le in Hlg.
  - rewrite Hptr. lia.
  - rewrite Hptr, Hlive. cbn [existsb]. unfold is_base at 1. cbn [fst].
    now rewrite Z.eqb_refl.
  - exists h1, x1, h2. split; [exact Hn|]. split; [exact Hf|].
    rewrite Hlive2, Hptr, Hlive.
    rewrite filter_cons_False.
    + now apply filter_not_base.
    + unfold is_base. cbn [fst]. rewrite Z.eqb_refl. cbn. tauto.
Qed.

(** A string of 300 bytes ['a'] built in the empty heap and released. *)
Lemma xs_new_then_free_witness :
  exists h1 x1 h2,
    xs_new 32 heap0 xs_literal_empty (many 300) = Ok (h1, x1)
    /\ xs_free h1 x1 = Ok (h2, xs_literal_empty)
    /\ live h2 = live heap0.
Proof.
  apply (xs_new_then_free 32 heap0 xs_literal_empty (many 300)).
  - reflexivity.
  - rewrite strlen_many by lia. lia.
  - cbn. lia.
  - cbn. lia.
  - cbn. lia.
  - reflexivity.
Defined.
